(** * backup_multidisk.py: online backup of KVM/libvirt guests, disk by disk

    A shallow embedding of the class [VMBackup] of [src/backup_multidisk.py]
    and the properties of its specification.

    - Python [str] values are [string]s: sequences of code points, here the
      code points below 256.
    - Python [int] values are [Z].
    - The script talks to the hypervisor and to the storage only through
      [subprocess.run]; the machine it runs on is a parameter of the model
      (section [Script]): a transition function on an abstract host state
      that, for a command line, gives how the process ended.
    - The file tree the script sees through [pathlib] and [os.path] is a
      finite map from path strings to nodes, on a machine whose mount points
      are a list of directories: a file is renamed inside one file system
      only.
    - A method is a function in a state-and-exception monad [M]; the state
      holds the file tree, the mount points, the host state, the two
      instance fields the script mutates and, as a ghost field, the list of
      command lines executed so far.  Logging has no effect on any result
      and is left out. *)

From Stdlib Require Import ZArith QArith Qround Ascii String List Bool Lia.
From Stdlib Require Import SpecFloat Zpower.
From stdpp Require Import base tactics option list gmap strings pretty.

Open Scope string_scope.
Open Scope Z_scope.

(** ** Python built-ins on [str] *)

Module Py.

Definition code (c : ascii) : nat := nat_of_ascii c.

(** [str.isspace] for one character (code points below 256). *)
Definition isspace (c : ascii) : bool :=
  let n := code c in
  ((9 <=? n) && (n <=? 13) || (28 <=? n) && (n <=? 32)
   || (n =? 133) || (n =? 160))%nat.

(** The line boundaries of [str.splitlines], apart from the pair CR LF. *)
Definition islinebreak (c : ascii) : bool :=
  let n := code c in
  ((10 <=? n) && (n <=? 13) || (28 <=? n) && (n <=? 30) || (n =? 133))%nat.

Definition is_cr (c : ascii) : bool := (code c =? 13)%nat.
Definition is_lf (c : ascii) : bool := (code c =? 10)%nat.

Definition is_empty (s : string) : bool :=
  match s with EmptyString => true | _ => false end.

Definition snoc (s : string) (c : ascii) : string := s ++ String c "".

(** [s.splitlines()]: [cur] is the line read so far. *)
Fixpoint splitlines_from (cur s : string) : list string :=
  match s with
  | EmptyString => if is_empty cur then [] else [cur]
  | String c s' =>
      if is_cr c then
        match s' with
        | String c2 s'' =>
            if is_lf c2 then cur :: splitlines_from "" s''
            else cur :: splitlines_from "" s'
        | EmptyString => [cur]
        end
      else if islinebreak c then cur :: splitlines_from "" s'
      else splitlines_from (snoc cur c) s'
  end.

Definition splitlines (s : string) : list string := splitlines_from "" s.

Fixpoint lstrip (s : string) : string :=
  match s with
  | String c s' => if isspace c then lstrip s' else s
  | EmptyString => ""
  end.

Fixpoint rstrip (s : string) : string :=
  match s with
  | String c s' =>
      let r := rstrip s' in
      if isspace c && is_empty r then "" else String c r
  | EmptyString => ""
  end.

(** [s.strip()] *)
Definition strip (s : string) : string := rstrip (lstrip s).

(** [s.split()]: the maximal runs of characters that are not white space. *)
Fixpoint split_from (cur s : string) : list string :=
  match s with
  | EmptyString => if is_empty cur then [] else [cur]
  | String c s' =>
      if isspace c then
        (if is_empty cur then split_from "" s' else cur :: split_from "" s')
      else split_from (snoc cur c) s'
  end.

Definition split (s : string) : list string := split_from "" s.

(** [sub in s] *)
Fixpoint contains (sub s : string) : bool :=
  String.prefix sub s ||
  match s with
  | String _ s' => contains sub s'
  | EmptyString => false
  end.

(** [s.replace(old, new)] for a one-character [old]. *)
Fixpoint replace_char (old : ascii) (new : string) (s : string) : string :=
  match s with
  | String c s' =>
      (if Ascii.eqb c old then new else String c "") ++ replace_char old new s'
  | EmptyString => ""
  end.

(** [sep.join(l)] *)
Fixpoint join (sep : string) (l : list string) : string :=
  match l with
  | [] => ""
  | [x] => x
  | x :: l' => x ++ sep ++ join sep l'
  end.

Definition digit_of (c : ascii) : option Z :=
  let n := code c in
  if ((48 <=? n) && (n <=? 57))%nat then Some (Z.of_nat (n - 48)) else None.

(** The digits of a decimal literal; one underscore may stand between two
    digits. *)
Fixpoint int_digits (acc : Z) (after_digit : bool) (s : string) : option Z :=
  match s with
  | EmptyString => if after_digit then Some acc else None
  | String c s' =>
      match digit_of c with
      | Some d => int_digits (10 * acc + d) true s'
      | None =>
          if Ascii.eqb c "_" && after_digit then int_digits acc false s'
          else None
      end
  end.

(** [int(s)]: [None] stands for [ValueError]. *)
Definition int (s : string) : option Z :=
  match strip s with
  | String "+" r => int_digits 0 false r
  | String "-" r => Z.opp <$> int_digits 0 false r
  | t => int_digits 0 false t
  end.

(** [any(f(x) for x in l)] and [l[i]] *)
Definition any {A} (f : A → bool) (l : list A) : bool := existsb f l.

(** [repr(s)] for a [str] of code points below 256.  The string is put in
    single quotes, unless it holds a single quote and no double quote; the
    delimiter and the backslash get a backslash, tab, line feed and carriage
    return are written [\t], [\n], [\r], and a code point that is not
    printable (below 32, 127 to 160, 173) is written [\xNN]. *)
Definition dquote : ascii := ascii_of_nat 34.
Definition squote : ascii := ascii_of_nat 39.
Definition backslash : ascii := ascii_of_nat 92.

Definition hex_digit (n : nat) : ascii :=
  nth n (list_ascii_of_string "0123456789abcdef") "0"%char.

Definition printable (n : nat) : bool :=
  negb ((n <? 32)%nat || ((127 <=? n)%nat && (n <=? 160)%nat) || (n =? 173)%nat).

Definition repr_char (quote c : ascii) : string :=
  let n := code c in
  if Ascii.eqb c quote || Ascii.eqb c backslash then String backslash (String c "")
  else if (n =? 9)%nat then String backslash "t"
  else if (n =? 10)%nat then String backslash "n"
  else if (n =? 13)%nat then String backslash "r"
  else if printable n then String c ""
  else String backslash
         (String "x" (String (hex_digit (n / 16)%nat) (String (hex_digit (n mod 16)%nat) ""))).

Fixpoint repr_chars (quote : ascii) (s : string) : string :=
  match s with
  | String c s' => repr_char quote c ++ repr_chars quote s'
  | EmptyString => ""
  end.

Definition has (a : ascii) (s : string) : bool :=
  existsb (Ascii.eqb a) (list_ascii_of_string s).

Definition repr (s : string) : string :=
  let quote := if has squote s && negb (has dquote s) then dquote else squote in
  String quote (repr_chars quote s) ++ String quote "".

(** [repr(l)], and so [str(l)], for a list of [str]. *)
Definition repr_list (l : list string) : string :=
  "[" ++ join ", " (map repr l) ++ "]".

End Py.

(** ** Paths and the file tree

    A path is the string [str(path)] of a [pathlib.Path].  Paths are taken
    as they are written: no symbolic links and no [..]. *)

Inductive node := File | Dir.

#[global] Instance node_eq_dec : EqDecision node.
Proof. solve_decision. Defined.

Abbreviation tree := (gmap string node).

Fixpoint has_char (a : ascii) (s : string) : bool :=
  match s with
  | String c s' => Ascii.eqb c a || has_char a s'
  | EmptyString => false
  end.

Definition no_slash (s : string) : bool := negb (has_char "/" s).

Fixpoint strip_prefix (p s : string) : option string :=
  match p with
  | EmptyString => Some s
  | String a p' =>
      match s with
      | String b s' => if Ascii.eqb a b then strip_prefix p' s' else None
      | EmptyString => None
      end
  end.

(** [d / name] for a directory [d] that does not end in a slash and a
    name that pathlib appends as it is, after one separator: a
    [plain_name].  (For an absolute name pathlib drops [d]; an empty name
    and the name [.] are dropped themselves; a slash inside the name starts
    a new component, and repeated and trailing slashes go.  The script's own
    names, a timestamp, the suffixes [.xml], [.snapshot] and [.qcow2] and
    the two roots, are of the first kind; the name of a guest is when it
    is plain.) *)
Definition joinpath (d name : string) : string := d ++ "/" ++ name.
Infix "</>" := joinpath (at level 40, left associativity).

(** A name of one component that denotes an entry of its directory: it is
    not empty, it is neither [.] nor [..], and it holds neither a slash nor
    a NUL. *)
Definition plain_name (s : string) : bool :=
  negb (Py.is_empty s) && no_slash s && negb (has_char (ascii_of_nat 0) s)
  && negb (String.eqb s ".") && negb (String.eqb s "..").

(** The name of [p] as an entry of the directory [d]: [p] is one name below
    [d]. *)
Definition child_name (d p : string) : option string :=
  match strip_prefix (d ++ "/") p with
  | Some n => if has_char "/" n then None else Some n
  | None => None
  end.

Definition is_child (d p : string) : bool :=
  match child_name d p with Some _ => true | None => false end.

(** [p] lies somewhere below [d]. *)
Definition is_under (d p : string) : bool :=
  match strip_prefix (d ++ "/") p with Some _ => true | None => false end.

(** [path.parent] and [path.name] *)
Fixpoint dirname (s : string) : string :=
  match s with
  | String c s' => if has_char "/" s' then String c (dirname s') else ""
  | EmptyString => ""
  end.

Fixpoint basename (s : string) : string :=
  match s with
  | String c s' =>
      if has_char "/" s' then basename s'
      else if Ascii.eqb c "/" then s' else s
  | EmptyString => ""
  end.

(** The directories above [s], outermost first. *)
Fixpoint ancestors_from (pre s : string) : list string :=
  match s with
  | String c s' =>
      (if Ascii.eqb c "/" && negb (Py.is_empty pre) then [pre] else [])
      ++ ancestors_from (Py.snoc pre c) s'
  | EmptyString => []
  end.

Definition ancestors (p : string) : list string := ancestors_from "" p.

(** The parent directory of [p] is there (the root always is). *)
Definition parent_is_dir (t : tree) (p : string) : bool :=
  Py.is_empty (dirname p) || bool_decide (t !! dirname p = Some Dir).

(** The entries of directory [d], as [d.glob('*')] lists them; the order is
    the one of the directory scan, which Python leaves unspecified. *)
Definition entries (t : tree) (d : string) : list string :=
  filter (λ p, is_child d p = true) (map_to_list t).*1.

(** Some path below [d] exists. *)
Definition occupied (t : tree) (d : string) : bool :=
  bool_decide (filter (λ p, is_under d p = true) (map_to_list t).*1 ≠ []).

(** Everything at or below [src], moved to the same place at or below [dst]. *)
Definition moved_subtree (t : tree) (src dst : string) : tree :=
  map_fold (λ p n acc,
      match strip_prefix src p with
      | Some r =>
          if Py.is_empty r || bool_decide (is_under src p = true)
          then <[dst ++ r := n]> (delete p acc) else acc
      | None => acc
      end) t t.

(** ** What a run directory can look like

    A directory is flat when it is there and holds regular files only, each
    one name below it; it is gone when neither it nor anything below it is
    there.  Both are read off the finite list of paths of the tree. *)

Definition flat (t : tree) (d : string) : bool :=
  bool_decide (t !! d = Some Dir)
  && forallb (λ '(p, n), negb (is_under d p)
                         || (bool_decide (n = File) && is_child d p))
             (map_to_list t).

Definition gone (t : tree) (d : string) : bool :=
  bool_decide (t !! d = None) && negb (occupied t d).

Definition tidy (t : tree) (d : string) : bool := flat t d || gone t d.

(** ** Mount points

    [rename(2)] moves a file inside one mounted file system only.  The
    machine's mount points are a list of directories; a directory is on the
    longest mount point that is the directory or lies above it, and on the
    root file system, written [""], when there is none. *)

Definition on_mount (m p : string) : bool := String.eqb m p || is_under m p.

Definition device_of (ms : list string) (p : string) : string :=
  fold_left (fun best m =>
      if on_mount m p && (String.length best <? String.length m)%nat then m else best)
    ms "".

(** The directories that hold [src] and [dst] are on one file system. *)
Definition same_mount (ms : list string) (src dst : string) : bool :=
  String.eqb (device_of ms (dirname src)) (device_of ms (dirname dst)).

(** ** Exceptions, processes, the host *)

Inductive exn :=
| CalledProcessError (returncode : Z) (cmd : list string) (stderr : string)
| TimeoutExpired (cmd : list string)
| OSError (msg : string)
| RuntimeError (msg : string)
| TypeError (msg : string)
| ValueError (msg : string)
| OverflowError (msg : string)
| IndexError (msg : string).

Definition is_CalledProcessError (e : exn) : bool :=
  match e with CalledProcessError _ _ _ => true | _ => false end.

(** The names of [signal.Signals] by number, as CPython 3.9 has them on
    Linux; a number that is not listed has no name. *)
Definition signal_name (n : Z) : option string :=
  match n with
  | 1 => Some "SIGHUP" | 2 => Some "SIGINT" | 3 => Some "SIGQUIT"
  | 4 => Some "SIGILL" | 5 => Some "SIGTRAP" | 6 => Some "SIGABRT"
  | 7 => Some "SIGBUS" | 8 => Some "SIGFPE" | 9 => Some "SIGKILL"
  | 10 => Some "SIGUSR1" | 11 => Some "SIGSEGV" | 12 => Some "SIGUSR2"
  | 13 => Some "SIGPIPE" | 14 => Some "SIGALRM" | 15 => Some "SIGTERM"
  | 17 => Some "SIGCHLD" | 18 => Some "SIGCONT" | 19 => Some "SIGSTOP"
  | 20 => Some "SIGTSTP" | 21 => Some "SIGTTIN" | 22 => Some "SIGTTOU"
  | 23 => Some "SIGURG" | 24 => Some "SIGXCPU" | 25 => Some "SIGXFSZ"
  | 26 => Some "SIGVTALRM" | 27 => Some "SIGPROF" | 28 => Some "SIGWINCH"
  | 29 => Some "SIGIO" | 30 => Some "SIGPWR" | 31 => Some "SIGSYS"
  | 34 => Some "SIGRTMIN" | 64 => Some "SIGRTMAX"
  | _ => None
  end.

(** [str(e)].  For [CalledProcessError] and [TimeoutExpired] this is the
    text of [subprocess]: the command is the list [cmd], printed with
    [repr], a negative return code is the signal that ended the process,
    and the timeout is the 300 seconds of [run_command].  The text of an
    [OSError] is the one the model gave it, which describes the failure
    and is not Python's wording. *)
Definition str_exn (e : exn) : string :=
  match e with
  | CalledProcessError rc cmd _ =>
      if rc <? 0 then
        match signal_name (- rc) with
        | Some name =>
            "Command '" ++ Py.repr_list cmd ++ "' died with <Signals." ++ name
            ++ ": " ++ pretty (- rc) ++ ">."
        | None =>
            "Command '" ++ Py.repr_list cmd ++ "' died with unknown signal "
            ++ pretty (- rc) ++ "."
        end
      else
        "Command '" ++ Py.repr_list cmd ++ "' returned non-zero exit status "
        ++ pretty rc ++ "."
  | TimeoutExpired cmd =>
      "Command '" ++ Py.repr_list cmd ++ "' timed out after 300 seconds"
  | OSError m | RuntimeError m | TypeError m | ValueError m | OverflowError m
  | IndexError m => m
  end.

(** [subprocess.CompletedProcess] *)
Record CompletedProcess := { returncode : Z; stdout : string; stderr : string }.

(** How a child process ends: it exits, it is killed at the five-minute
    timeout, or it cannot be started. *)
Inductive outcome :=
| Exited (rc : Z) (out err : string)
| TimedOut
| SpawnFailed (msg : string).

(** The file a command line names as its output: the target of the sparse
    copy, and the overlay of [virsh snapshot-create-as --diskspec
    <disk>,file=<overlay>]. *)
Fixpoint after_file_eq (s : string) : option string :=
  match strip_prefix ",file=" s with
  | Some p => Some p
  | None => match s with
            | String _ s' => after_file_eq s'
            | EmptyString => None
            end
  end.

Fixpoint diskspec_file (args : list string) : option string :=
  match args with
  | a :: rest =>
      match rest with
      | v :: rest' =>
          if String.eqb a "--domain" then diskspec_file rest'
          else if String.eqb a "--diskspec" then after_file_eq v
          else diskspec_file rest
      | [] => None
      end
  | [] => None
  end.

Definition tool_output (cmd : list string) : option string :=
  match cmd with
  | ["cp"; "--sparse=always"; _; d] => Some d
  | "virsh" :: "snapshot-create-as" :: rest => diskspec_file rest
  | _ => None
  end.

(** A tool that writes its output file creates a regular file there, when
    the directory is there and the place is not taken by a directory. *)
Definition tool_write (t : tree) (cmd : list string) : tree :=
  match tool_output cmd with
  | Some p =>
      if parent_is_dir t p && negb (bool_decide (t !! p = Some Dir))
      then <[p := File]> t else t
  | None => t
  end.

(** ** Python [float]: IEEE 754 binary64, on the specification of the
    standard library *)

Module PyFloat.

Definition prec : Z := 53.
Definition emax : Z := 1024.

(** [float(n)], as the product of an [int] and a [float] converts its left
    operand; [None] is [OverflowError]. *)
Definition of_int (n : Z) : option spec_float :=
  match binary_normalize prec emax n 0 false with
  | S754_infinity _ => None
  | f => Some f
  end.

Definition mul (x y : spec_float) : spec_float := SFmul prec emax x y.

(** The literal [2.5], that is 5 * 2^50 * 2^-51. *)
Definition lit_2_5 : spec_float := S754_finite false 5629499534213120 (-51).

(** [int(x)]: the fraction is cut off; [None] is the error Python raises at
    an infinity or a NaN. *)
Definition to_int (x : spec_float) : option Z :=
  match x with
  | S754_zero _ => Some 0
  | S754_finite s m e =>
      let a := if 0 <=? e then Zpos m * 2 ^ e else Zpos m / 2 ^ (- e) in
      Some (if s then - a else a)
  | S754_infinity _ | S754_nan => None
  end.

(** [int(n * x)] for an [int] [n] and a [float] [x]. *)
Definition int_of_product (n : Z) (x : spec_float) : option Z :=
  f ← of_int n; to_int (mul f x).

End PyFloat.

(** ** The script *)

Section Script.

(** The host: what is outside the script.  [exec cmd t h] runs one command
    line to its end: how the process ended, whether it wrote the file it
    names as its output, and the next host state.  [writable] answers
    [os.access(path, os.W_OK)] and [now] is the clock, read as
    [datetime.now().strftime("%Y%m%d-%H%M%S")]. *)
Context {H : Type}.
Variable exec : list string → tree → H → outcome * bool * H.
Variable writable : string → H → bool.
Variable now : H → string.

(** The state: the file tree, the host, the fields [backup_status] and
    [running_vms] of the instance, the commands run so far, and the mount
    points of the machine. *)
Record State := mkState {
  fs : tree;
  host : H;
  trace : list (list string);
  backup_status : Z;
  running_vms : list string;
  mounts : list string
}.

Definition with_fs (t : tree) (st : State) : State :=
  mkState t (host st) (trace st) (backup_status st) (running_vms st) (mounts st).

Inductive res (A : Type) := Ok (a : A) | Raise (e : exn).
#[global] Arguments Ok {A} a.
#[global] Arguments Raise {A} e.

Definition M (A : Type) : Type := State → res A * State.

Definition ret {A} (a : A) : M A := fun st => (Ok a, st).
Definition raise {A} (e : exn) : M A := fun st => (Raise e, st).
Definition bind {A B} (m : M A) (k : A → M B) : M B :=
  fun st => match m st with
            | (Ok a, st') => k a st'
            | (Raise e, st') => (Raise e, st')
            end.
(** [try: m  except Exception as e: handler e] *)
Definition try_except {A} (m : M A) (handler : exn → M A) : M A :=
  fun st => match m st with
            | (Ok a, st') => (Ok a, st')
            | (Raise e, st') => handler e st'
            end.
(** [try: m  except subprocess.CalledProcessError: handler] *)
Definition try_except_cpe {A} (m : M A) (handler : M A) : M A :=
  try_except m (fun e => if is_CalledProcessError e then handler else raise e).

Notation "x <- m ;; k" := (bind m (fun x => k))
  (at level 100, m at next level, right associativity).
Notation "m ;; k" := (bind m (fun _ => k))
  (at level 100, right associativity).

(** *** pathlib and os.path *)

(** [path.exists()], [os.path.exists(path)] *)
Definition exists_ (p : string) : M bool :=
  fun st => (Ok (bool_decide (is_Some (fs st !! p))), st).

(** [Path(s).exists()]: the empty string is the current directory. *)
Definition Path_exists (s : string) : M bool :=
  if Py.is_empty s then ret true else exists_ s.

Fixpoint mkdir_each (ps : list string) : M unit :=
  match ps with
  | [] => ret tt
  | p :: rest =>
      fun st =>
        match fs st !! p with
        | Some Dir => mkdir_each rest st
        | Some File => (Raise (OSError ("Not a directory: " ++ p)), st)
        | None => mkdir_each rest (with_fs (<[p := Dir]> (fs st)) st)
        end
  end.

(** [path.mkdir(parents=True, exist_ok=True)] *)
Definition mkdir_parents (p : string) : M unit := mkdir_each (ancestors p ++ [p]).

(** [open(p, 'w')]: the file is created or emptied. *)
Definition open_w (p : string) : M unit :=
  fun st =>
    if parent_is_dir (fs st) p && negb (bool_decide (fs st !! p = Some Dir))
    then (Ok tt, with_fs (<[p := File]> (fs st)) st)
    else (Raise (OSError ("cannot open " ++ p)), st).

(** [p.unlink(missing_ok=...)] *)
Definition unlink (p : string) (missing_ok : bool) : M unit :=
  fun st =>
    match fs st !! p with
    | Some File => (Ok tt, with_fs (delete p (fs st)) st)
    | Some Dir => (Raise (OSError ("Is a directory: " ++ p)), st)
    | None => if missing_ok then (Ok tt, st)
              else (Raise (OSError ("No such file or directory: " ++ p)), st)
    end.

(** [p.rmdir()] *)
Definition rmdir (p : string) : M unit :=
  fun st =>
    match fs st !! p with
    | Some Dir =>
        if occupied (fs st) p
        then (Raise (OSError ("Directory not empty: " ++ p)), st)
        else (Ok tt, with_fs (delete p (fs st)) st)
    | Some File => (Raise (OSError ("Not a directory: " ++ p)), st)
    | None => (Raise (OSError ("No such file or directory: " ++ p)), st)
    end.

(** [d.glob('*')]: the scan is done when the loop starts. *)
Definition glob_star (d : string) : M (list string) :=
  fun st => (Ok (match fs st !! d with
                 | Some Dir => entries (fs st) d
                 | _ => []
                 end), st).

(** [src.replace(dst)], that is [rename(2)].  The kernel resolves the two
    parent directories first ([ENOENT]), then compares their mounts and
    fails with [EXDEV] when they differ, and only then looks at the two
    names.  Python raises [OSError] (or a subclass of it) in each case. *)
Definition replace (src dst : string) : M unit :=
  fun st =>
    let t := fs st in
    if negb (parent_is_dir t src && parent_is_dir t dst)
    then (Raise (OSError ("No such file or directory: " ++ src ++ " -> " ++ dst)), st)
    else if negb (same_mount (mounts st) src dst)
    then (Raise (OSError ("Invalid cross-device link: " ++ src ++ " -> " ++ dst)), st)
    else
    match t !! src with
    | None => (Raise (OSError ("No such file or directory: " ++ src)), st)
    | Some File =>
        if parent_is_dir t dst && negb (bool_decide (t !! dst = Some Dir))
        then (Ok tt, with_fs (<[dst := File]> (delete src t)) st)
        else (Raise (OSError ("cannot rename to " ++ dst)), st)
    | Some Dir =>
        if parent_is_dir t dst && negb (bool_decide (t !! dst = Some File))
           && negb (occupied t dst) && negb (is_under src dst)
        then (Ok tt, with_fs (moved_subtree t src dst) st)
        else (Raise (OSError ("cannot rename to " ++ dst)), st)
    end.

(** *** subprocess *)

(** [subprocess.run(cmd, check=check, stdout=PIPE, stderr=PIPE, text=True,
    timeout=300)] *)
Definition subprocess_run (cmd : list string) (check : bool) : M CompletedProcess :=
  fun st =>
    let '(o, wrote, h') := exec cmd (fs st) (host st) in
    let st' := mkState (if wrote : bool then tool_write (fs st) cmd else fs st)
                       h' (trace st ++ [cmd]) (backup_status st) (running_vms st)
                       (mounts st) in
    match o with
    | Exited rc out err =>
        if check && negb (rc =? 0)
        then (Raise (CalledProcessError rc cmd err), st')
        else (Ok {| returncode := rc; stdout := out; stderr := err |}, st')
    | TimedOut => (Raise (TimeoutExpired cmd), st')
    | SpawnFailed msg => (Raise (OSError msg), st')
    end.

(** *** class VMBackup *)

Definition BACKUP_ROOT : string := "/mnt/Backup".
Definition TEMP_STORAGE : string := "/storage".
Definition IMAGE_DIR : string := "/var/lib/libvirt/images".
Definition QGA_REQUIRED : bool := true.
Definition EXCLUDE_VMS : list string := ["SPBAPP-EPT-CLONE"; "TEMPLATE-*"].

(** [run_command(self, cmd, check=True)]: each handler logs and raises the
    same exception again. *)
Definition run_command (cmd : list string) (check : bool) : M CompletedProcess :=
  try_except (subprocess_run cmd check) (fun e => raise e).

(** The parameters [run_command] can be given by keyword. *)
Definition run_command_params : list string := ["cmd"; "check"].

(** A call [self.run_command(cmd, k=...)] that passes, besides [cmd], the
    keyword arguments named [keywords] and leaves [check] at its default:
    a keyword that is no parameter is a [TypeError], raised before the body
    runs. *)
Definition run_command_with (cmd : list string) (keywords : list string)
  : M CompletedProcess :=
  match filter (λ k, k ∉ run_command_params) keywords with
  | k :: _ =>
      raise (TypeError ("run_command() got an unexpected keyword argument '"
                        ++ k ++ "'"))
  | [] => run_command cmd true
  end.

(** A Python loop [for x in l: body x]. *)
Fixpoint for_each {A} (l : list A) (body : A → M unit) : M unit :=
  match l with
  | [] => ret tt
  | x :: rest => body x ;; for_each rest body
  end.

Definition validate_environment : M unit :=
  let required_dirs :=
    [(IMAGE_DIR, "VM image directory"); (BACKUP_ROOT, "Backup destination");
     (TEMP_STORAGE, "Temporary storage")] in
  for_each required_dirs (fun '(path, desc) =>
    e <- exists_ path ;;
    if negb e then raise (RuntimeError (desc ++ " not found: " ++ path))
    else fun st =>
      if negb (writable path (host st))
      then (Raise (RuntimeError ("No write permissions for " ++ desc ++ ": " ++ path)), st)
      else (Ok tt, st)) ;;
  let required_binaries := ["virsh"; "qemu-img"; "du"; "df"; "cp"] in
  for_each required_binaries (fun binary =>
    try_except_cpe (run_command ["which"; binary] true ;; ret tt)
      (raise (RuntimeError ("Required binary not found: " ++ binary)))) ;;
  if QGA_REQUIRED then
    try_except_cpe (run_command ["which"; "qemu-ga"] true ;; ret tt) (ret tt)
  else ret tt.

(** The exclusion filter of [get_running_vms]. *)
Definition excluded (vm : string) : bool :=
  Py.any (fun excl => Py.contains excl vm) EXCLUDE_VMS.

Definition get_running_vms : M (list string) :=
  result <- run_command ["virsh"; "list"; "--name"; "--state-running"] true ;;
  let vms := map Py.strip
               (List.filter (fun vm => negb (Py.is_empty (Py.strip vm)))
                            (Py.splitlines (stdout result))) in
  let filtered_vms := List.filter (fun vm => negb (excluded vm)) vms in
  ret filtered_vms.

(** One entry of the dictionary [get_vm_disks] builds. *)
Record disk := { type : string; device : string; source : string; target : string }.

(** A Python [dict] with string keys, in insertion order. *)
Fixpoint dict_set {V} (k : string) (v : V) (d : list (string * V)) : list (string * V) :=
  match d with
  | [] => [(k, v)]
  | (k', v') :: rest =>
      if String.eqb k k' then (k, v) :: rest else (k', v') :: dict_set k v rest
  end.

Definition parse_disks (out : string) : list (string * disk) :=
  fold_left (fun disks line =>
      if Py.is_empty (Py.strip line) then disks
      else match Py.split line with
           | p0 :: p1 :: p2 :: p3 :: _ =>
               dict_set p0 {| type := p1; device := p2; source := p3; target := p0 |} disks
           | _ => disks
           end)
    (drop 2 (Py.splitlines out)) [].

Definition get_vm_disks (vm : string) : M (list (string * disk)) :=
  result <- run_command ["virsh"; "domblklist"; vm; "--details"] true ;;
  ret (parse_disks (stdout result)).

(** [int(s)] as a step of the script. *)
Definition int_of_str (s : string) : M Z :=
  match Py.int s with
  | Some n => ret n
  | None => raise (ValueError ("invalid literal for int() with base 10: " ++ s))
  end.

(** [l[i]] *)
Definition item {A} (l : list A) (i : nat) : M A :=
  match l !! i with
  | Some x => ret x
  | None => raise (IndexError "list index out of range")
  end.

Fixpoint calculate_required_space_from (total_space : Z) (disks : list (string * disk)) : M Z :=
  match disks with
  | [] => ret total_space
  | (disk_id, d) :: rest =>
      if negb (String.eqb (type d) "file") || Py.is_empty (source d)
      then calculate_required_space_from total_space rest
      else
        e <- exists_ (source d) ;;
        if negb e then calculate_required_space_from total_space rest
        else
          total_space' <-
            try_except
              (du_result <- run_command ["du"; "-sm"; source d] true ;;
               w <- item (Py.split (stdout du_result)) 0 ;;
               n <- int_of_str w ;;
               ret (total_space + n))
              (fun e => raise e) ;;
          calculate_required_space_from total_space' rest
  end.

Definition calculate_required_space (disks : list (string * disk)) : M Z :=
  calculate_required_space_from 0 disks.

(** [int(n * x)] as a step of the script. *)
Definition int_times_float (n : Z) (x : spec_float) : M Z :=
  match PyFloat.of_int n with
  | None => raise (OverflowError "int too large to convert to float")
  | Some f =>
      match PyFloat.to_int (PyFloat.mul f x) with
      | None => raise (OverflowError "cannot convert float infinity to integer")
      | Some r => ret r
      end
  end.

(** Lines 160 and 161: the free space of the destination, as [df] prints
    it in the fourth column of its second line. *)
Definition read_available_space : M Z :=
  df_result <- run_command ["df"; "-m"; BACKUP_ROOT] true ;;
  line <- item (Py.splitlines (stdout df_result)) 1 ;;
  w <- item (Py.split line) 3 ;;
  int_of_str w.

Definition check_disk_space (vm : string) (disks : list (string * disk)) : M unit :=
  required_space <- calculate_required_space disks ;;
  if required_space =? 0
  then raise (RuntimeError "No valid disks found for space calculation")
  else
    available_space <- read_available_space ;;
    let buffer_multiplier := PyFloat.lit_2_5 in
    required_with_buffer <- int_times_float required_space buffer_multiplier ;;
    if available_space <? required_with_buffer
    then raise (RuntimeError
           ("Insufficient space for " ++ vm ++ " backup. " ++
            "Required: " ++ pretty required_with_buffer ++ "M, Available: "
            ++ pretty available_space ++ "M"))
    else ret tt.

Definition create_directory (path : string) : M unit :=
  try_except
    (mkdir_parents path ;;
     run_command ["chown"; "super:super"; path] true ;;
     ret tt)
    (fun e => raise (RuntimeError
                ("Failed to create directory " ++ path ++ ": " ++ str_exn e))).

Definition check_vm_state (vm : string) : M unit :=
  result <- run_command ["virsh"; "domstate"; vm] true ;;
  if negb (String.eqb (Py.strip (stdout result)) "running")
  then raise (RuntimeError ("VM " ++ vm ++ " is not running"))
  else ret tt.

Definition guest_ping : string :=
  "{" ++ String (ascii_of_nat 34) "execute" ++ String (ascii_of_nat 34) ":"
  ++ String (ascii_of_nat 34) "guest-ping" ++ String (ascii_of_nat 34) "}".

Definition check_qga (vm : string) : M unit :=
  if negb QGA_REQUIRED then ret tt
  else
    try_except
      (run_command ["virsh"; "qemu-agent-command"; vm; guest_ping] true ;; ret tt)
      (fun _ => raise (RuntimeError "QEMU Guest Agent not responding")).

Definition snapshot_cmd (vm disk_id snap_path : string) : list string :=
  let cmd := ["virsh"; "snapshot-create-as"; "--domain"; vm;
              vm ++ "-" ++ disk_id ++ "-snapshot";
              "--disk-only"; "--atomic"; "--no-metadata";
              "--diskspec"; disk_id ++ ",file=" ++ snap_path] in
  if QGA_REQUIRED then cmd ++ ["--quiesce"] else cmd.

Definition create_snapshot (vm disk_id snap_path : string) : M unit :=
  try_except
    (run_command (snapshot_cmd vm disk_id snap_path) true ;; ret tt)
    (fun e => raise (RuntimeError
                ("Failed to create snapshot for disk " ++ disk_id ++ ": " ++ str_exn e))).

Definition backup_disk (source dest : string) : M bool :=
  try_except
    (run_command ["cp"; "--sparse=always"; source; dest] true ;; ret true)
    (fun _ => ret false).

Definition commit_snapshot (vm disk_id : string) : M bool :=
  try_except
    (run_command ["virsh"; "blockcommit"; vm; disk_id; "--active"; "--verbose"; "--pivot"] true ;;
     ret true)
    (fun _ =>
       (* Recovery sequence *)
       try_except
         (run_command ["virsh"; "blockjob"; vm; disk_id; "--abort"] false ;;
          run_command ["virsh"; "destroy"; vm] false ;;
          run_command ["virsh"; "start"; vm] false ;;
          ret tt)
         (fun _ => ret tt) ;;
       ret false).

(** The three steps of one disk (the inner [try] of [backup_vm]). *)
Definition disk_steps (vm disk_id : string) (d : disk) (snap_file backup_file : string)
  : M unit :=
  (* Step 1: Create snapshot *)
  create_snapshot vm disk_id snap_file ;;
  (* Step 2: Backup original disk *)
  copied <- backup_disk (source d) backup_file ;;
  if negb copied then raise (RuntimeError ("Backup failed for disk " ++ disk_id))
  else
    (* Step 3: Commit changes *)
    committed <- commit_snapshot vm disk_id ;;
    if negb committed then raise (RuntimeError ("Commit failed for disk " ++ disk_id))
    else ret tt.

Definition snap_file_of (vm temp_dir disk_id : string) : string :=
  let disk_suffix := Py.replace_char "/" "-" disk_id in
  temp_dir </> (vm ++ "-" ++ disk_suffix ++ ".snapshot").

Definition backup_file_of (vm backup_dir disk_id : string) : string :=
  let disk_suffix := Py.replace_char "/" "-" disk_id in
  backup_dir </> (vm ++ "-" ++ disk_suffix ++ ".qcow2").

(** One turn of the loop over [disks.items()]; the result is the new value
    of [success_disks]. *)
Definition backup_one_disk (vm backup_dir temp_dir : string) (success_disks : Z)
    (disk_id : string) (d : disk) : M Z :=
  if negb (String.eqb (type d) "file") then ret success_disks
  else
    there <- Path_exists (source d) ;;
    if negb there then ret success_disks
    else
      let snap_file := snap_file_of vm temp_dir disk_id in
      let backup_file := backup_file_of vm backup_dir disk_id in
      try_except
        (disk_steps vm disk_id d snap_file backup_file ;;
         ret (success_disks + 1))
        (fun _ =>
           (* Cleanup failed disk files *)
           for_each [snap_file; backup_file] (fun f =>
             e <- exists_ f ;; if e then unlink f false else ret tt) ;;
           ret success_disks).

Fixpoint backup_disks_from (vm backup_dir temp_dir : string) (success_disks : Z)
    (disks : list (string * disk)) : M Z :=
  match disks with
  | [] => ret success_disks
  | (disk_id, d) :: rest =>
      n <- backup_one_disk vm backup_dir temp_dir success_disks disk_id d ;;
      backup_disks_from vm backup_dir temp_dir n rest
  end.

(** Lines 319 to 328: the verdict and the final cleanup. *)
Definition finish (backup_dir temp_dir : string) (success_disks : Z) : M bool :=
  if success_disks =? 0 then raise (RuntimeError "No disks were successfully backed up")
  else
    items <- glob_star temp_dir ;;
    for_each items (fun item => replace item (backup_dir </> basename item)) ;;
    rmdir temp_dir ;;
    ret true.

(** Lines 333 to 344: the emergency cleanup of the outer handler. *)
Definition emergency_cleanup (backup_dir temp_dir : string) : M bool :=
  t <- exists_ temp_dir ;;
  (if t then
     items <- glob_star temp_dir ;;
     for_each items (fun item => unlink item true) ;;
     rmdir temp_dir
   else ret tt) ;;
  b <- exists_ backup_dir ;;
  (if b then
     items <- glob_star backup_dir ;;
     for_each items (fun item => unlink item true) ;;
     rmdir backup_dir
   else ret tt) ;;
  ret false.

(** Lines 266 to 278: the disks, the capacity check, the two directories
    and the export of the configuration. *)
Definition prepare (vm backup_dir temp_dir : string) : M (list (string * disk)) :=
  (* Get VM details *)
  disks <- get_vm_disks vm ;;
  if bool_decide (disks = []) then raise (RuntimeError "No disks found for VM")
  else
    check_disk_space vm disks ;;
    (* Prepare directories *)
    create_directory backup_dir ;;
    create_directory temp_dir ;;
    (* Save VM configuration *)
    let config_file := backup_dir </> (vm ++ ".xml") in
    open_w config_file ;;
    run_command_with ["virsh"; "dumpxml"; vm] ["stdout"] ;;
    ret disks.

(** Lines 281 to 328: the loop over the disks and what follows it. *)
Definition process_disks (vm backup_dir temp_dir : string)
    (disks : list (string * disk)) : M bool :=
  success_disks <- backup_disks_from vm backup_dir temp_dir 0 disks ;;
  finish backup_dir temp_dir success_disks.

Definition backup_dir_of (vm timestamp : string) : string :=
  BACKUP_ROOT </> vm </> timestamp.
Definition temp_dir_of (vm timestamp : string) : string :=
  TEMP_STORAGE </> (vm ++ "-" ++ timestamp).

Definition backup_vm (vm : string) : M bool :=
  fun st =>
    let timestamp := now (host st) in
    let backup_dir := backup_dir_of vm timestamp in
    let temp_dir := temp_dir_of vm timestamp in
    try_except
      (disks <- prepare vm backup_dir temp_dir ;;
       process_disks vm backup_dir temp_dir disks)
      (fun _ => emergency_cleanup backup_dir temp_dir)
      st.

(** [backup_vm] from line 281 on: the part of the outer [try] that follows
    the export of the configuration, under the same handler. *)
Definition backup_vm_disks (vm backup_dir temp_dir : string)
    (disks : list (string * disk)) : M bool :=
  try_except (process_disks vm backup_dir temp_dir disks)
             (fun _ => emergency_cleanup backup_dir temp_dir).

Definition set_backup_status (v : Z) : M unit :=
  fun st => (Ok tt, mkState (fs st) (host st) (trace st) v (running_vms st) (mounts st)).
Definition set_running_vms (l : list string) : M unit :=
  fun st => (Ok tt, mkState (fs st) (host st) (trace st) (backup_status st) l (mounts st)).

(** The body of the loop of [main], with its handler.  The loop calls the
    method [self.backup_vm]; [process_vm_with backup] is the body with
    [backup] for that method, and [process_vm] the body as the class has
    it. *)
Definition process_vm_with (backup : string → M bool) (vm : string) : M unit :=
  try_except
    (check_vm_state vm ;;
     check_qga vm ;;
     ok <- backup vm ;;
     if negb ok then set_backup_status 1 else ret tt)
    (fun _ => set_backup_status 1).

Definition process_vm (vm : string) : M unit := process_vm_with backup_vm vm.

(** Lines 350 to 358: the environment check and the list of guests, the
    discovered ones when no list is given ([if not selected_vms]). *)
Definition vms_to_backup (selected_vms : option (list string)) : M (list string) :=
  validate_environment ;;
  match selected_vms with
  | None | Some [] =>
      vms <- get_running_vms ;;
      set_running_vms vms ;;
      ret vms
  | Some l => ret l
  end.

(** [main(selected_vms)]; the result is the status given to [sys.exit].
    [main_with backup] is [main] with [backup] for the method
    [self.backup_vm]. *)
Definition main_with (backup : string → M bool) (selected_vms : option (list string))
  : M Z :=
  try_except
    (vms <- vms_to_backup selected_vms ;;
     for_each vms (process_vm_with backup))
    (fun _ => set_backup_status 1) ;;
  fun st => (Ok (backup_status st), st).

Definition main (selected_vms : option (list string)) : M Z :=
  main_with backup_vm selected_vms.

End Script.

(** ** Notions of the specification *)

(** The error of a call that passes [stdout] to [run_command]. *)
Definition unexpected_stdout : exn :=
  TypeError "run_command() got an unexpected keyword argument 'stdout'".

(** Two directories neither of which is, or lies below, the other. *)
Definition apart (d d' : string) : Prop :=
  ∀ q, (q = d ∨ is_under d q = true) → (q = d' ∨ is_under d' q = true) → False.

(** The side of the backup root and the side of the scratch root. *)
Definition on_backup (q : string) : Prop := ∃ r, q = "/m" ++ r.
Definition on_scratch (q : string) : Prop := ∃ r, q = "/s" ++ r.

Definition blockcommit_cmd (vm disk_id : string) : list string :=
  ["virsh"; "blockcommit"; vm; disk_id; "--active"; "--verbose"; "--pivot"].

(** Abort the block job, stop the guest by force, start it. *)
Definition abort_cmd (vm disk_id : string) : list string :=
  ["virsh"; "blockjob"; vm; disk_id; "--abort"].
Definition destroy_cmd (vm : string) : list string := ["virsh"; "destroy"; vm].
Definition start_cmd (vm : string) : list string := ["virsh"; "start"; vm].

Definition recovery_cmds (vm disk_id : string) : list (list string) :=
  [abort_cmd vm disk_id; destroy_cmd vm; start_cmd vm].

(** The two errors of the capacity check. *)
Definition no_valid_disks : exn :=
  RuntimeError "No valid disks found for space calculation".

Definition insufficient_space (vm : string) (required available : Z) : exn :=
  RuntimeError ("Insufficient space for " ++ vm ++ " backup. " ++
                "Required: " ++ pretty required ++ "M, Available: "
                ++ pretty available ++ "M").

(** The commands [backup_vm] runs before it turns to the disks: the list of
    the disks, the capacity queries, and the owner of a run directory. *)
Definition chown_cmd (path : string) : list string := ["chown"; "super:super"; path].

(** The commands of the capacity check: the size of one image, and the
    free space of the backup root. *)
Definition du_query (cmd : list string) : Prop := ∃ src, cmd = ["du"; "-sm"; src].

Definition capacity_query (cmd : list string) : Prop :=
  (∃ src, cmd = ["du"; "-sm"; src]) ∨ cmd = ["df"; "-m"; BACKUP_ROOT].


Section Specification.

Context {H : Type}.
Variable exec : list string → tree → H → outcome * bool * H.
Variable now : H → string.

Notation "x <- m ;; k" := (bind m (fun x => k))
  (at level 100, m at next level, right associativity).
Notation "m ;; k" := (bind m (fun _ => k))
  (at level 100, right associativity).

(** The cleanup of one directory, as the handler of [backup_vm] does it
    for each of the two. *)
Definition remove_dir (d : string) : @M H unit :=
  there <- exists_ d ;;
  if there then
    items <- glob_star d ;;
    for_each items (fun item => unlink item true) ;;
    rmdir d
  else ret tt.

(** [m] leaves the file tree, or the exit status, as it is. *)
Definition keeps_fs {A} (m : @M H A) : Prop := ∀ st, fs (m st).2 = fs st.

Definition keeps_status {A} (m : @M H A) : Prop :=
  ∀ st, backup_status (m st).2 = backup_status st.

(** [m] leaves the mount points as they are. *)
Definition keeps_mounts {A} (m : @M H A) : Prop :=
  ∀ st, mounts (m st).2 = mounts st.

(** Every command [m] runs satisfies [Q]. *)
Definition runs_only {A} (Q : list string → Prop) (m : @M H A) : Prop :=
  ∀ st, ∃ l, (trace (m st).2 = trace st ++ l)%list ∧ Forall Q l.

(** The process of [cmd], started in [st], ends with an exit status. *)
Definition exits (cmd : list string) (st : @State H) : Prop :=
  ∃ rc out err, (exec cmd (fs st) (host st)).1.1 = Exited rc out err.

(** Both run directories are there and flat: the state [prepare] aims
    at, and the invariant of the loop over the disks. *)
Definition ready (vm ts : string) (st : @State H) : Prop :=
  flat (fs st) (backup_dir_of vm ts) = true
  ∧ flat (fs st) (temp_dir_of vm ts) = true.

Definition below (vm ts : string) (q : string) : Prop :=
  is_under (backup_dir_of vm ts) q = true ∨ is_under (temp_dir_of vm ts) q = true.

(** [m] keeps the run directories ready, and what it adds below them
    satisfies [S]. *)
Definition adds (vm ts : string) {A} (S : string → Prop) (m : @M H A) : Prop :=
  ∀ st, ready vm ts st →
    ready vm ts (m st).2
    ∧ ∀ q, below vm ts q → is_Some (fs (m st).2 !! q) → is_Some (fs st !! q) ∨ S q.

(** The disk is file-backed, its source is there, and its three steps
    run to the end. *)
Definition disk_succeeds (vm ts : string) (disk_id : string) (d : disk)
    (st : @State H) : bool :=
  String.eqb (type d) "file"
  && (Py.is_empty (source d) || bool_decide (is_Some (fs st !! source d)))
  && match (disk_steps exec vm disk_id d
              (snap_file_of vm (temp_dir_of vm ts) disk_id)
              (backup_file_of vm (backup_dir_of vm ts) disk_id) st).1 with
     | Ok _ => true
     | Raise _ => false
     end.

(** The disks that succeed, when the loop starts in [st]. *)
Fixpoint succeeded_disks (vm ts : string) (disks : list (string * disk))
    (st : @State H) : list string :=
  match disks with
  | [] => []
  | (disk_id, d) :: rest =>
      ((if disk_succeeds vm ts disk_id d st then [disk_id] else [])
       ++ succeeded_disks vm ts rest
            (backup_one_disk exec vm (backup_dir_of vm ts) (temp_dir_of vm ts)
               0 disk_id d st).2)%list
  end.

(** The guest passes the two checks and the method [backup], which is
    [backup_vm] in the script, returns [True]. *)
Definition vm_succeeds (backup : string → @M H bool) (vm : string) (st : @State H)
  : bool :=
  match (check_vm_state exec vm ;; check_qga exec vm ;; backup vm) st with
  | (Ok true, _) => true
  | _ => false
  end.

(** The outcomes of the guests of the list, when the loop starts in [st]. *)
Fixpoint vm_outcomes (backup : string → @M H bool) (vms : list string)
    (st : @State H) : list bool :=
  match vms with
  | [] => []
  | vm :: rest =>
      vm_succeeds backup vm st
      :: vm_outcomes backup rest (process_vm_with exec backup vm st).2
  end.

(** The disk counts for the required space: it is file-backed and its
    source is there. *)
Definition counted (t : tree) (d : disk) : bool :=
  String.eqb (type d) "file" && negb (Py.is_empty (source d))
  && bool_decide (is_Some (t !! source d)).

(** The size of one image, as [du -sm] prints it. *)
Definition du_size (src : string) : @M H Z :=
  du_result <- run_command exec ["du"; "-sm"; src] true ;;
  w <- item (Py.split (stdout du_result)) 0 ;;
  int_of_str w.

(** The sizes of the given disks, added up. *)
Fixpoint du_sum (total : Z) (disks : list (string * disk)) : @M H Z :=
  match disks with
  | [] => ret total
  | (_, d) :: rest => n <- du_size (source d) ;; du_sum (total + n) rest
  end.

(** Two states with the same file tree and the same commands behind
    them, whose hosts are related by [same_capacity]; and a step that
    cannot tell such states apart. *)
Definition alike (same_capacity : H → H → Prop) (st1 st2 : @State H) : Prop :=
  fs st1 = fs st2 ∧ same_capacity (host st1) (host st2) ∧ trace st1 = trace st2.

Definition agrees (same_capacity : H → H → Prop) {A} (m : @M H A) : Prop :=
  ∀ st1 st2, alike same_capacity st1 st2 →
    (m st1).1 = (m st2).1 ∧ alike same_capacity (m st1).2 (m st2).2.

End Specification.

(** ** A scripted host, to run the script on

    The host state is a table of answers: what a command line of the table
    ends in, and whether it writes its output file.  A command line that is
    not in the table exits with status 0, prints nothing and writes its
    output file.  Every directory is writable and the clock stands still. *)

Module Sim.

Definition nl : string := String (ascii_of_nat 10) "".

Definition table := list (list string * (outcome * bool)).

Fixpoint answer (tb : table) (cmd : list string) : outcome * bool :=
  match tb with
  | [] => (Exited 0 "" "", true)
  | (c, a) :: rest => if bool_decide (c = cmd) then a else answer rest cmd
  end.

Definition exec (cmd : list string) (t : tree) (h : table) : outcome * bool * table :=
  (answer h cmd, h).
Definition writable (p : string) (h : table) : bool := true.
Definition now (h : table) : string := "20240101-000000".

(** The state a fresh [VMBackup()] starts in, on a machine with one file
    system. *)
Definition init (t : tree) (h : table) : State :=
  mkState t h [] 0 [] [].

(** The same state on a machine with the mount points [ms]. *)
Definition mounted (ms : list string) (st : @State table) : State :=
  mkState (fs st) (host st) (trace st) (backup_status st) (running_vms st) ms.

(** The backup root and the scratch storage are file systems of their own. *)
Definition two_disks : list string := ["/mnt/Backup"; "/storage"].

Definition says (out : string) : outcome * bool := (Exited 0 out "", false).
Definition fails : outcome * bool := (Exited 1 "" "error", false).

(** A host with the three directories of the configuration and two disk
    images. *)
Definition disk_tree : tree :=
  list_to_map [("/mnt", Dir); ("/mnt/Backup", Dir); ("/storage", Dir);
               ("/var", Dir); ("/var/lib", Dir); ("/var/lib/libvirt", Dir);
               ("/var/lib/libvirt/images", Dir);
               ("/var/lib/libvirt/images/a.qcow2", File);
               ("/var/lib/libvirt/images/b.qcow2", File)].

Definition df_answer (available : string) : list string * (outcome * bool) :=
  (["df"; "-m"; "/mnt/Backup"],
   says ("Filesystem 1M-blocks Used Available Use% Mounted on" ++ nl ++
         "/dev/sdb1 900000 1000 " ++ available ++ " 1% /mnt/Backup" ++ nl)).

Definition du_answer (size path : string) : list string * (outcome * bool) :=
  (["du"; "-sm"; path], says (size ++ " " ++ path ++ nl)).

(** The guest [web] with the disks [vda] and [vdb], listed in the column
    order [get_vm_disks] reads. *)
Definition web_host : table :=
  [ (["virsh"; "list"; "--name"; "--state-running"], says ("web" ++ nl));
    (["virsh"; "domstate"; "web"], says ("running" ++ nl));
    (["virsh"; "domblklist"; "web"; "--details"],
     says (" Target Type Device Source" ++ nl ++ "-----" ++ nl ++
           " vda file disk /var/lib/libvirt/images/a.qcow2" ++ nl ++
           " vdb file disk /var/lib/libvirt/images/b.qcow2" ++ nl ++ nl));
    du_answer "400" "/var/lib/libvirt/images/a.qcow2";
    du_answer "600" "/var/lib/libvirt/images/b.qcow2";
    df_answer "2500" ].

Definition vda : disk :=
  {| type := "file"; device := "disk"; source := "/var/lib/libvirt/images/a.qcow2"; target := "vda" |}.
Definition vdb : disk :=
  {| type := "file"; device := "disk"; source := "/var/lib/libvirt/images/b.qcow2"; target := "vdb" |}.

(** The run of [web] at the time the clock shows. *)
Definition ts : string := "20240101-000000".
Definition bd : string := backup_dir_of "web" ts.
Definition td : string := temp_dir_of "web" ts.
Definition disks : list (string * disk) := [("vda", vda); ("vdb", vdb)].

(** The state in which line 281 would be reached: the two directories
    made and the configuration file opened, as lines 273 to 278 do before
    the call of [run_command]. *)
Definition prepared (h : table) : State :=
  (bind (create_directory exec bd) (fun _ =>
   bind (create_directory exec td) (fun _ =>
   open_w (bd </> "web.xml"))) (init disk_tree h)).2.

(** Three running guests, one of them a template. *)
Definition template_host : table :=
  [ (["virsh"; "list"; "--name"; "--state-running"],
     says ("A" ++ nl ++ "B" ++ nl ++ "TEMPLATE-X" ++ nl)) ].

(** One image of 1 MB and 2 MB free on the backup root. *)
Definition small_host : table :=
  [ du_answer "1" "/var/lib/libvirt/images/a.qcow2"; df_answer "2" ].

(** The snapshot of [vdb] fails. *)
Definition partial_host : table :=
  (snapshot_cmd "web" "vdb" (snap_file_of "web" td "vdb"), fails) :: web_host.

(** The block commit of [vda] fails; in [stuck_host] the abort of the
    block job then hangs until the timeout. *)
Definition failing_commit_host : table := [ (blockcommit_cmd "web" "vda", fails) ].

Definition stuck_host : table :=
  [ (blockcommit_cmd "web" "vda", fails);
    (["virsh"; "blockjob"; "web"; "vda"; "--abort"], (TimedOut, false)) ].

(** A disk whose image is not there. *)
Definition vdc : disk :=
  {| type := "file"; device := "disk"; source := "/var/lib/libvirt/images/c.qcow2"; target := "vdc" |}.

(** Two hosts that differ in the free space of the scratch storage only. *)
Definition df_scratch (available : string) : list string * (outcome * bool) :=
  (["df"; "-m"; "/storage"],
   says ("Filesystem 1M-blocks Used Available Use% Mounted on" ++ nl ++
         "/dev/sdc1 900000 1000 " ++ available ++ " 1% /storage" ++ nl)).

Definition roomy_scratch : table := df_scratch "800000" :: web_host.
Definition full_scratch : table := df_scratch "0" :: web_host.

(** The two hosts answer every capacity query alike. *)
Definition same_answers (h1 h2 : table) : Prop :=
  ∀ cmd, capacity_query cmd → answer h1 cmd = answer h2 cmd.

End Sim.

(** ** Two claims in the words of the specification

    These follow the sentences of the specification, not the code; they are
    what the counterexamples below refute. *)

(** "The capacity check fails iff A < S * 2.5". *)
Definition fails_below_2_5 (required available : Z) (result : res unit) : Prop :=
  (∃ e, result = Raise e) ↔ (inject_Z available < (5 # 2) * inject_Z required)%Q.

(** "The recovery sequence executed is exactly: abort the block-commit job,
    then forcibly stop the VM, then start the VM". *)
Definition full_recovery {H : Type}
    (exec : list string → tree → H → outcome * bool * H)
    (vm disk_id : string) (st : @State H) : Prop :=
  trace (commit_snapshot exec vm disk_id st).2
  = (trace st ++ blockcommit_cmd vm disk_id :: recovery_cmds vm disk_id)%list.

(** ** Parts of the methods, and what is said of them

    The loops of [validate_environment] on their own, and the notions the
    further properties of the script are stated with. *)

Section Parts.

Context {H : Type}.
Variable exec : list string → tree → H → outcome * bool * H.
Variable writable : string → H → bool.

Notation "x <- m ;; k" := (bind m (fun x => k))
  (at level 100, m at next level, right associativity).
Notation "m ;; k" := (bind m (fun _ => k))
  (at level 100, right associativity).

(** Lines 70 to 80: [required_dirs] and the loop over it. *)
Definition check_required_dirs : @M H unit :=
  for_each [(IMAGE_DIR, "VM image directory"); (BACKUP_ROOT, "Backup destination");
            (TEMP_STORAGE, "Temporary storage")]
    (fun '(path, desc) =>
      e <- exists_ path ;;
      if negb e then raise (RuntimeError (desc ++ " not found: " ++ path))
      else fun st =>
        if negb (writable path (host st))
        then (Raise (RuntimeError ("No write permissions for " ++ desc ++ ": " ++ path)), st)
        else (Ok tt, st)).

(** Lines 83 to 88: the loop over [required_binaries]. *)
Definition check_required_binaries : @M H unit :=
  for_each ["virsh"; "qemu-img"; "du"; "df"; "cp"] (fun binary =>
    try_except_cpe (run_command exec ["which"; binary] true ;; ret tt)
      (raise (RuntimeError ("Required binary not found: " ++ binary)))).

(** [m] leaves the field [running_vms] as it is. *)
Definition keeps_running {A} (m : @M H A) : Prop :=
  ∀ st, running_vms (m st).2 = running_vms st.

(** Outside [inside], all that [m] changes in the file tree is that it
    makes directories of the list [D] that were not there. *)
Definition grows (D : list string) (inside : string → Prop) {A} (m : @M H A) : Prop :=
  ∀ st q, ¬ inside q →
    fs (m st).2 !! q = fs st !! q
    ∨ (fs st !! q = None ∧ fs (m st).2 !! q = Some Dir ∧ q ∈ D).

(** The path is there and the process may write to it. *)
Definition usable (st : @State H) (p : string) : Prop :=
  is_Some (fs st !! p) ∧ writable p (host st) = true.

End Parts.

(** A [which] command. *)
Definition which_query (cmd : list string) : Prop := ∃ binary, cmd = ["which"; binary].

(** The commands of a [validate_environment] that passes. *)
Definition which_cmds : list (list string) :=
  map (λ binary, ["which"; binary]) ["virsh"; "qemu-img"; "du"; "df"; "cp"; "qemu-ga"].

(** A word of [str.split]: not empty, and without white space. *)
Fixpoint no_space (s : string) : bool :=
  match s with
  | String c s' => negb (Py.isspace c) && no_space s'
  | EmptyString => true
  end.

Definition word (s : string) : bool := negb (Py.is_empty s) && no_space s.

(** What [get_vm_disks] stores under the key [disk_id]. *)
Definition parsed_entry (disk_id : string) (d : disk) : Prop :=
  target d = disk_id
  ∧ word disk_id = true ∧ word (type d) = true
  ∧ word (device d) = true ∧ word (source d) = true.

(** The field [check_disk_space] reads the free space from: the fourth
    word of the second line of what [df] printed. *)
Definition available_field (out : string) : option string :=
  match Py.splitlines out !! 1%nat with
  | Some line => Py.split line !! 3%nat
  | None => None
  end.

(** The two checks of a guest before its backup. *)
Definition domstate_cmd (vm : string) : list string := ["virsh"; "domstate"; vm].
Definition agent_cmd (vm : string) : list string :=
  ["virsh"; "qemu-agent-command"; vm; guest_ping].

(** ** More scripted hosts *)

Module Hosts.

(** The binary of the guest agent is not installed. *)
Definition no_agent_binary : Sim.table := [ (["which"; "qemu-ga"], Sim.fails) ].

(** There is no guest [ghost]; the guest [web] is as in [Sim.web_host]. *)
Definition ghost_host : Sim.table :=
  (["virsh"; "domstate"; "ghost"], Sim.fails) :: Sim.web_host.

(** The image of [vda] takes no space. *)
Definition empty_image : Sim.table :=
  [ Sim.du_answer "0" "/var/lib/libvirt/images/a.qcow2" ].

(** The guest [web] is shut off. *)
Definition shut_off : Sim.table :=
  [ (["virsh"; "domstate"; "web"], Sim.says ("shut off" ++ Sim.nl)) ].

(** [virsh domblklist] prints its header, an empty line and no disk. *)
Definition no_disks_output : string :=
  " Target Type Device Source" ++ Sim.nl ++ "-----" ++ Sim.nl ++ Sim.nl.

Definition no_disks : Sim.table :=
  [ (["virsh"; "domblklist"; "web"; "--details"], Sim.says no_disks_output) ].

(** [df] prints the device on a line of its own, and the numbers on the
    third line. *)
Definition wrapped_df_output : string :=
  "Filesystem 1M-blocks Used Available Use% Mounted on" ++ Sim.nl ++
  "/dev/mapper/vg_backup-lv_backup_volume" ++ Sim.nl ++
  " 900000 1000 2500 1% /mnt/Backup" ++ Sim.nl.

Definition wrapped_df : Sim.table :=
  (["df"; "-m"; "/mnt/Backup"], Sim.says wrapped_df_output) :: Sim.web_host.

(** The copy of [vda] fails. *)
Definition failing_copy : Sim.table :=
  (["cp"; "--sparse=always"; source Sim.vda; backup_file_of "web" Sim.bd "vda"],
   Sim.fails)
  :: Sim.web_host.

(** [virsh] is not installed. *)
Definition no_virsh : Sim.table := [ (["which"; "virsh"], Sim.fails) ].

(** 100 MB are free on the backup root, and 2500 are needed. *)
Definition little_space : Sim.table := Sim.df_answer "100" :: Sim.web_host.

End Hosts.

(** ** The built-ins and the paths, on examples *)

Example splitlines_ex :
  Py.splitlines ("A" ++ String (ascii_of_nat 10) "" ++ String (ascii_of_nat 10) "B"
                 ++ String (ascii_of_nat 13) (String (ascii_of_nat 10) "C"))
  = ["A"; ""; "B"; "C"].
Proof. reflexivity. Qed.

Example split_ex : Py.split "  vda   file disk  /img/a.qcow2 " = ["vda"; "file"; "disk"; "/img/a.qcow2"].
Proof. reflexivity. Qed.

Example int_ex : Py.int " 1_000 " = Some 1000 ∧ Py.int "12__3" = None ∧ Py.int "-7" = Some (-7) ∧ Py.int "" = None.
Proof. repeat split; reflexivity. Qed.

Example contains_ex : Py.contains "TEMPLATE-*" "TEMPLATE-X" = false ∧ Py.contains "PLATE" "TEMPLATE-X" = true.
Proof. split; reflexivity. Qed.

Example ancestors_ex : ancestors "/mnt/Backup/web/20240101-000000" = ["/mnt"; "/mnt/Backup"; "/mnt/Backup/web"].
Proof. reflexivity. Qed.

Example dirname_ex : dirname "/storage/web-1/web-vda.snapshot" = "/storage/web-1" ∧ basename "/storage/web-1/web-vda.snapshot" = "web-vda.snapshot".
Proof. split; reflexivity. Qed.

Example product_ex :
  PyFloat.int_of_product 1000 PyFloat.lit_2_5 = Some 2500
  ∧ PyFloat.int_of_product 1 PyFloat.lit_2_5 = Some 2
  ∧ PyFloat.int_of_product 3 PyFloat.lit_2_5 = Some 7
  ∧ PyFloat.int_of_product 0 PyFloat.lit_2_5 = Some 0.
Proof. repeat split; vm_compute; reflexivity. Qed.

Example get_vm_disks_ex :
  (get_vm_disks Sim.exec "web" (Sim.init Sim.disk_tree Sim.web_host)).1
  = Ok [("vda", Sim.vda); ("vdb", Sim.vdb)].
Proof. vm_compute. reflexivity. Qed.

(** ** Strings and paths *)

Section Paths.

Implicit Types (s t u d p n : string) (c a : ascii).

Lemma app_cons c s t : String c s ++ t = String c (s ++ t).
Proof. reflexivity. Qed.

Lemma app_empty_l s : "" ++ s = s.
Proof. reflexivity. Qed.

Lemma str_app_assoc s t u : (s ++ t) ++ u = s ++ t ++ u.
Proof. induction s as [|c s IH]; [done|]. rewrite !app_cons. by f_equal. Qed.

Lemma app_empty_r s : s ++ "" = s.
Proof. induction s as [|c s IH]; [done|]. rewrite app_cons. by f_equal. Qed.

Lemma str_length_app s t :
  String.length (s ++ t) = (String.length s + String.length t)%nat.
Proof. induction s as [|c s IH]; [done|]. rewrite app_cons. simpl. by f_equal. Qed.

Lemma has_char_app a s t : has_char a (s ++ t) = has_char a s || has_char a t.
Proof.
  induction s as [|c s IH]; [done|]. rewrite app_cons. simpl.
  rewrite IH. by rewrite orb_assoc.
Qed.

Lemma strip_prefix_app p s : strip_prefix p (p ++ s) = Some s.
Proof.
  induction p as [|c p IH]; [done|]. rewrite app_cons. simpl.
  by rewrite Ascii.eqb_refl.
Qed.

Lemma strip_prefix_Some p s t : strip_prefix p s = Some t → s = p ++ t.
Proof.
  revert s. induction p as [|c p IH]; intros s; simpl.
  - by intros [= ->].
  - destruct s as [|b s]; [done|].
    destruct (Ascii.eqb_spec c b) as [->|]; [|done].
    intros Hs. rewrite app_cons. f_equal. by apply IH.
Qed.

Lemma is_under_spec d p : is_under d p = true ↔ ∃ n, p = d ++ "/" ++ n.
Proof.
  unfold is_under. split.
  - destruct (strip_prefix (d ++ "/") p) as [n|] eqn:E; [|done].
    intros _. exists n. apply strip_prefix_Some in E. by rewrite E, str_app_assoc.
  - intros [n ->]. by rewrite <- str_app_assoc, strip_prefix_app.
Qed.

Lemma is_child_spec d p :
  is_child d p = true ↔ ∃ n, p = d ++ "/" ++ n ∧ has_char "/" n = false.
Proof.
  unfold is_child, child_name. split.
  - destruct (strip_prefix (d ++ "/") p) as [n|] eqn:E; [|done].
    destruct (has_char "/" n) eqn:Hn; [done|].
    intros _. exists n. apply strip_prefix_Some in E. by rewrite E, str_app_assoc.
  - intros (n & -> & Hn). by rewrite <- str_app_assoc, strip_prefix_app, Hn.
Qed.

Lemma is_child_under d p : is_child d p = true → is_under d p = true.
Proof. rewrite is_child_spec, is_under_spec. intros (n & ? & _). eauto. Qed.

Lemma is_under_longer d p :
  is_under d p = true → (String.length d < String.length p)%nat.
Proof.
  rewrite is_under_spec. intros [n ->]. rewrite !str_length_app. simpl. lia.
Qed.

Lemma is_under_ne d p : is_under d p = true → p ≠ d.
Proof. intros Hu ->. apply is_under_longer in Hu. lia. Qed.

Lemma dirname_join d n :
  dirname (d ++ "/" ++ n) = if has_char "/" n then d ++ "/" ++ dirname n else d.
Proof.
  induction d as [|c d IH].
  - rewrite ?app_empty_l, ?app_cons, ?app_empty_l. simpl.
    destruct (has_char "/" n); by rewrite ?app_empty_l, ?app_cons, ?app_empty_l.
  - rewrite app_cons. simpl. rewrite IH, has_char_app, app_cons, app_empty_l. simpl.
    destruct (has_char "/" n); by rewrite ?orb_true_r, ?app_cons.
Qed.

Lemma basename_no_slash s : has_char "/" (basename s) = false.
Proof.
  induction s as [|c s IH]; [done|]. simpl.
  destruct (has_char "/" s) eqn:Hs; [done|].
  destruct (Ascii.eqb c "/") eqn:Hc; [done|]. simpl. by rewrite Hc, Hs.
Qed.

(** Below [d], the parent of a path is [d] exactly at the entries of [d];
    elsewhere it lies below [d] too. *)
Lemma dirname_under d p :
  is_under d p = true →
  (dirname p = d ∧ is_child d p = true)
  ∨ (is_under d (dirname p) = true ∧ is_child d p = false).
Proof.
  intros Hu. destruct (proj1 (is_under_spec d p) Hu) as [n ->].
  rewrite dirname_join. destruct (has_char "/" n) eqn:Hn.
  - right. split; [apply is_under_spec; eauto|].
    destruct (is_child d (d ++ "/" ++ n)) eqn:Hc; [|done].
    apply is_child_spec in Hc as (n' & Heq & Hn').
    apply (inj (String.app d)), (inj (String.app "/")) in Heq. congruence.
  - left. split; [done|]. apply is_child_spec. eauto.
Qed.

Lemma join_is_child d n : has_char "/" n = false → is_child d (d </> n) = true.
Proof. intros Hn. apply is_child_spec. exists n. done. Qed.

Lemma join_is_under d n : is_under d (d </> n) = true.
Proof. apply is_under_spec. by exists n. Qed.

Lemma dirname_child d p : is_child d p = true → dirname p = d.
Proof.
  intros Hc. destruct (dirname_under d p (is_child_under _ _ Hc)) as [[? _]|[_ ?]];
    congruence.
Qed.

End Paths.

(** ** The file tree *)

Section Trees.

Implicit Types (t : tree) (d p q : string).

Lemma elem_of_keys t p : p ∈ (map_to_list t).*1 ↔ is_Some (t !! p).
Proof.
  rewrite list_elem_of_fmap. split.
  - intros ([q n] & -> & Hin). apply elem_of_map_to_list in Hin. eauto.
  - intros [n Hn]. exists (p, n). split; [done|]. by apply elem_of_map_to_list.
Qed.

Lemma occupied_false t d :
  occupied t d = false ↔ ∀ p, is_under d p = true → t !! p = None.
Proof.
  unfold occupied. rewrite bool_decide_eq_false. split.
  - intros Hnil p Hp. destruct (t !! p) as [n|] eqn:E; [|done].
    exfalso. apply Hnil. intros Hf.
    eapply (filter_nil_not_elem_of _ _ p Hf Hp), elem_of_keys. eauto.
  - intros Hall Hne. apply Hne.
    destruct (filter _ _) as [|p l] eqn:E; [done|].
    assert (p ∈ filter (λ p, is_under d p = true) (map_to_list t).*1) as Hin
      by (rewrite E; left).
    apply list_elem_of_filter in Hin as [Hp Hin]. apply elem_of_keys in Hin.
    rewrite (Hall p Hp) in Hin. by destruct Hin.
Qed.

Lemma gone_spec t d :
  gone t d = true ↔ t !! d = None ∧ ∀ p, is_under d p = true → t !! p = None.
Proof.
  unfold gone. rewrite andb_true_iff, bool_decide_eq_true, negb_true_iff.
  by rewrite occupied_false.
Qed.

Lemma flat_spec t d :
  flat t d = true ↔
  t !! d = Some Dir
  ∧ ∀ p n, is_under d p = true → t !! p = Some n → n = File ∧ is_child d p = true.
Proof.
  unfold flat. rewrite andb_true_iff, bool_decide_eq_true, forallb_forall.
  split; intros [Hd Hall]; (split; [done|]).
  - intros p n Hp Hn.
    assert (In (p, n) (map_to_list t)) as Hin
      by (apply list_elem_of_In; by apply elem_of_map_to_list).
    specialize (Hall _ Hin). simpl in Hall. rewrite Hp in Hall. simpl in Hall.
    apply andb_true_iff in Hall as [Hf Hc]. by apply bool_decide_eq_true in Hf.
  - intros [p n] Hin. apply list_elem_of_In, elem_of_map_to_list in Hin.
    destruct (is_under d p) eqn:Hp; [|done]. simpl.
    destruct (Hall p n Hp Hin) as [-> ->]. done.
Qed.

(** Both notions look at the directory and below it only. *)
Lemma flat_ext t t' d :
  (∀ q, q = d ∨ is_under d q = true → t' !! q = t !! q) →
  flat t d = true → flat t' d = true.
Proof.
  rewrite !flat_spec. intros Hext [Hd Hall]. split.
  - rewrite Hext; auto.
  - intros p n Hp Hn. rewrite Hext in Hn by auto. eauto.
Qed.

Lemma gone_ext t t' d :
  (∀ q, q = d ∨ is_under d q = true → t' !! q = t !! q) →
  gone t d = true → gone t' d = true.
Proof.
  rewrite !gone_spec. intros Hext [Hd Hall]. split.
  - rewrite Hext; auto.
  - intros p Hp. rewrite Hext; auto.
Qed.

Lemma tidy_ext t t' d :
  (∀ q, q = d ∨ is_under d q = true → t' !! q = t !! q) →
  tidy t d = true → tidy t' d = true.
Proof.
  unfold tidy. rewrite !orb_true_iff. intros Hext [?|?];
    [left; by eapply flat_ext|right; by eapply gone_ext].
Qed.

(** A regular file put where its parent is a directory keeps a flat
    directory flat. *)
Lemma flat_insert_file t d p :
  flat t d = true → parent_is_dir t p = true → t !! p ≠ Some Dir →
  flat (<[p := File]> t) d = true.
Proof.
  rewrite !flat_spec. intros [Hd Hall] Hpar Hp. split.
  - rewrite lookup_insert_ne; [done|]. intros ->. done.
  - intros q n Hq Hn. destruct (decide (p = q)) as [->|Hne].
    + rewrite lookup_insert_eq in Hn. injection Hn as <-. split; [done|].
      destruct (dirname_under d q Hq) as [[_ Hc]|[Hu Hc]]; [done|].
      exfalso. unfold parent_is_dir in Hpar.
      apply orb_true_iff in Hpar as [He|Hdir].
      * apply is_under_longer in Hu. destruct (dirname q); [simpl in Hu; lia|done].
      * apply bool_decide_eq_true in Hdir.
        destruct (Hall _ _ Hu Hdir) as [? _]. done.
    + rewrite lookup_insert_ne in Hn by done. eauto.
Qed.

Lemma flat_delete t d p : p ≠ d → flat t d = true → flat (delete p t) d = true.
Proof.
  rewrite !flat_spec. intros Hne [Hd Hall]. split.
  - by rewrite lookup_delete_ne.
  - intros q n Hq Hn. destruct (decide (p = q)) as [->|Hne'].
    + by rewrite lookup_delete_eq in Hn.
    + rewrite lookup_delete_ne in Hn by done. eauto.
Qed.

Lemma gone_flat_mkdir t d :
  gone t d = true → flat (<[d := Dir]> t) d = true.
Proof.
  rewrite gone_spec, flat_spec. intros [Hd Hall]. split.
  - by rewrite lookup_insert_eq.
  - intros q n Hq Hn. rewrite lookup_insert_ne in Hn by (intros ->; by apply is_under_ne in Hq).
    rewrite (Hall q Hq) in Hn. done.
Qed.

End Trees.

(** ** Floats: the product with 2.5 is exact *)

Section Floats.

Lemma digits2_pos_size p : digits2_pos p = Pos.size p.
Proof. induction p; simpl; congruence. Qed.

Lemma Zdigits2_log2 p : Zpos (digits2_pos p) = Z.log2 (Zpos p) + 1.
Proof. destruct p; simpl; rewrite ?digits2_pos_size, ?Pos2Z.inj_succ; lia. Qed.

Lemma Zdigits2_mul_pow2 p n : 0 <= n -> 
  Zdigits2 (Zpos p * 2 ^ n) = Zpos (digits2_pos p) + n.
Proof.
  intros Hn. assert (0 < Zpos p * 2 ^ n) as Hpos by (apply Z.mul_pos_pos; [lia|apply Z.pow_pos_nonneg; lia]).
  destruct (Zpos p * 2 ^ n) as [|q|q] eqn:E; try lia.
  unfold Zdigits2. rewrite !Zdigits2_log2. rewrite <- E.
  rewrite Z.log2_mul_pow2 by lia. lia.
Qed.

Lemma iter_pos_nat {A} (f : A -> A) p x :
  @SpecFloat.iter_pos A f p x = Nat.iter (Pos.to_nat p) f x.
Proof.
  revert x. induction p as [p IH|p IH|]; intros x.
  - change (@SpecFloat.iter_pos A f p~1 x)
      with (@SpecFloat.iter_pos A f p (@SpecFloat.iter_pos A f p (f x))).
    rewrite !IH, Pos2Nat.inj_xI, Nat.iter_succ_r.
    replace (2 * Pos.to_nat p)%nat with (Pos.to_nat p + Pos.to_nat p)%nat by lia.
    rewrite Nat.iter_add. reflexivity.
  - change (@SpecFloat.iter_pos A f p~0 x)
      with (@SpecFloat.iter_pos A f p (@SpecFloat.iter_pos A f p x)).
    rewrite !IH, Pos2Nat.inj_xO.
    replace (2 * Pos.to_nat p)%nat with (Pos.to_nat p + Pos.to_nat p)%nat by lia.
    rewrite Nat.iter_add. reflexivity.
  - reflexivity.
Qed.

Lemma shr_1_double z : 0 <= z ->
  shr_1 {| shr_m := 2 * z; shr_r := false; shr_s := false |} = {| shr_m := z; shr_r := false; shr_s := false |}.
Proof. intros Hz. destruct z as [|p|p]; try lia; reflexivity. Qed.

Lemma iter_shr_1_exact n z : 0 <= z ->
  Nat.iter n shr_1 {| shr_m := z * 2 ^ Z.of_nat n; shr_r := false; shr_s := false |}
  = {| shr_m := z; shr_r := false; shr_s := false |}.
Proof.
  intros Hz. induction n as [|n IH].
  - simpl. f_equal. lia.
  - rewrite Nat.iter_succ_r.
    replace (z * 2 ^ Z.of_nat (S n)) with (2 * (z * 2 ^ Z.of_nat n)).
    + rewrite shr_1_double by (apply Z.mul_nonneg_nonneg; [lia|apply Z.pow_nonneg; lia]). exact IH.
    + rewrite Nat2Z.inj_succ, Z.pow_succ_r by lia. lia.
Qed.

Lemma binary_round_aux_exact sx (m : positive) n E :
  Zpos (digits2_pos m) = 53 -> 0 <= n -> -1074 <= E + n <= 971 ->
  binary_round_aux 53 1024 sx (Zpos m * 2 ^ n) E loc_Exact = S754_finite sx m (E + n).
Proof.
  intros Hd Hn HE. unfold binary_round_aux.
  assert (shr_fexp 53 1024 (Zpos m * 2 ^ n) E loc_Exact
          = ({| shr_m := Zpos m; shr_r := false; shr_s := false |}, E + n)) as ->.
  { unfold shr_fexp. rewrite Zdigits2_mul_pow2 by lia. rewrite Hd.
    unfold fexp, emin. replace (Z.max (53 + n + E - 53) (3 - 1024 - 53) - E) with n by lia.
    unfold shr. destruct n as [|p|p]; try lia.
    - simpl. f_equal; [|lia]. f_equal. lia.
    - rewrite iter_pos_nat. unfold shr_record_of_loc. f_equal.
      rewrite <- (positive_nat_Z p). apply iter_shr_1_exact. lia. }
  simpl shr_m. simpl loc_of_shr_record. simpl round_nearest_even.
  assert (shr_fexp 53 1024 (Zpos m) (E + n) loc_Exact
          = ({| shr_m := Zpos m; shr_r := false; shr_s := false |}, E + n)) as ->.
  { unfold shr_fexp. simpl Zdigits2. rewrite Hd.
    unfold fexp, emin. replace (Z.max (53 + (E + n) - 53) (3 - 1024 - 53) - (E + n)) with 0 by lia.
    reflexivity. }
  simpl shr_m. replace (E + n <=? 1024 - 53) with true by (symmetry; apply Z.leb_le; lia).
  reflexivity.
Qed.

Lemma digits_bounds p : 2 ^ (Zpos (digits2_pos p) - 1) <= Zpos p < 2 ^ Zpos (digits2_pos p).
Proof.
  rewrite Zdigits2_log2. replace (Z.log2 (Zpos p) + 1 - 1) with (Z.log2 (Zpos p)) by lia.
  pose proof (Z.log2_spec (Zpos p)). rewrite <- Z.add_1_r in *. lia.
Qed.

Lemma of_int_exact (s : positive) :
  Zpos (digits2_pos s) <= 53 ->
  exists mz, binary_normalize 53 1024 (Zpos s) 0 false
             = S754_finite false mz (Zpos (digits2_pos s) - 53)
    /\ Zpos mz = Zpos s * 2 ^ (53 - Zpos (digits2_pos s))
    /\ Zpos (digits2_pos mz) = 53.
Proof.
  intros Hd. set (d := Zpos (digits2_pos s)) in *.
  set (mz := Z.to_pos (Zpos s * 2 ^ (53 - d))).
  assert (0 < 2 ^ (53 - d)) as Hpow by (apply Z.pow_pos_nonneg; lia).
  assert (Zpos mz = Zpos s * 2 ^ (53 - d)) as Hmz.
  { unfold mz. rewrite Z2Pos.id; [done|]. apply Z.mul_pos_pos; lia. }
  assert (Zpos (digits2_pos mz) = 53) as Hdm.
  { pose proof (Zdigits2_mul_pow2 s (53 - d) ltac:(lia)) as Hx.
    rewrite <- Hmz in Hx. simpl in Hx. fold d in Hx. lia. }
  exists mz. split; [|split; done].
  unfold binary_normalize, binary_round.
  assert (shl_align s 0 (fexp 53 1024 (Zpos (digits2_pos s) + 0)) = (mz, d - 53)) as ->.
  { unfold shl_align, fexp, emin. fold d.
    replace (Z.max (d + 0 - 53) (3 - 1024 - 53) - 0) with (d - 53) by lia.
    replace (Z.max (d + 0 - 53) (3 - 1024 - 53)) with (d - 53) by lia.
    destruct (d - 53) as [|k|k] eqn:Ek; try lia.
    - f_equal. apply Pos2Z.inj. rewrite Hmz. replace (53 - d) with 0 by lia. lia.
    - f_equal. apply Pos2Z.inj. rewrite Hmz.
      change (Pos.iter xO s k) with (shift_pos k s). rewrite shift_pos_correct.
      rewrite Zpower_pos_nat, Zpower_nat_Z, positive_nat_Z.
      replace (53 - d) with (Zpos k) by lia. lia. }
  replace (Zpos mz) with (Zpos mz * 2 ^ 0) by lia.
  rewrite binary_round_aux_exact; [|done|lia|lia]. f_equal. lia.
Qed.

Lemma int_times_2_5 (n : Z) :
  0 < n < 2 ^ 50 ->
  exists f, PyFloat.of_int n = Some f
    /\ PyFloat.to_int (PyFloat.mul f PyFloat.lit_2_5) = Some (5 * n / 2).
Proof.
  intros Hn. destruct n as [|s|s]; try lia.
  pose proof (digits_bounds s) as Hb.
  set (d := Zpos (digits2_pos s)) in *.
  assert (d <= 50) as Hd50.
  { destruct (Z.le_gt_cases d 50) as [|Hgt]; [done|].
    assert (2 ^ 50 <= 2 ^ (d - 1)) by (apply Z.pow_le_mono_r; lia). lia. }
  destruct (of_int_exact s ltac:(fold d; lia)) as (mz & Hnorm & Hmz & Hdm).
  fold d in Hnorm, Hmz.
  eexists. split.
  { unfold PyFloat.of_int, PyFloat.prec, PyFloat.emax. rewrite Hnorm. reflexivity. }
  unfold PyFloat.mul, PyFloat.prec, PyFloat.emax, SFmul, PyFloat.lit_2_5. simpl xorb.
  (* the product 5 s *)
  assert (0 < 5 * Zpos s) as H5 by lia.
  destruct (5 * Zpos s) as [|q|q] eqn:Eq; try lia.
  pose proof (digits_bounds q) as Hbq.
  set (dd := Zpos (digits2_pos q)) in *.
  assert (d + 2 <= dd <= d + 3) as Hdd.
  { assert (0 < d) by (unfold d; lia).
    split.
    - destruct (Z.le_gt_cases (d + 2) dd) as [|Hgt]; [done|].
      assert (2 ^ dd <= 2 ^ (d + 1)) by (apply Z.pow_le_mono_r; lia).
      replace (d + 1) with (Z.succ (Z.succ (d - 1))) in * by lia.
      rewrite !Z.pow_succ_r in * by lia. lia.
    - destruct (Z.le_gt_cases dd (d + 3)) as [|Hgt]; [done|].
      assert (2 ^ (d + 3) <= 2 ^ (dd - 1)) by (apply Z.pow_le_mono_r; lia).
      replace (d + 3) with (Z.succ (Z.succ (Z.succ d))) in * by lia.
      rewrite !Z.pow_succ_r in * by lia. lia. }
  set (m' := Z.to_pos (Zpos q * 2 ^ (53 - dd))).
  assert (0 < 2 ^ (53 - dd)) as Hpow by (apply Z.pow_pos_nonneg; lia).
  assert (Zpos m' = Zpos q * 2 ^ (53 - dd)) as Hm'.
  { unfold m'. rewrite Z2Pos.id; [done|]. apply Z.mul_pos_pos; lia. }
  assert (Zpos (digits2_pos m') = 53) as Hdm'.
  { pose proof (Zdigits2_mul_pow2 q (53 - dd) ltac:(lia)) as Hx.
    rewrite <- Hm' in Hx. simpl in Hx. fold dd in Hx. lia. }
  assert (Zpos (mz * 5629499534213120) = Zpos m' * 2 ^ (50 - d + dd)) as ->.
  { rewrite Pos2Z.inj_mul, Hmz, Hm', <- Eq.
    change (Zpos 5629499534213120) with (5 * 2 ^ 50).
    replace (Zpos s * 2 ^ (53 - d) * (5 * 2 ^ 50)) with (5 * Zpos s * (2 ^ (53 - d) * 2 ^ 50)) by lia.
    replace (5 * Zpos s * 2 ^ (53 - dd) * 2 ^ (50 - d + dd))
      with (5 * Zpos s * (2 ^ (53 - dd) * 2 ^ (50 - d + dd))) by lia.
    rewrite <- !Z.pow_add_r by lia. f_equal. f_equal. lia. }
  rewrite binary_round_aux_exact; [|done|lia|lia].
  unfold PyFloat.to_int.
  replace (0 <=? d - 53 + -51 + (50 - d + dd)) with false by (symmetry; apply Z.leb_gt; lia).
  f_equal. rewrite Hm'.
  replace (- (d - 53 + -51 + (50 - d + dd))) with (1 + (53 - dd)) by lia.
  rewrite Z.pow_add_r by lia. change (2 ^ 1) with 2.
  rewrite Z.div_mul_cancel_r by lia. reflexivity.
Qed.

Lemma int_of_product_2_5 (n : Z) :
  0 < n < 2 ^ 50 -> PyFloat.int_of_product n PyFloat.lit_2_5 = Some (5 * n / 2).
Proof.
  intros Hn. destruct (int_times_2_5 n Hn) as (f & Hf & Hm).
  unfold PyFloat.int_of_product. rewrite Hf. exact Hm.
Qed.

End Floats.

(** ** What the script reads from its commands *)

Section Parsing.

Open Scope list_scope.

Lemma no_space_snoc cur c :
  no_space (Py.snoc cur c) = no_space cur && negb (Py.isspace c).
Proof.
  unfold Py.snoc. induction cur as [|a cur IH].
  - rewrite app_empty_l. simpl. by rewrite andb_true_r.
  - rewrite app_cons. simpl. rewrite IH. by rewrite andb_assoc.
Qed.

Lemma is_empty_snoc cur c : Py.is_empty (Py.snoc cur c) = false.
Proof. unfold Py.snoc. destruct cur; [done|]. by rewrite app_cons. Qed.

Lemma split_from_words cur s :
  no_space cur = true → Forall (λ w, word w = true) (Py.split_from cur s).
Proof.
  revert cur. induction s as [|c s IH]; intros cur Hc; simpl.
  - destruct (Py.is_empty cur) eqn:E; [constructor|].
    constructor; [|constructor]. unfold word. by rewrite E, Hc.
  - destruct (Py.isspace c) eqn:Ec.
    + destruct (Py.is_empty cur) eqn:E; [by apply IH|].
      constructor; [unfold word; by rewrite E, Hc|by apply IH].
    + apply IH. by rewrite no_space_snoc, Hc, Ec.
Qed.

Lemma split_words s : Forall (λ w, word w = true) (Py.split s).
Proof. by apply split_from_words. Qed.

Lemma rstrip_idem s : Py.rstrip (Py.rstrip s) = Py.rstrip s.
Proof.
  induction s as [|c s IH]; [done|]. simpl.
  destruct (Py.isspace c && Py.is_empty (Py.rstrip s)) eqn:E; [done|].
  simpl. by rewrite IH, E.
Qed.

Lemma lstrip_head s c r : Py.lstrip s = String c r → Py.isspace c = false.
Proof.
  induction s as [|a s IH]; [done|]. simpl.
  destruct (Py.isspace a) eqn:E; [done|]. by intros [= <- <-].
Qed.

Lemma strip_idem s : Py.strip (Py.strip s) = Py.strip s.
Proof.
  unfold Py.strip. destruct (Py.lstrip s) as [|c r] eqn:El; [done|].
  apply lstrip_head in El. simpl. rewrite El. simpl. rewrite El. simpl.
  rewrite El. simpl. by rewrite rstrip_idem.
Qed.

(** The names [get_running_vms] returns, for the lines [virsh list] printed. *)
Lemma filtered_names (out vm : string) :
  let vms := List.filter (fun vm => negb (excluded vm))
               (map Py.strip
                  (List.filter (fun vm => negb (Py.is_empty (Py.strip vm)))
                     (Py.splitlines out))) in
  (vm ∈ vms
   ↔ (∃ line, line ∈ Py.splitlines out ∧ Py.strip line = vm)
     ∧ vm ≠ ""%string ∧ excluded vm = false)
  ∧ (vm ∈ vms → Py.strip vm = vm).
Proof.
  simpl. rewrite list_elem_of_In, filter_In, in_map_iff. split.
  - split.
    + intros [(line & <- & Hline) Hex]. apply filter_In in Hline as [Hin Hne].
      split; [exists line; by rewrite list_elem_of_In|].
      split; [|by apply negb_true_iff].
      intros E. rewrite E in Hne. done.
    + intros ((line & Hin & <-) & Hne & Hex). split; [|by rewrite Hex].
      exists line. split; [done|]. apply filter_In.
      split; [by apply list_elem_of_In|].
      by destruct (Py.strip line).
  - intros [(line & <- & _) _]. apply strip_idem.
Qed.

(** The dictionary of [get_vm_disks]. *)
Lemma dict_set_keys {V} (k : string) (v : V) d k' :
  k' ∈ (dict_set k v d).*1 ↔ k' = k ∨ k' ∈ d.*1.
Proof.
  induction d as [|[k1 v1] d IH]; simpl.
  - rewrite list_elem_of_singleton. split; [by left|].
    intros [?|Hn]; [done|]. by apply elem_of_nil in Hn.
  - destruct (String.eqb k k1) eqn:E.
    + apply String.eqb_eq in E as <-. simpl. rewrite !elem_of_cons.
      split; [intros [?|?]; auto|intros [?|[?|?]]; auto].
    + simpl. rewrite !elem_of_cons, IH.
      split; [intros [?|[?|?]]; auto|intros [?|[?|?]]; auto].
Qed.

Lemma dict_set_NoDup {V} (k : string) (v : V) d :
  NoDup d.*1 → NoDup (dict_set k v d).*1.
Proof.
  induction d as [|[k1 v1] d IH]; simpl; intros Hd.
  - apply NoDup_singleton.
  - apply NoDup_cons in Hd as [Hk1 Hd].
    destruct (String.eqb k k1) eqn:E.
    + apply String.eqb_eq in E as <-. simpl. by apply NoDup_cons.
    + apply String.eqb_neq in E. simpl. apply NoDup_cons. split; [|by apply IH].
      rewrite dict_set_keys. intros [?|?]; [by subst|done].
Qed.

Lemma dict_set_Forall {V} (Q : string * V → Prop) k v d :
  Q (k, v) → Forall Q d → Forall Q (dict_set k v d).
Proof.
  intros Hq. induction d as [|[k1 v1] d IH]; simpl; intros Hd.
  - by constructor.
  - apply Forall_cons_1 in Hd as [H1 Hd].
    destruct (String.eqb k k1); constructor; auto.
Qed.

Lemma dict_set_length {V} (k : string) (v : V) d :
  (length (dict_set k v d) ≤ S (length d))%nat.
Proof.
  induction d as [|[k1 v1] d IH]; simpl; [lia|].
  destruct (String.eqb k k1); simpl; lia.
Qed.

Lemma parse_lines_spec (lines : list string) (acc : list (string * disk)) :
  let step := fun disks line =>
    if Py.is_empty (Py.strip line) then disks
    else match Py.split line with
         | p0 :: p1 :: p2 :: p3 :: _ =>
             dict_set p0 {| type := p1; device := p2; source := p3; target := p0 |} disks
         | _ => disks
         end in
  NoDup acc.*1 → Forall (λ x, parsed_entry x.1 x.2) acc →
  NoDup (fold_left step lines acc).*1
  ∧ Forall (λ x, parsed_entry x.1 x.2) (fold_left step lines acc)
  ∧ (length (fold_left step lines acc) ≤ length acc + length lines)%nat
  ∧ (Forall (λ line, (length (Py.split line) ≤ 3)%nat) lines →
     fold_left step lines acc = acc).
Proof.
  intros step. revert acc. induction lines as [|line lines IH]; intros acc Hn Hf.
  - simpl. repeat split; try done. lia.
  - simpl fold_left.
    assert (NoDup (step acc line).*1 ∧ Forall (λ x, parsed_entry x.1 x.2) (step acc line)
            ∧ (length (step acc line) ≤ S (length acc))%nat
            ∧ ((length (Py.split line) ≤ 3)%nat → step acc line = acc))
      as (Hn' & Hf' & Hl' & He').
    { unfold step. destruct (Py.is_empty (Py.strip line)).
      { repeat split; try done. lia. }
      pose proof (split_words line) as Hw.
      destruct (Py.split line) as [|p0 [|p1 [|p2 [|p3 rest]]]];
        try (repeat split; try done; lia).
      apply Forall_cons_1 in Hw as [H0 Hw]. apply Forall_cons_1 in Hw as [H1 Hw].
      apply Forall_cons_1 in Hw as [H2 Hw]. apply Forall_cons_1 in Hw as [H3 _].
      split; [by apply dict_set_NoDup|]. split; [by apply dict_set_Forall|].
      split; [apply dict_set_length|]. simpl. lia. }
    destruct (IH (step acc line) Hn' Hf') as (Hn2 & Hf2 & Hl2 & He2).
    split; [done|]. split; [done|]. split; [simpl; lia|].
    intros Hall. apply Forall_cons_1 in Hall as [Hline Hall].
    rewrite He2 by done. by apply He'.
Qed.

Lemma parse_disks_spec out :
  NoDup (parse_disks out).*1
  ∧ Forall (λ x, parsed_entry x.1 x.2) (parse_disks out)
  ∧ (length (parse_disks out) ≤ length (Py.splitlines out) - 2)%nat
  ∧ (Forall (λ line, (length (Py.split line) ≤ 3)%nat) (drop 2 (Py.splitlines out)) →
     parse_disks out = []).
Proof.
  destruct (parse_lines_spec (drop 2 (Py.splitlines out)) [])
    as (Hn & Hf & Hl & He); [constructor|constructor|].
  unfold parse_disks. split; [done|]. split; [done|]. split; [|done].
  rewrite length_drop in Hl. simpl in Hl. done.
Qed.

End Parsing.

(** ** Properties *)

Section Properties.

Context {H : Type}.
Variable exec : list string → tree → H → outcome * bool * H.
Variable writable : string → H → bool.
Variable now : H → string.

Notation "x <- m ;; k" := (bind m (fun x => k))
  (at level 100, m at next level, right associativity).
Notation "m ;; k" := (bind m (fun _ => k))
  (at level 100, right associativity).

Implicit Types (st : @State H) (cmd : list string) (t : tree).

Local Abbreviation keeps_fs m := (@keeps_fs H _ m).
Local Abbreviation keeps_status m := (@keeps_status H _ m).
Local Abbreviation runs_only Q m := (@runs_only H _ Q m).
Local Abbreviation exits := (exits exec).
Local Abbreviation vm_succeeds := (vm_succeeds exec).
Local Abbreviation vm_outcomes := (vm_outcomes exec).
Local Abbreviation du_size := (du_size exec).
Local Abbreviation du_sum := (du_sum exec).
Local Abbreviation disk_succeeds := (disk_succeeds exec).
Local Abbreviation succeeded_disks := (succeeded_disks exec).

Open Scope list_scope.

Lemma bind_eq {A B} (m : @M H A) (k : A → @M H B) st :
  bind m k st
  = match m st with
    | (Ok a, st') => k a st'
    | (Raise e, st') => (Raise e, st')
    end.
Proof. reflexivity. Qed.

Lemma bind_Ok {A B} (m : @M H A) (k : A → @M H B) st a st' :
  m st = (Ok a, st') → bind m k st = k a st'.
Proof. intros E. unfold bind. by rewrite E. Qed.

Lemma bind_Raise {A B} (m : @M H A) (k : A → @M H B) st e st' :
  m st = (Raise e, st') → bind m k st = (Raise e, st').
Proof. intros E. unfold bind. by rewrite E. Qed.

(** *** Running a command *)

Lemma run_command_subprocess cmd check st :
  run_command exec cmd check st = subprocess_run exec cmd check st.
Proof.
  unfold run_command, try_except, raise.
  destruct (subprocess_run exec cmd check st) as [[a|e] st']; reflexivity.
Qed.

Lemma subprocess_run_trace cmd check st :
  trace (subprocess_run exec cmd check st).2 = trace st ++ [cmd].
Proof.
  unfold subprocess_run.
  destruct (exec cmd (fs st) (host st)) as [[o w] h'].
  destruct o as [rc out err| |msg]; simpl; try reflexivity.
  destruct (check && negb (rc =? 0)); reflexivity.
Qed.

Lemma run_command_trace cmd check st :
  trace (run_command exec cmd check st).2 = trace st ++ [cmd].
Proof. rewrite run_command_subprocess. apply subprocess_run_trace. Qed.

Lemma run_command_status cmd check st :
  backup_status (run_command exec cmd check st).2 = backup_status st.
Proof.
  rewrite run_command_subprocess. unfold subprocess_run.
  destruct (exec cmd (fs st) (host st)) as [[o w] h'].
  destruct o as [rc out err| |msg]; simpl; try reflexivity.
  destruct (check && negb (rc =? 0)); reflexivity.
Qed.

Lemma run_command_fs cmd check st :
  fs (run_command exec cmd check st).2 = fs st
  ∨ fs (run_command exec cmd check st).2 = tool_write (fs st) cmd.
Proof.
  rewrite run_command_subprocess. unfold subprocess_run.
  destruct (exec cmd (fs st) (host st)) as [[o w] h'].
  destruct o as [rc out err| |msg]; simpl;
    try destruct (check && negb (rc =? 0)); simpl; destruct w; auto.
Qed.

(** A command without an output file leaves the file tree as it is. *)
Lemma run_command_fs_same cmd check st :
  tool_output cmd = None → fs (run_command exec cmd check st).2 = fs st.
Proof.
  intros Hnone.
  destruct (run_command_fs cmd check st) as [E|E]; rewrite E; [done|].
  unfold tool_write. by rewrite Hnone.
Qed.

(** With [check=False] only a process that does not end by itself raises. *)
Lemma run_command_unchecked cmd st :
  match (exec cmd (fs st) (host st)).1.1 with
  | Exited rc out err =>
      (run_command exec cmd false st).1
      = Ok {| returncode := rc; stdout := out; stderr := err |}
  | TimedOut => (run_command exec cmd false st).1 = Raise (TimeoutExpired cmd)
  | SpawnFailed msg => (run_command exec cmd false st).1 = Raise (OSError msg)
  end.
Proof.
  rewrite run_command_subprocess. unfold subprocess_run.
  destruct (exec cmd (fs st) (host st)) as [[o w] h'].
  destruct o as [rc out err| |msg]; reflexivity.
Qed.

(** Any command keeps a flat directory flat. *)
Lemma run_command_flat d cmd check st :
  flat (fs st) d = true → flat (fs (run_command exec cmd check st).2) d = true.
Proof.
  intros Hflat. destruct (run_command_fs cmd check st) as [E|E]; rewrite E; [done|].
  unfold tool_write. destruct (tool_output cmd) as [p|]; [|done].
  destruct (parent_is_dir (fs st) p) eqn:Hpar; [|done].
  destruct (bool_decide (fs st !! p = Some Dir)) eqn:Hp; [done|]. simpl.
  apply bool_decide_eq_false in Hp. by apply flat_insert_file.
Qed.

(** *** The export of the configuration *)

Lemma run_command_with_stdout cmd st :
  run_command_with exec cmd ["stdout"] st = (Raise unexpected_stdout, st).
Proof. reflexivity. Qed.

Lemma prepare_raises vm backup_dir temp_dir st :
  ∃ e st', prepare exec vm backup_dir temp_dir st = (Raise e, st').
Proof.
  unfold prepare, bind.
  destruct (get_vm_disks exec vm st) as [[disks|e] st1]; [|eauto].
  destruct (bool_decide (disks = [])); [unfold raise; eauto|].
  destruct (check_disk_space exec vm disks st1) as [[[]|e] st2]; [|eauto].
  destruct (create_directory exec backup_dir st2) as [[[]|e] st3]; [|eauto].
  destruct (create_directory exec temp_dir st3) as [[[]|e] st4]; [|eauto].
  destruct (open_w _ st4) as [[[]|e] st5]; [|eauto].
  rewrite run_command_with_stdout. eauto.
Qed.

(** [backup_vm] is the emergency cleanup, run where [prepare] stopped. *)
Lemma backup_vm_cleanup vm st :
  ∃ e st1,
    prepare exec vm (backup_dir_of vm (now (host st))) (temp_dir_of vm (now (host st))) st
    = (Raise e, st1)
    ∧ backup_vm exec now vm st
      = emergency_cleanup (backup_dir_of vm (now (host st)))
                          (temp_dir_of vm (now (host st))) st1.
Proof.
  destruct (prepare_raises vm (backup_dir_of vm (now (host st)))
              (temp_dir_of vm (now (host st))) st) as (e & st1 & Hp).
  exists e, st1. split; [done|].
  unfold backup_vm, try_except, bind. by rewrite Hp.
Qed.

(** *** Removing a run directory *)

Lemma entries_spec t d p :
  p ∈ entries t d ↔ is_child d p = true ∧ is_Some (t !! p).
Proof. unfold entries. by rewrite list_elem_of_filter, elem_of_keys. Qed.

Lemma NoDup_entries t d : NoDup (entries t d).
Proof. apply NoDup_filter, NoDup_fst_map_to_list. Qed.

Lemma for_each_unlink (l : list string) st :
  (∀ p, p ∈ l → fs st !! p ≠ Some Dir) →
  ∃ t', for_each l (fun item => unlink item true) st = (Ok tt, with_fs t' st)
        ∧ ∀ q, t' !! q = if bool_decide (q ∈ l) then None else fs st !! q.
Proof.
  revert st. induction l as [|p l IH]; intros st Hl.
  - exists (fs st). split; [by destruct st|]. intros q.
    rewrite bool_decide_eq_false_2; [done|]. apply not_elem_of_nil.
  - simpl. unfold bind at 1. unfold unlink at 1.
    assert (fs st !! p ≠ Some Dir) as Hp by (apply Hl; left).
    destruct (fs st !! p) as [[|]|] eqn:Ep; [|done|].
    + destruct (IH (with_fs (delete p (fs st)) st)) as (t' & Hrun & Ht').
      { intros q Hq. simpl. destruct (decide (p = q)) as [->|Hne].
        - by rewrite lookup_delete_eq.
        - rewrite lookup_delete_ne by done. apply Hl. by right. }
      exists t'. split; [exact Hrun|]. intros q. rewrite Ht'. simpl.
      destruct (decide (q ∈ l)) as [Hin|Hnin].
      * rewrite !bool_decide_eq_true_2; [done| by right |done].
      * rewrite (bool_decide_eq_false_2 (q ∈ l)) by done.
        destruct (decide (q = p)) as [->|Hne].
        -- rewrite bool_decide_eq_true_2 by left. by rewrite lookup_delete_eq.
        -- rewrite bool_decide_eq_false_2, lookup_delete_ne; [done|done|].
           rewrite elem_of_cons. by intros [?|?].
    + destruct (IH st) as (t' & Hrun & Ht').
      { intros q Hq. apply Hl. by right. }
      exists t'. split; [exact Hrun|]. intros q. rewrite Ht'.
      destruct (decide (q ∈ l)) as [Hin|Hnin].
      * rewrite !bool_decide_eq_true_2; [done| by right |done].
      * rewrite (bool_decide_eq_false_2 (q ∈ l)) by done.
        destruct (decide (q = p)) as [->|Hne].
        -- by rewrite bool_decide_eq_true_2 by left.
        -- rewrite bool_decide_eq_false_2; [done|]. rewrite elem_of_cons. by intros [?|?].
Qed.

Lemma emergency_cleanup_remove_dir backup_dir temp_dir :
  @emergency_cleanup H backup_dir temp_dir
  = (remove_dir temp_dir ;; remove_dir backup_dir ;; ret false).
Proof. reflexivity. Qed.

Lemma remove_dir_tidy d st :
  tidy (fs st) d = true →
  ∃ t', remove_dir d st = (Ok tt, with_fs t' st)
        ∧ gone t' d = true
        ∧ ∀ q, q ≠ d → is_under d q = false → t' !! q = fs st !! q.
Proof.
  unfold tidy. rewrite orb_true_iff. intros [Hflat|Hgone].
  - pose proof Hflat as Hflat'. apply flat_spec in Hflat as [Hd Hall].
    unfold remove_dir, bind at 1, exists_. rewrite Hd.
    rewrite bool_decide_eq_true_2 by eauto.
    unfold bind at 1, glob_star. rewrite Hd.
    destruct (for_each_unlink (entries (fs st) d) st) as (t1 & Hrun & Ht1).
    { intros p Hp. apply entries_spec in Hp as [Hc [n Hn]].
      destruct (Hall p n (is_child_under _ _ Hc) Hn) as [-> _]. by rewrite Hn. }
    unfold bind at 1. rewrite Hrun. unfold rmdir. simpl.
    assert (t1 !! d = Some Dir) as Hd1.
    { rewrite Ht1, bool_decide_eq_false_2; [done|].
      intros Hin. apply entries_spec in Hin as [Hc _].
      apply is_child_under, is_under_ne in Hc. done. }
    assert (∀ p, is_under d p = true → t1 !! p = None) as Hempty.
    { intros p Hp. rewrite Ht1. destruct (fs st !! p) as [n|] eqn:En.
      - rewrite bool_decide_eq_true_2; [done|]. apply entries_spec.
        destruct (Hall p n Hp En) as [_ Hc]. eauto.
      - by destruct (bool_decide _). }
    rewrite Hd1. rewrite (proj2 (occupied_false t1 d) Hempty).
    exists (delete d t1). split; [done|]. split.
    + apply gone_spec. split; [by rewrite lookup_delete_eq|].
      intros p Hp. rewrite lookup_delete_ne by (intros ->; by apply is_under_ne in Hp).
      by apply Hempty.
    + intros q Hne Hu. rewrite lookup_delete_ne by done. rewrite Ht1.
      rewrite bool_decide_eq_false_2; [done|]. intros Hin.
      apply entries_spec in Hin as [Hc _]. apply is_child_under in Hc. congruence.
  - pose proof Hgone as Hgone'. apply gone_spec in Hgone as [Hd Hall].
    unfold remove_dir, bind at 1, exists_. rewrite Hd.
    rewrite bool_decide_eq_false_2 by (intros [? ?]; done).
    exists (fs st). split; [by destruct st|]. split; [done|]. done.
Qed.

Lemma emergency_cleanup_tidy backup_dir temp_dir st :
  apart backup_dir temp_dir →
  tidy (fs st) backup_dir = true → tidy (fs st) temp_dir = true →
  ∃ t', emergency_cleanup backup_dir temp_dir st = (Ok false, with_fs t' st)
        ∧ gone t' backup_dir = true ∧ gone t' temp_dir = true.
Proof.
  intros Hapart Hb Ht. rewrite emergency_cleanup_remove_dir.
  destruct (remove_dir_tidy temp_dir st Ht) as (t1 & Hrun1 & Hgone1 & Hframe1).
  unfold bind at 1. rewrite Hrun1.
  destruct (remove_dir_tidy backup_dir (with_fs t1 st)) as (t2 & Hrun2 & Hgone2 & Hframe2).
  { simpl. eapply tidy_ext; [|exact Hb]. intros q Hq. apply Hframe1.
    - intros ->. eapply Hapart; eauto.
    - destruct (is_under temp_dir q) eqn:E; [|done]. exfalso. eapply Hapart; eauto. }
  unfold bind at 1. rewrite Hrun2. exists t2. split; [done|]. split; [done|].
  eapply gone_ext; [|exact Hgone1]. intros q Hq. apply Hframe2.
  - intros ->. eapply Hapart; eauto.
  - destruct (is_under backup_dir q) eqn:E; [|done]. exfalso. eapply Hapart; eauto.
Qed.

(** *** Steps that leave the file tree alone *)

Lemma keeps_ret {A} (a : A) : keeps_fs (ret a).
Proof. by intros st. Qed.

Lemma keeps_raise {A} e : keeps_fs (@raise H A e).
Proof. by intros st. Qed.

Lemma keeps_bind {A B} (m : @M H A) (k : A → @M H B) :
  keeps_fs m → (∀ a, keeps_fs (k a)) → keeps_fs (bind m k).
Proof.
  intros Hm Hk st. unfold bind. specialize (Hm st).
  destruct (m st) as [[a|e] st1]; simpl in *; [|done].
  by rewrite Hk.
Qed.

Lemma keeps_try {A} (m : @M H A) (h : exn → @M H A) :
  keeps_fs m → (∀ e, keeps_fs (h e)) → keeps_fs (try_except m h).
Proof.
  intros Hm Hh st. unfold try_except. specialize (Hm st).
  destruct (m st) as [[a|e] st1]; simpl in *; [done|].
  by rewrite Hh.
Qed.

Lemma keeps_run_command cmd check :
  tool_output cmd = None → keeps_fs (run_command exec cmd check).
Proof. intros Hc st. by apply run_command_fs_same. Qed.

Lemma keeps_item {A} (l : list A) i : keeps_fs (@item H A l i).
Proof. intros st. unfold item. by destruct (l !! i). Qed.

Lemma keeps_int_of_str s : keeps_fs (@int_of_str H s).
Proof. intros st. unfold int_of_str. by destruct (Py.int s). Qed.

Lemma keeps_exists p : keeps_fs (@exists_ H p).
Proof. by intros st. Qed.

Create HintDb keeps.
Hint Resolve keeps_ret keeps_raise keeps_item keeps_int_of_str keeps_exists : keeps.

Ltac keeps :=
  repeat first
    [ progress intros
    | solve [auto with keeps]
    | match goal with
      | |- keeps_fs (run_command _ _ _) => apply keeps_run_command; reflexivity
      | |- keeps_fs (bind _ _) => apply keeps_bind
      | |- keeps_fs (try_except _ _) => apply keeps_try
      | |- keeps_fs (if ?b then _ else _) => destruct b
      | |- keeps_fs (match ?o with Some _ => _ | None => _ end) => destruct o
      end ].

Lemma keeps_get_vm_disks vm : keeps_fs (get_vm_disks exec vm).
Proof. unfold get_vm_disks. keeps. Qed.

Lemma keeps_calculate_required_space_from total disks :
  keeps_fs (calculate_required_space_from exec total disks).
Proof.
  revert total. induction disks as [|[disk_id d] rest IH]; intros total; simpl.
  - keeps.
  - destruct (negb (type d =? "file")%string || Py.is_empty (source d)); [apply IH|].
    keeps; apply IH.
Qed.

Lemma keeps_read_available_space : keeps_fs (read_available_space exec).
Proof. unfold read_available_space. keeps. Qed.

Lemma keeps_check_disk_space vm disks : keeps_fs (check_disk_space exec vm disks).
Proof.
  unfold check_disk_space, calculate_required_space.
  apply keeps_bind; [apply keeps_calculate_required_space_from|]. intros required.
  destruct (required =? 0); [keeps|].
  apply keeps_bind; [apply keeps_read_available_space|]. intros available.
  apply keeps_bind.
  - unfold int_times_float. destruct (PyFloat.of_int required); [|keeps].
    destruct (PyFloat.to_int _); keeps.
  - keeps.
Qed.

(** *** Creating the run directories *)

Lemma ancestors_from_spec pre s q :
  q ∈ ancestors_from pre s →
  ∃ r r', q = (pre ++ r)%string ∧ (pre ++ s)%string = (q ++ "/" ++ r')%string.
Proof.
  revert pre. induction s as [|c s IH]; intros pre; simpl.
  - intros Hin. by apply elem_of_nil in Hin.
  - rewrite elem_of_app. intros [Hin|Hin].
    + destruct (Ascii.eqb_spec c "/") as [->|]; [|by apply elem_of_nil in Hin].
      destruct (negb (Py.is_empty pre)); [|by apply elem_of_nil in Hin].
      apply list_elem_of_singleton in Hin as ->.
      exists ""%string, s. by rewrite app_empty_r.
    + apply IH in Hin as (r & r' & -> & Heq). unfold Py.snoc in *.
      exists (String c r), r'. rewrite !str_app_assoc in *. by rewrite !app_cons in *.
Qed.

Lemma ancestors_under p q : q ∈ ancestors p → is_under q p = true.
Proof.
  intros Hin. apply ancestors_from_spec in Hin as (r & r' & _ & Heq).
  apply is_under_spec. exists r'. exact Heq.
Qed.

Lemma mkdir_each_spec (ps : list string) st :
  ∃ r t', mkdir_each ps st = (r, with_fs t' st)
    ∧ ∀ q, t' !! q = fs st !! q
           ∨ (q ∈ ps ∧ fs st !! q = None ∧ t' !! q = Some Dir).
Proof.
  revert st. induction ps as [|p ps IH]; intros st; simpl.
  - exists (Ok tt), (fs st). split; [by destruct st|]. auto.
  - destruct (fs st !! p) as [[|]|] eqn:Ep.
    + exists (Raise (OSError ("Not a directory: " ++ p)%string)), (fs st).
      split; [by destruct st|]. auto.
    + destruct (IH st) as (r & t' & Hrun & Ht'). exists r, t'.
      split; [done|]. intros q. destruct (Ht' q) as [?|(? & ? & ?)]; [auto|].
      right. split; [by right|done].
    + destruct (IH (with_fs (<[p:=Dir]> (fs st)) st)) as (r & t' & Hrun & Ht').
      exists r, t'. split; [done|]. intros q. simpl in Ht'.
      destruct (decide (q = p)) as [->|Hne].
      * right. split; [left|]. split; [done|].
        destruct (Ht' p) as [->|(_ & Hn & _)].
        -- by rewrite lookup_insert_eq.
        -- by rewrite lookup_insert_eq in Hn.
      * destruct (Ht' q) as [Hq|(? & Hq & ?)]; rewrite lookup_insert_ne in Hq by done.
        -- by left.
        -- right. split; [by right|done].
Qed.

(** Making a directory, with the directories above it, keeps it tidy, and
    keeps tidy a directory none of them falls into. *)
Lemma mkdir_parents_tidy d d' st :
  (∀ q, q ∈ ancestors d ++ [d] → ¬ (q = d' ∨ is_under d' q = true)) →
  tidy (fs st) d = true → tidy (fs st) d' = true →
  tidy (fs (mkdir_parents d st).2) d = true
  ∧ tidy (fs (mkdir_parents d st).2) d' = true.
Proof.
  intros Hout Hd Hd'. unfold mkdir_parents.
  destruct (mkdir_each_spec (ancestors d ++ [d]) st) as (r & t' & -> & Ht').
  simpl. split.
  - assert (∀ q, is_under d q = true → t' !! q = fs st !! q) as Hbelow.
    { intros q Hq. destruct (Ht' q) as [?|(Hin & _)]; [done|]. exfalso.
      apply elem_of_app in Hin as [Hin|Hin].
      - apply ancestors_under, is_under_longer in Hin.
        apply is_under_longer in Hq. lia.
      - apply list_elem_of_singleton in Hin as ->. by apply is_under_ne in Hq. }
    destruct (Ht' d) as [Hsame|(_ & Hnone & Hdir)].
    + eapply tidy_ext; [|exact Hd]. intros q [->|Hq]; auto.
    + unfold tidy in *. apply orb_true_iff in Hd as [Hflat|Hgone].
      { apply flat_spec in Hflat as [? _]. congruence. }
      apply orb_true_iff. left.
      eapply flat_ext; [|exact (gone_flat_mkdir _ _ Hgone)].
      intros q [->|Hq].
      * by rewrite lookup_insert_eq.
      * rewrite lookup_insert_ne by (intros ->; by apply is_under_ne in Hq).
        by apply Hbelow.
  - eapply tidy_ext; [|exact Hd']. intros q Hq.
    destruct (Ht' q) as [?|(Hin & _)]; [done|]. exfalso. by eapply Hout.
Qed.

Lemma create_directory_tidy d d' st :
  (∀ q, q ∈ ancestors d ++ [d] → ¬ (q = d' ∨ is_under d' q = true)) →
  tidy (fs st) d = true → tidy (fs st) d' = true →
  tidy (fs (create_directory exec d st).2) d = true
  ∧ tidy (fs (create_directory exec d st).2) d' = true.
Proof.
  intros Hout Hd Hd'.
  destruct (mkdir_parents_tidy d d' st Hout Hd Hd') as [H1 H2].
  unfold create_directory, try_except, bind.
  destruct (mkdir_parents d st) as [[[]|e] st1]; simpl in *; [|done].
  pose proof (run_command_fs_same ["chown"; "super:super"; d] true st1 eq_refl) as Hfs.
  destruct (run_command exec _ true st1) as [[a|e] st2]; simpl in *; by rewrite Hfs.
Qed.

Lemma open_w_tidy p d st :
  d ≠ ""%string → p ≠ d →
  tidy (fs st) d = true → tidy (fs (open_w p st).2) d = true.
Proof.
  intros Hd0 Hne Hd. unfold open_w.
  destruct (parent_is_dir (fs st) p) eqn:Hpar; [|done].
  destruct (bool_decide (fs st !! p = Some Dir)) eqn:Hp; [done|]. simpl.
  apply bool_decide_eq_false in Hp.
  unfold tidy in *. apply orb_true_iff in Hd as [Hflat|Hgone]; apply orb_true_iff.
  - left. by apply flat_insert_file.
  - right. eapply gone_ext; [|exact Hgone]. intros q Hq.
    apply lookup_insert_ne. intros <-. destruct Hq as [?|Hq]; [done|].
    apply gone_spec in Hgone as [Hd Hall].
    unfold parent_is_dir in Hpar. apply orb_true_iff in Hpar as [He|Hdir].
    + destruct (dirname_under d p Hq) as [[Hdn _]|[Hu _]].
      * rewrite Hdn in He. by destruct d.
      * apply is_under_longer in Hu. destruct (dirname p); [simpl in Hu; lia|done].
    + apply bool_decide_eq_true in Hdir.
      destruct (dirname_under d p Hq) as [[Hdn _]|[Hu _]].
      * congruence.
      * rewrite (Hall _ Hu) in Hdir. done.
Qed.

(** *** The two run directories lie on different sides of the tree *)

Lemma sides_disjoint q : on_backup q → on_scratch q → False.
Proof. intros [r ->] [r' Heq]. rewrite !app_cons in Heq. discriminate. Qed.

Lemma backup_dir_of_eq vm ts :
  backup_dir_of vm ts = ("/mnt/Backup/" ++ (vm ++ "/" ++ ts))%string.
Proof. unfold backup_dir_of, joinpath, BACKUP_ROOT. by rewrite str_app_assoc. Qed.

Lemma temp_dir_of_eq vm ts :
  temp_dir_of vm ts = ("/storage/" ++ (vm ++ "-" ++ ts))%string.
Proof. reflexivity. Qed.

Lemma backup_dir_side vm ts q :
  q ∈ ancestors (backup_dir_of vm ts) ++ [backup_dir_of vm ts]
  ∨ is_under (backup_dir_of vm ts) q = true →
  on_backup q.
Proof.
  rewrite backup_dir_of_eq. rewrite elem_of_app, list_elem_of_singleton.
  intros [[Hin| ->]|Hu].
  - change (q ∈ "/mnt"%string :: "/mnt/Backup"%string
              :: ancestors_from "/mnt/Backup/" (vm ++ "/" ++ ts)%string) in Hin.
    rewrite !elem_of_cons in Hin. destruct Hin as [->|[->|Hin]].
    + by exists "nt"%string.
    + by exists "nt/Backup"%string.
    + apply ancestors_from_spec in Hin as (r & _ & -> & _).
      by exists ("nt/Backup/" ++ r)%string.
  - by exists ("nt/Backup/" ++ (vm ++ "/" ++ ts))%string.
  - apply is_under_spec in Hu as [n ->]. rewrite str_app_assoc.
    by exists ("nt/Backup/" ++ ((vm ++ "/" ++ ts) ++ "/" ++ n))%string.
Qed.

Lemma temp_dir_side vm ts q :
  q ∈ ancestors (temp_dir_of vm ts) ++ [temp_dir_of vm ts]
  ∨ is_under (temp_dir_of vm ts) q = true →
  on_scratch q.
Proof.
  rewrite temp_dir_of_eq. rewrite elem_of_app, list_elem_of_singleton.
  intros [[Hin| ->]|Hu].
  - change (q ∈ "/storage"%string
              :: ancestors_from "/storage/" (vm ++ "-" ++ ts)%string) in Hin.
    rewrite !elem_of_cons in Hin. destruct Hin as [->|Hin].
    + by exists "torage"%string.
    + apply ancestors_from_spec in Hin as (r & _ & -> & _).
      by exists ("torage/" ++ r)%string.
  - by exists ("torage/" ++ (vm ++ "-" ++ ts))%string.
  - apply is_under_spec in Hu as [n ->]. rewrite str_app_assoc.
    by exists ("torage/" ++ ((vm ++ "-" ++ ts) ++ "/" ++ n))%string.
Qed.

Lemma run_dirs_apart vm ts : apart (backup_dir_of vm ts) (temp_dir_of vm ts).
Proof.
  intros q Hb Ht. apply (sides_disjoint q).
  - apply (backup_dir_side vm ts). destruct Hb as [->|?]; [|by right].
    left. apply elem_of_app. right. by left.
  - apply (temp_dir_side vm ts). destruct Ht as [->|?]; [|by right].
    left. apply elem_of_app. right. by left.
Qed.

Lemma backup_dir_nonempty vm ts : backup_dir_of vm ts ≠ ""%string.
Proof. by rewrite backup_dir_of_eq. Qed.

Lemma temp_dir_nonempty vm ts : temp_dir_of vm ts ≠ ""%string.
Proof. by rewrite temp_dir_of_eq. Qed.

(** [prepare] leaves both run directories tidy, wherever it stops. *)
Lemma prepare_tidy vm ts st :
  tidy (fs st) (backup_dir_of vm ts) = true →
  tidy (fs st) (temp_dir_of vm ts) = true →
  tidy (fs (prepare exec vm (backup_dir_of vm ts) (temp_dir_of vm ts) st).2)
       (backup_dir_of vm ts) = true
  ∧ tidy (fs (prepare exec vm (backup_dir_of vm ts) (temp_dir_of vm ts) st).2)
         (temp_dir_of vm ts) = true.
Proof.
  set (bd := backup_dir_of vm ts). set (td := temp_dir_of vm ts).
  intros Hb Ht. unfold prepare, bind.
  pose proof (keeps_get_vm_disks vm st) as E1.
  destruct (get_vm_disks exec vm st) as [[disks|e] st1]; simpl in E1;
    rewrite <- E1 in Hb, Ht; [|done].
  destruct (bool_decide (disks = [])); [done|].
  pose proof (keeps_check_disk_space vm disks st1) as E2.
  destruct (check_disk_space exec vm disks st1) as [[[]|e] st2]; simpl in E2;
    rewrite <- E2 in Hb, Ht; [|done].
  destruct (create_directory_tidy bd td st2) as [Hb3 Ht3]; [|done|done|].
  { intros q Hq Hq'. apply (sides_disjoint q).
    - apply (backup_dir_side vm ts). by left.
    - apply (temp_dir_side vm ts). destruct Hq' as [->|?]; [|by right].
      left. apply elem_of_app. right. by left. }
  destruct (create_directory exec bd st2) as [[[]|e] st3]; simpl in *; [|done].
  destruct (create_directory_tidy td bd st3) as [Ht4 Hb4]; [|done|done|].
  { intros q Hq Hq'. apply (sides_disjoint q).
    - apply (backup_dir_side vm ts). destruct Hq' as [->|?]; [|by right].
      left. apply elem_of_app. right. by left.
    - apply (temp_dir_side vm ts). by left. }
  destruct (create_directory exec td st3) as [[[]|e] st4]; simpl in *; [|done].
  pose proof (open_w_tidy (bd </> (vm ++ ".xml")%string) bd st4) as Hb5.
  pose proof (open_w_tidy (bd </> (vm ++ ".xml")%string) td st4) as Ht5.
  assert (tidy (fs (open_w (bd </> (vm ++ ".xml")%string) st4).2) bd = true
          ∧ tidy (fs (open_w (bd </> (vm ++ ".xml")%string) st4).2) td = true)
    as [Hb6 Ht6].
  { split.
    - apply Hb5; [apply backup_dir_nonempty| |done].
      apply is_under_ne, join_is_under.
    - apply Ht5; [apply temp_dir_nonempty| |done].
      intros Heq. apply (run_dirs_apart vm ts (bd </> (vm ++ ".xml")%string)).
      + right. apply join_is_under.
      + by left. }
  destruct (open_w _ st4) as [[[]|e] st5]; simpl in *; done.
Qed.

(** Whatever the host does, [backup_vm] reports failure and leaves none of
    its two directories, when they were tidy at the start. *)
Lemma backup_vm_fails vm st :
  tidy (fs st) (backup_dir_of vm (now (host st))) = true →
  tidy (fs st) (temp_dir_of vm (now (host st))) = true →
  ∃ st', backup_vm exec now vm st = (Ok false, st')
         ∧ gone (fs st') (backup_dir_of vm (now (host st))) = true
         ∧ gone (fs st') (temp_dir_of vm (now (host st))) = true.
Proof.
  intros Hb Ht.
  destruct (backup_vm_cleanup vm st) as (e & st1 & Hp & ->).
  destruct (prepare_tidy vm (now (host st)) st Hb Ht) as [Hb1 Ht1].
  rewrite Hp in Hb1, Ht1. simpl in *.
  destruct (emergency_cleanup_tidy _ _ st1 (run_dirs_apart vm _) Hb1 Ht1)
    as (t' & -> & ? & ?).
  eauto.
Qed.

(** *** The file a snapshot command writes *)

Lemma app_eq_split (a y w z : string) :
  (a ++ y)%string = (w ++ z)%string →
  (∃ x, a = (w ++ x)%string ∧ z = (x ++ y)%string)
  ∨ (∃ c x, w = (a ++ String c x)%string ∧ y = (String c x ++ z)%string).
Proof.
  revert w. induction a as [|c a IH]; intros w Heq.
  - rewrite app_empty_l in Heq. destruct w as [|c' w].
    + left. exists ""%string. by rewrite !app_empty_l in *.
    + right. exists c', w. by rewrite app_empty_l.
  - destruct w as [|c' w].
    + left. exists (String c a). by rewrite !app_empty_l in *.
    + rewrite !app_cons in Heq. injection Heq as -> Heq.
      destruct (IH w Heq) as [(x & -> & ->)|(c & x & -> & ->)].
      * left. by exists x.
      * right. by exists c, x.
Qed.

Lemma after_file_eq_app (a snap p : string) :
  after_file_eq (a ++ ",file=" ++ snap)%string = Some p →
  p = snap ∨ ∃ x, p = (x ++ ",file=" ++ snap)%string.
Proof.
  induction a as [|c a IH].
  - rewrite app_empty_l.
    change (after_file_eq (",file=" ++ snap)%string) with (Some snap).
    intros [= <-]. by left.
  - rewrite app_cons.
    change (after_file_eq (String c (a ++ ",file=" ++ snap)%string))
      with (match strip_prefix ",file=" (String c (a ++ ",file=" ++ snap)%string) with
            | Some p => Some p
            | None => after_file_eq (a ++ ",file=" ++ snap)%string
            end).
    destruct (strip_prefix ",file=" (String c (a ++ ",file=" ++ snap)%string))
      as [p0|] eqn:E; [|exact IH].
    intros [= <-]. right. apply strip_prefix_Some in E.
    rewrite app_cons in E. injection E as _ E.
    apply app_eq_split in E as [(x & -> & ->)|(c' & x & Hw & Hy)]; [by exists x|].
    exfalso. rewrite app_cons in Hy. injection Hy as <- _.
    apply (f_equal (has_char ",")) in Hw. rewrite has_char_app in Hw.
    simpl in Hw. by rewrite orb_true_r in Hw.
Qed.

Lemma snapshot_name_no_option (vm disk_id : string) :
  ((vm ++ "-" ++ disk_id ++ "-snapshot") =? "--domain")%string = false
  ∧ ((vm ++ "-" ++ disk_id ++ "-snapshot") =? "--diskspec")%string = false.
Proof.
  split; apply String.eqb_neq; intros Heq.
  - apply (f_equal String.length) in Heq. rewrite !str_length_app in Heq.
    simpl in Heq. lia.
  - pose proof (f_equal String.length Heq) as Hlen. rewrite !str_length_app in Hlen.
    simpl in Hlen. destruct vm; [|simpl in Hlen; lia].
    destruct disk_id; [|simpl in Hlen; lia]. discriminate.
Qed.

Lemma snapshot_output vm disk_id snap :
  tool_output (snapshot_cmd vm disk_id snap)
  = after_file_eq (disk_id ++ ",file=" ++ snap)%string.
Proof.
  unfold snapshot_cmd, tool_output. simpl.
  destruct (snapshot_name_no_option vm disk_id) as [-> ->]. reflexivity.
Qed.

(** Past the first [u] characters of a string there is a slash, when a
    longer prefix of it ends in one. *)
Lemma slash_beyond (u v y w : string) :
  (u ++ v)%string = (y ++ "/" ++ w)%string →
  (String.length u ≤ String.length y)%nat → has_char "/" v = true.
Proof.
  revert y. induction u as [|c u IH]; intros y Heq Hlen.
  - rewrite app_empty_l in Heq. subst v. rewrite has_char_app, app_cons. simpl.
    by rewrite orb_true_r.
  - destruct y as [|c' y]; [simpl in Hlen; lia|].
    rewrite !app_cons in Heq. injection Heq as _ Heq.
    apply (IH y Heq). simpl in Hlen. lia.
Qed.

Lemma run_dirs_length vm ts :
  String.length (backup_dir_of vm ts) = (String.length (temp_dir_of vm ts) + 3)%nat.
Proof.
  rewrite backup_dir_of_eq, temp_dir_of_eq, !str_length_app. simpl. lia.
Qed.

(** *** Steps that leave the mount points alone *)

Lemma mounts_pure {A} (m : @M H A) : (∀ st, (m st).2 = st) → keeps_mounts m.
Proof. intros Hm st. by rewrite Hm. Qed.

Lemma mounts_bind {A B} (m : @M H A) (k : A → @M H B) :
  keeps_mounts m → (∀ a, keeps_mounts (k a)) → keeps_mounts (bind m k).
Proof.
  intros Hm Hk st. unfold bind. specialize (Hm st).
  destruct (m st) as [[a|e] st1]; simpl in *; [|done].
  by rewrite Hk.
Qed.

Lemma mounts_try {A} (m : @M H A) (h : exn → @M H A) :
  keeps_mounts m → (∀ e, keeps_mounts (h e)) → keeps_mounts (try_except m h).
Proof.
  intros Hm Hh st. unfold try_except. specialize (Hm st).
  destruct (m st) as [[a|e] st1]; simpl in *; [done|].
  by rewrite Hh.
Qed.

Lemma mounts_run_command cmd check : keeps_mounts (run_command exec cmd check).
Proof.
  intros st. rewrite run_command_subprocess. unfold subprocess_run.
  destruct (exec cmd (fs st) (host st)) as [[o w] h'].
  destruct o as [rc out err| |msg]; simpl; [|done..].
  by destruct (check && negb (rc =? 0)).
Qed.

Lemma mounts_unlink p b : keeps_mounts (@unlink H p b).
Proof.
  intros st. unfold unlink. destruct (fs st !! p) as [[|]|]; [done..|]. by destruct b.
Qed.

Lemma mounts_for_each {A} (l : list A) (body : A → @M H unit) :
  (∀ x, keeps_mounts (body x)) → keeps_mounts (for_each l body).
Proof.
  intros Hb. induction l as [|x l IH]; simpl; [by apply mounts_pure|].
  apply mounts_bind; [apply Hb|]. intros _. apply IH.
Qed.

Ltac mounts :=
  repeat first
    [ progress intros
    | match goal with
      | |- keeps_mounts (run_command _ _ _) => apply mounts_run_command
      | |- keeps_mounts (unlink _ _) => apply mounts_unlink
      | |- keeps_mounts (bind _ _) => apply mounts_bind
      | |- keeps_mounts (try_except _ _) => apply mounts_try
      | |- keeps_mounts (for_each _ _) => apply mounts_for_each
      | |- keeps_mounts (if ?b then _ else _) => destruct b
      | |- keeps_mounts (ret _) => apply mounts_pure; reflexivity
      | |- keeps_mounts (raise _) => apply mounts_pure; reflexivity
      | |- keeps_mounts (exists_ _) => apply mounts_pure; reflexivity
      end ].

Lemma mounts_backup_disks_from vm backup_dir temp_dir n disks :
  keeps_mounts (backup_disks_from exec vm backup_dir temp_dir n disks).
Proof.
  revert n. induction disks as [|[disk_id d] rest IH]; intros n; simpl.
  - mounts.
  - apply mounts_bind; [|intros n'; apply IH].
    unfold backup_one_disk, Path_exists, disk_steps, create_snapshot, backup_disk,
      commit_snapshot.
    destruct (negb (String.eqb (type d) "file")); [mounts|].
    destruct (Py.is_empty (source d)); mounts.
Qed.

(** *** The disks of one run *)

Section Disks.

Variables vm ts : string.
Let bd := backup_dir_of vm ts.
Let td := temp_dir_of vm ts.

Local Abbreviation ready := (ready vm ts).
Local Abbreviation below := (below vm ts).
Local Abbreviation adds S m := (@adds H vm ts _ S m).
Local Abbreviation disk_succeeds := (disk_succeeds vm ts).
Local Abbreviation succeeded_disks := (succeeded_disks vm ts).

Lemma adds_ret {A} S (a : A) : adds S (ret a).
Proof. intros st Hr. split; [done|]. auto. Qed.

Lemma adds_raise {A} S e : adds S (@raise H A e).
Proof. intros st Hr. split; [done|]. auto. Qed.

Lemma adds_bind {A B} S (m : @M H A) (k : A → @M H B) :
  adds S m → (∀ a, adds S (k a)) → adds S (bind m k).
Proof.
  intros Hm Hk st Hr. unfold bind. destruct (Hm st Hr) as [Hr1 Hq1].
  destruct (m st) as [[a|e] st1]; simpl in *; [|done].
  destruct (Hk a st1 Hr1) as [Hr2 Hq2]. split; [done|].
  intros q Hb Hq. destruct (Hq2 q Hb Hq); auto.
Qed.

Lemma adds_try {A} S (m : @M H A) (h : exn → @M H A) :
  adds S m → (∀ e, adds S (h e)) → adds S (try_except m h).
Proof.
  intros Hm Hh st Hr. unfold try_except. destruct (Hm st Hr) as [Hr1 Hq1].
  destruct (m st) as [[a|e] st1]; simpl in *; [done|].
  destruct (Hh e st1 Hr1) as [Hr2 Hq2]. split; [done|].
  intros q Hb Hq. destruct (Hq2 q Hb Hq); auto.
Qed.

Lemma adds_weaken {A} (S S' : string → Prop) (m : @M H A) :
  (∀ q, S q → S' q) → adds S m → adds S' m.
Proof.
  intros HS Hm st Hr. destruct (Hm st Hr) as [Hr1 Hq1]. split; [done|].
  intros q Hb Hq. destruct (Hq1 q Hb Hq); auto.
Qed.

Lemma adds_run_command cmd check :
  adds (λ q, tool_output cmd = Some q
             ∧ (is_child bd q = true ∨ is_child td q = true))
       (run_command exec cmd check).
Proof.
  intros st [Hb Ht]. split; [split; by apply run_command_flat|].
  intros q Hq Hsome.
  destruct (run_command_fs cmd check st) as [E|E]; rewrite E in Hsome; [by left|].
  unfold tool_write in Hsome. destruct (tool_output cmd) as [p|]; [|by left].
  destruct (parent_is_dir (fs st) p) eqn:Hpar; [|by left].
  destruct (bool_decide (fs st !! p = Some Dir)) eqn:Hp; [by left|]. simpl in Hsome.
  destruct (decide (p = q)) as [->|Hne];
    [|rewrite lookup_insert_ne in Hsome by done; by left].
  right. split; [done|].
  assert (∀ d, flat (fs st) d = true → is_under d q = true → is_child d q = true)
    as Hchild.
  { intros d Hflat Hu. destruct (dirname_under d q Hu) as [[_ Hc]|[Hu' _]]; [done|].
    exfalso. apply flat_spec in Hflat as [_ Hall].
    unfold parent_is_dir in Hpar. apply orb_true_iff in Hpar as [He|Hdir].
    - apply is_under_longer in Hu'. destruct (dirname q); [simpl in Hu'; lia|done].
    - apply bool_decide_eq_true in Hdir. by destruct (Hall _ _ Hu' Hdir). }
  destruct Hq as [Hu|Hu]; [left|right]; by apply Hchild.
Qed.

Lemma no_entry_after_file_eq (d x base name : string) :
  (String.length d ≤ String.length base + 3)%nat →
  is_child d (x ++ ",file=" ++ (base </> name))%string = false.
Proof.
  intros Hlen. destruct (is_child d _) eqn:Hc; [|done].
  apply is_child_spec in Hc as (n & Heq & Hn). unfold joinpath in Heq.
  assert (has_char "/" n = true); [|congruence].
  apply (slash_beyond (d ++ "/") n (x ++ ",file=" ++ base) name).
  - rewrite !str_app_assoc. by symmetry.
  - rewrite !str_length_app. simpl. lia.
Qed.

Lemma adds_snapshot disk_id check :
  adds (λ q, q = snap_file_of vm td disk_id)
       (run_command exec (snapshot_cmd vm disk_id (snap_file_of vm td disk_id)) check).
Proof.
  eapply adds_weaken; [|apply adds_run_command].
  intros q [Hout Hchild]. rewrite snapshot_output in Hout.
  apply after_file_eq_app in Hout as [->|[x ->]]; [done|]. exfalso.
  unfold snap_file_of in Hchild.
  rewrite !no_entry_after_file_eq in Hchild.
  - by destruct Hchild.
  - lia.
  - unfold bd, td. rewrite run_dirs_length. lia.
Qed.

Lemma adds_copy src disk_id check :
  adds (λ q, q = backup_file_of vm bd disk_id)
       (run_command exec ["cp"; "--sparse=always"; src; backup_file_of vm bd disk_id] check).
Proof.
  eapply adds_weaken; [|apply adds_run_command].
  intros q [Hout _]. simpl in Hout. congruence.
Qed.

Lemma adds_quiet cmd check S :
  tool_output cmd = None → adds S (run_command exec cmd check).
Proof.
  intros Hnone. eapply adds_weaken; [|apply adds_run_command].
  intros q [Hout _]. congruence.
Qed.

(** **** The three steps of a disk *)

Ltac adds :=
  repeat first
    [ progress intros
    | match goal with
      | |- adds _ (ret _) => apply adds_ret
      | |- adds _ (raise _) => apply adds_raise
      | |- adds _ (bind _ _) => apply adds_bind
      | |- adds _ (try_except _ _) => apply adds_try
      | |- adds _ (run_command _ _ _) => apply adds_quiet; reflexivity
      | |- adds _ (if ?b then _ else _) => destruct b
      end ].

Lemma adds_create_snapshot disk_id :
  adds (λ q, q = snap_file_of vm td disk_id)
       (create_snapshot exec vm disk_id (snap_file_of vm td disk_id)).
Proof.
  unfold create_snapshot. apply adds_try; [|adds].
  apply adds_bind; [apply adds_snapshot|adds].
Qed.

Lemma adds_backup_disk src disk_id :
  adds (λ q, q = backup_file_of vm bd disk_id)
       (backup_disk exec src (backup_file_of vm bd disk_id)).
Proof.
  unfold backup_disk. apply adds_try; [|adds].
  apply adds_bind; [apply adds_copy|adds].
Qed.

Lemma adds_commit_snapshot S disk_id : adds S (commit_snapshot exec vm disk_id).
Proof. unfold commit_snapshot. adds. Qed.

Lemma adds_disk_steps disk_id (d : disk) :
  adds (λ q, q = snap_file_of vm td disk_id ∨ q = backup_file_of vm bd disk_id)
       (disk_steps exec vm disk_id d (snap_file_of vm td disk_id)
          (backup_file_of vm bd disk_id)).
Proof.
  unfold disk_steps.
  apply adds_bind; [eapply adds_weaken; [|apply adds_create_snapshot]; auto|].
  intros _.
  apply adds_bind; [eapply adds_weaken; [|apply adds_backup_disk]; auto|].
  intros copied. destruct copied; simpl; [|adds].
  apply adds_bind; [apply adds_commit_snapshot|]. adds.
Qed.

(** **** The cleanup after a failed disk *)

Lemma unlink_if_exists d f st :
  flat (fs st) d = true → is_under d f = true →
  (e <- exists_ f ;; if e then unlink f false else ret tt) st
  = (Ok tt, with_fs (delete f (fs st)) st).
Proof.
  intros Hflat Hu. apply flat_spec in Hflat as [_ Hall].
  unfold bind, exists_, unlink, ret.
  destruct (fs st !! f) as [n|] eqn:E.
  - destruct (Hall f n Hu E) as [-> _].
    rewrite bool_decide_eq_true_2 by eauto. by rewrite E.
  - rewrite bool_decide_eq_false_2 by (intros [? ?]; done).
    rewrite delete_id by done. by destruct st.
Qed.

Lemma cleanup_failed disk_id st :
  ready st →
  ∃ t', for_each [snap_file_of vm td disk_id; backup_file_of vm bd disk_id]
            (fun f => e <- exists_ f ;; if e then unlink f false else ret tt) st
        = (Ok tt, with_fs t' st)
        ∧ ready (with_fs t' st)
        ∧ t' !! snap_file_of vm td disk_id = None
        ∧ t' !! backup_file_of vm bd disk_id = None
        ∧ ∀ q, is_Some (t' !! q) → is_Some (fs st !! q).
Proof.
  intros [Hb Ht].
  set (snap := snap_file_of vm td disk_id).
  set (backup := backup_file_of vm bd disk_id).
  assert (is_under td snap = true) as Husnap by apply join_is_under.
  assert (is_under bd backup = true) as Hubackup by apply join_is_under.
  assert (snap ≠ bd ∧ snap ≠ td ∧ backup ≠ bd ∧ backup ≠ td) as (? & ? & ? & ?).
  { repeat split.
    - intros E. apply (run_dirs_apart vm ts snap); [by left|by right].
    - by apply is_under_ne.
    - by apply is_under_ne.
    - intros E. apply (run_dirs_apart vm ts backup); [by right|by left]. }
  exists (delete backup (delete snap (fs st))).
  simpl. unfold bind at 1. rewrite (unlink_if_exists td snap st Ht Husnap).
  unfold bind at 1.
  rewrite (unlink_if_exists bd backup (with_fs (delete snap (fs st)) st));
    [|by apply flat_delete|done].
  split; [done|]. split; [split; simpl; by repeat apply flat_delete|].
  split; [|split].
  - destruct (decide (backup = snap)) as [->|Hne].
    + by rewrite lookup_delete_eq.
    + by rewrite lookup_delete_ne, lookup_delete_eq.
  - by rewrite lookup_delete_eq.
  - intros q. rewrite !lookup_delete. repeat case_decide; by intros [? ?].
Qed.

(** **** One disk, and the loop *)

Lemma backup_one_disk_state n disk_id d st :
  (backup_one_disk exec vm bd td n disk_id d st).2
  = (backup_one_disk exec vm bd td 0 disk_id d st).2.
Proof.
  unfold backup_one_disk.
  destruct (negb (type d =? "file")%string); [done|].
  unfold bind, try_except.
  destruct (Path_exists (source d) st) as [[there|e] st1]; [|done].
  destruct (negb there); [done|].
  destruct (disk_steps _ _ _ _ _ _ st1) as [[[]|e] st2]; [done|].
  by destruct (for_each _ _ st2) as [[[]|e'] st3].
Qed.

Lemma backup_one_disk_spec n disk_id d st :
  ready st →
  ∃ st', backup_one_disk exec vm bd td n disk_id d st
         = (Ok (n + (if disk_succeeds disk_id d st then 1 else 0)), st')
    ∧ ready st'
    ∧ ∀ q, below q → is_Some (fs st' !! q) →
           is_Some (fs st !! q)
           ∨ (disk_succeeds disk_id d st = true
              ∧ (q = snap_file_of vm td disk_id ∨ q = backup_file_of vm bd disk_id)).
Proof.
  intros Hr. unfold backup_one_disk, disk_succeeds.
  destruct (type d =? "file")%string; simpl;
    [|exists st; rewrite Z.add_0_r; auto].
  unfold bind at 1. unfold Path_exists.
  assert ((if Py.is_empty (source d) then ret true else exists_ (source d)) st
          = (Ok (Py.is_empty (source d)
                 || bool_decide (is_Some (fs st !! source d))), st)) as ->.
  { by destruct (Py.is_empty (source d)). }
  destruct (Py.is_empty (source d) || bool_decide (is_Some (fs st !! source d)));
    simpl; [|exists st; rewrite Z.add_0_r; auto].
  unfold try_except, bind at 1. fold bd td.
  destruct (adds_disk_steps disk_id d st Hr) as [Hr1 Hq1].
  destruct (disk_steps exec vm disk_id d (snap_file_of vm td disk_id)
              (backup_file_of vm bd disk_id) st) as [[[]|e] st1]; simpl in *.
  - exists st1. split; [done|]. split; [done|].
    intros q Hb Hq. destruct (Hq1 q Hb Hq); auto.
  - destruct (cleanup_failed disk_id st1 Hr1) as (t' & Hrun & Hr2 & Hs & Hb & Hold).
    rewrite (bind_Ok _ _ _ _ _ Hrun). exists (with_fs t' st1).
    rewrite Z.add_0_r. split; [done|]. split; [done|].
    intros q Hbelow Hq. simpl in Hq. left.
    destruct (Hq1 q Hbelow (Hold q Hq)) as [?|[->| ->]]; [done| |].
    + rewrite Hs in Hq. by destruct Hq.
    + rewrite Hb in Hq. by destruct Hq.
Qed.

Lemma backup_disks_from_spec n disks st :
  ready st →
  ∃ st', backup_disks_from exec vm bd td n disks st
         = (Ok (n + Z.of_nat (length (succeeded_disks disks st))), st')
    ∧ ready st'
    ∧ ∀ q, below q → is_Some (fs st' !! q) →
           is_Some (fs st !! q)
           ∨ ∃ disk_id, disk_id ∈ succeeded_disks disks st
               ∧ (q = snap_file_of vm td disk_id ∨ q = backup_file_of vm bd disk_id).
Proof.
  revert n st. induction disks as [|[disk_id d] rest IH]; intros n st Hr; simpl.
  - exists st. rewrite Z.add_0_r. auto.
  - destruct (backup_one_disk_spec n disk_id d st Hr) as (st1 & Hrun & Hr1 & Hq1).
    unfold bind. rewrite Hrun.
    assert (st1 = (backup_one_disk exec vm bd td 0 disk_id d st).2) as Hst1.
    { rewrite <- (backup_one_disk_state n). by rewrite Hrun. }
    fold bd td. rewrite <- Hst1.
    destruct (IH (n + (if disk_succeeds disk_id d st then 1 else 0)) st1 Hr1)
      as (st2 & Hrun2 & Hr2 & Hq2).
    exists st2. rewrite Hrun2. split.
    { f_equal. f_equal. rewrite List.length_app.
      destruct (disk_succeeds disk_id d st); simpl length; lia. }
    split; [done|].
    intros q Hb Hq. destruct (Hq2 q Hb Hq) as [Hq'|(i & Hi & Hqi)].
    + destruct (Hq1 q Hb Hq') as [?|[Hok Hqd]]; [by left|].
      right. exists disk_id. rewrite Hok. split; [|done].
      apply elem_of_app. left. by left.
    + right. exists i. split; [|done]. apply elem_of_app. by right.
Qed.

(** **** The final move *)

Lemma for_each_replace (l : list string) st :
  device_of (mounts st) td = device_of (mounts st) bd →
  fs st !! td = Some Dir →
  NoDup l → flat (fs st) bd = true →
  (∀ p, p ∈ l → fs st !! p = Some File ∧ is_child td p = true) →
  ∃ t', for_each l (fun item => replace item (bd </> basename item)) st
        = (Ok tt, with_fs t' st)
    ∧ flat t' bd = true
    ∧ (∀ q, is_under bd q = false →
            t' !! q = if bool_decide (q ∈ l) then None else fs st !! q)
    ∧ (∀ q, is_under bd q = true → is_Some (t' !! q) →
            is_Some (fs st !! q) ∨ ∃ p, p ∈ l ∧ q = bd </> basename p).
Proof.
  revert st. induction l as [|p l IH]; intros st Hdev Htd Hnd Hflat Hl.
  - exists (fs st). split; [by destruct st|]. split; [done|]. split; [|auto].
    intros q _. rewrite bool_decide_eq_false_2; [done|]. apply not_elem_of_nil.
  - apply NoDup_cons in Hnd as [Hp Hnd].
    destruct (Hl p) as [Hfile Hchild]; [left|].
    pose proof (is_child_under _ _ Hchild) as Hup.
    set (dst := bd </> basename p).
    assert (is_under bd dst = true) as Hudst by apply join_is_under.
    assert (dirname dst = bd) as Hdir.
    { unfold dst, joinpath. by rewrite dirname_join, basename_no_slash. }
    assert (p ≠ bd) as Hpbd.
    { intros ->. apply (run_dirs_apart vm ts bd); [by left|by right]. }
    pose proof Hflat as Hflat'. apply flat_spec in Hflat' as [Hbd Hall].
    assert (fs st !! dst ≠ Some Dir) as Hdst.
    { intros E. by destruct (Hall _ _ Hudst E). }
    assert (replace p dst st
            = (Ok tt, with_fs (<[dst := File]> (delete p (fs st))) st)) as Hrep.
    { unfold replace, same_mount, parent_is_dir.
      rewrite (dirname_child _ _ Hchild), Hdir, Hdev, Htd, Hbd.
      rewrite (bool_decide_eq_true_2 (Some Dir = Some Dir)) by done.
      rewrite String.eqb_refl, !orb_true_r. simpl.
      rewrite Hfile. by rewrite bool_decide_eq_false_2. }
    simpl. rewrite (bind_Ok _ _ _ _ _ Hrep).
    destruct (IH (with_fs (<[dst := File]> (delete p (fs st))) st))
      as (t' & Hrun & Hflat2 & Hout & Hin); [done| |done| |  |].
    { simpl. rewrite lookup_insert_ne, lookup_delete_ne; [done| |].
      - intros ->. by apply is_under_ne in Hup.
      - intros E. apply (run_dirs_apart vm ts dst); [by right|by left]. }
    { simpl. apply flat_insert_file.
      - by apply flat_delete.
      - unfold parent_is_dir. rewrite Hdir, lookup_delete_ne, Hbd by done.
        rewrite bool_decide_eq_true_2 by done. apply orb_true_r.
      - destruct (decide (p = dst)) as [E|Hne].
        + by rewrite <- E, lookup_delete_eq.
        + by rewrite lookup_delete_ne. }
    { intros p' Hp'. destruct (Hl p') as [Hf' Hc']; [by right|]. split; [|done].
      pose proof (is_child_under _ _ Hc') as Hu'.
      simpl. rewrite lookup_insert_ne, lookup_delete_ne; [done| |].
      - intros ->. done.
      - intros E. apply (run_dirs_apart vm ts p'); [right|by right].
        by rewrite <- E. }
    exists t'. split; [exact Hrun|]. split; [done|]. split.
    + intros q Hq. rewrite (Hout q Hq). simpl.
      assert (q ≠ dst) as Hqd by (intros ->; congruence).
      rewrite lookup_insert_ne by done.
      destruct (decide (q ∈ l)) as [Hql|Hql].
      * rewrite !bool_decide_eq_true_2; [done|by right|done].
      * rewrite (bool_decide_eq_false_2 (q ∈ l)) by done.
        destruct (decide (q = p)) as [->|Hne].
        -- rewrite bool_decide_eq_true_2 by left. by rewrite lookup_delete_eq.
        -- rewrite bool_decide_eq_false_2, lookup_delete_ne; [done|done|].
           rewrite elem_of_cons. by intros [?|?].
    + intros q Hq Hsome. destruct (Hin q Hq Hsome) as [Hold|(p' & Hp' & ->)].
      * simpl in Hold. destruct (decide (q = dst)) as [->|Hne].
        -- right. exists p. split; [left|done].
        -- rewrite lookup_insert_ne in Hold by done.
           left. rewrite lookup_delete in Hold. case_decide; [by destruct Hold|done].
      * right. exists p'. split; [by right|done].
Qed.

Lemma finish_spec n st :
  device_of (mounts st) td = device_of (mounts st) bd →
  n ≠ 0 → ready st →
  ∃ t', finish bd td n st = (Ok true, with_fs t' st)
    ∧ flat t' bd = true ∧ gone t' td = true
    ∧ ∀ q, is_under bd q = true → is_Some (t' !! q) →
           is_Some (fs st !! q)
           ∨ ∃ p, is_under td p = true ∧ is_Some (fs st !! p) ∧ q = bd </> basename p.
Proof.
  intros Hdev Hn [Hb Ht]. unfold finish.
  rewrite (proj2 (Z.eqb_neq n 0) Hn).
  pose proof Ht as Ht'. apply flat_spec in Ht' as [Htd Hall].
  assert (glob_star td st = (Ok (entries (fs st) td), st)) as Hglob.
  { unfold glob_star, td. by rewrite Htd. }
  rewrite (bind_Ok _ _ _ _ _ Hglob).
  destruct (for_each_replace (entries (fs st) td) st)
    as (t1 & Hrun & Hflat1 & Hout & Hin); [done|done|apply NoDup_entries|done| |].
  { intros p Hp. apply entries_spec in Hp as [Hc [n' Hn']].
    destruct (Hall p n' (is_child_under _ _ Hc) Hn') as [-> _]. done. }
  rewrite (bind_Ok _ _ _ _ _ Hrun).
  assert (is_under bd td = false) as Htdbd.
  { destruct (is_under bd td) eqn:E; [|done]. exfalso.
    apply (run_dirs_apart vm ts td); [by right|by left]. }
  assert (t1 !! td = Some Dir) as Htd1.
  { rewrite (Hout td Htdbd), bool_decide_eq_false_2; [done|].
    intros Hi. apply entries_spec in Hi as [Hc _].
    apply is_child_under, is_under_ne in Hc. done. }
  assert (∀ p, is_under td p = true → t1 !! p = None) as Hempty.
  { intros p Hp. rewrite Hout.
    - destruct (fs st !! p) as [n'|] eqn:E.
      + rewrite bool_decide_eq_true_2; [done|]. apply entries_spec.
        destruct (Hall p n' Hp E) as [_ Hc]. eauto.
      + by destruct (bool_decide _).
    - destruct (is_under bd p) eqn:E; [|done]. exfalso.
      apply (run_dirs_apart vm ts p); by right. }
  assert (rmdir td (with_fs t1 st) = (Ok tt, with_fs (delete td t1) st)) as Hrm.
  { unfold rmdir. simpl. rewrite Htd1.
    by rewrite (proj2 (occupied_false t1 td) Hempty). }
  rewrite (bind_Ok _ _ _ _ _ Hrm). exists (delete td t1).
  split; [done|]. split; [|split].
  - apply flat_delete; [|done]. intros E.
    apply (run_dirs_apart vm ts bd); [by left|left; by symmetry].
  - apply gone_spec. split; [by rewrite lookup_delete_eq|].
    intros p Hp. rewrite lookup_delete_ne by (intros ->; by apply is_under_ne in Hp).
    by apply Hempty.
  - intros q Hq Hsome. rewrite lookup_delete in Hsome.
    case_decide; [by destruct Hsome|].
    destruct (Hin q Hq Hsome) as [?|(p & Hp & ->)]; [by left|].
    right. exists p. apply entries_spec in Hp as [Hc Hs].
    split; [by apply is_child_under|done].
Qed.

(** **** The verdict on a run *)

Lemma ready_tidy st :
  ready st → tidy (fs st) bd = true ∧ tidy (fs st) td = true.
Proof. intros [Hb Ht]. unfold tidy, bd, td. by rewrite Hb, Ht. Qed.

(** From line 281 on, a run in which no disk succeeds returns [False] with
    both run directories removed. *)
Lemma backup_vm_disks_none disks st :
  ready st → succeeded_disks disks st = [] →
  ∃ st', backup_vm_disks exec vm bd td disks st = (Ok false, st')
    ∧ gone (fs st') bd = true ∧ gone (fs st') td = true.
Proof.
  intros Hr Es. unfold backup_vm_disks, try_except, process_disks.
  destruct (backup_disks_from_spec 0 disks st Hr) as (st1 & Hrun & Hr1 & Hq1).
  rewrite (bind_Ok _ _ _ _ _ Hrun), Es.
  simpl. unfold finish, raise. simpl.
  destruct (ready_tidy st1 Hr1) as [Hb Ht].
  destruct (emergency_cleanup_tidy bd td st1 (run_dirs_apart vm ts) Hb Ht)
    as (t' & -> & ? & ?).
  by exists (with_fs t' st1).
Qed.

(** From line 281 on, with the two run directories on one file system,
    [backup_vm] returns; it returns [True] when a disk succeeded and
    [False], with both run directories removed, when none did. *)
Lemma backup_vm_disks_spec disks st :
  device_of (mounts st) td = device_of (mounts st) bd →
  ready st →
  ∃ st', backup_vm_disks exec vm bd td disks st
         = (Ok (bool_decide (succeeded_disks disks st ≠ [])), st')
    ∧ (succeeded_disks disks st = [] →
       gone (fs st') bd = true ∧ gone (fs st') td = true)
    ∧ (succeeded_disks disks st ≠ [] →
       flat (fs st') bd = true ∧ gone (fs st') td = true
       ∧ ∀ q, is_under bd q = true → is_Some (fs st' !! q) →
           is_Some (fs st !! q)
           ∨ (∃ p, is_under td p = true ∧ is_Some (fs st !! p)
                   ∧ q = bd </> basename p)
           ∨ ∃ disk_id, disk_id ∈ succeeded_disks disks st
               ∧ (q = backup_file_of vm bd disk_id
                  ∨ q = bd </> basename (snap_file_of vm td disk_id))).
Proof.
  intros Hdev Hr. unfold backup_vm_disks, try_except, process_disks.
  destruct (backup_disks_from_spec 0 disks st Hr) as (st1 & Hrun & Hr1 & Hq1).
  pose proof (mounts_backup_disks_from vm bd td 0 disks st) as Hm.
  rewrite Hrun in Hm. simpl in Hm. rewrite <- Hm in Hdev.
  rewrite (bind_Ok _ _ _ _ _ Hrun).
  destruct (succeeded_disks disks st) as [|i l] eqn:Es.
  - rewrite bool_decide_eq_false_2 by auto.
    simpl. unfold finish, raise. simpl.
    destruct (ready_tidy st1 Hr1) as [Hb Ht].
    destruct (emergency_cleanup_tidy bd td st1 (run_dirs_apart vm ts) Hb Ht)
      as (t' & -> & ? & ?).
    exists (with_fs t' st1).
    split; [done|]. split; [done|]. done.
  - rewrite bool_decide_eq_true_2 by done.
    destruct (finish_spec (0 + Z.of_nat (length (i :: l))) st1) as
      (t' & -> & Hflat & Hgone & Hin); [done|simpl; lia|done|].
    exists (with_fs t' st1).
    split; [done|]. split; [done|]. intros _. split; [done|]. split; [done|].
    intros q Hq Hsome. simpl in Hsome.
    destruct (Hin q Hq Hsome) as [Hold|(p & Hp & Hps & ->)].
    + destruct (Hq1 q (or_introl Hq) Hold) as [?|(j & Hj & [->| ->])]; [by left| |].
      * exfalso. apply (run_dirs_apart vm ts (snap_file_of vm td j)); right;
          [done|apply join_is_under].
      * right. right. exists j. auto.
    + destruct (Hq1 p (or_intror Hp) Hps) as [?|(j & Hj & [->| ->])].
      * right. left. eauto.
      * right. right. exists j. auto.
      * exfalso. apply (run_dirs_apart vm ts (backup_file_of vm bd j)); right;
          [apply join_is_under|done].
Qed.

(** On two file systems the final move fails at its first entry: when the
    scratch directory holds something after the loop, [backup_vm] returns
    [False] from line 281 on and removes both run directories, however many
    disks succeeded. *)
Lemma backup_vm_disks_across_mounts disks st n st1 :
  device_of (mounts st) td ≠ device_of (mounts st) bd →
  ready st →
  backup_disks_from exec vm bd td 0 disks st = (Ok n, st1) →
  entries (fs st1) td ≠ [] →
  ∃ st', backup_vm_disks exec vm bd td disks st = (Ok false, st')
    ∧ gone (fs st') bd = true ∧ gone (fs st') td = true.
Proof.
  intros Hdev Hr Hrun Hne. unfold backup_vm_disks, try_except, process_disks.
  destruct (backup_disks_from_spec 0 disks st Hr) as (st1' & Hrun' & Hr1 & _).
  rewrite Hrun in Hrun'. injection Hrun' as _ <-.
  pose proof (mounts_backup_disks_from vm bd td 0 disks st) as Hm.
  rewrite Hrun in Hm. simpl in Hm. rewrite <- Hm in Hdev.
  rewrite (bind_Ok _ _ _ _ _ Hrun).
  destruct (ready_tidy st1 Hr1) as [Hb Ht].
  destruct (emergency_cleanup_tidy bd td st1 (run_dirs_apart vm ts) Hb Ht)
    as (t' & Hclean & ? & ?).
  exists (with_fs t' st1). split; [|done].
  unfold finish. destruct (n =? 0); [by rewrite <- Hclean|].
  destruct Hr1 as [Hfb Hft].
  apply flat_spec in Hfb as [Hbd _]. apply flat_spec in Hft as [Htd _].
  change (fs st1 !! bd = Some Dir) in Hbd. change (fs st1 !! td = Some Dir) in Htd.
  assert (glob_star td st1 = (Ok (entries (fs st1) td), st1)) as Hglob.
  { unfold glob_star. by rewrite Htd. }
  rewrite (bind_Ok _ _ _ _ _ Hglob).
  destruct (entries (fs st1) td) as [|p l] eqn:He; [done|].
  assert (is_child td p = true) as Hc.
  { apply (entries_spec (fs st1) td p). rewrite He. left. }
  assert (replace p (bd </> basename p) st1
          = (Raise (OSError ("Invalid cross-device link: " ++ p ++ " -> "
                             ++ (bd </> basename p))%string), st1)) as Hrep.
  { unfold replace, same_mount, parent_is_dir, joinpath.
    rewrite (dirname_child _ _ Hc), dirname_join, basename_no_slash, Htd, Hbd.
    rewrite (bool_decide_eq_true_2 (Some Dir = Some Dir)) by done.
    rewrite !orb_true_r. simpl.
    by rewrite (proj2 (String.eqb_neq _ _) Hdev). }
  simpl. unfold bind at 1. unfold bind at 1. unfold bind at 1.
  rewrite Hrep. by rewrite <- Hclean.
Qed.

End Disks.

(** *** The recovery after a failed commit *)

Lemma run_command_unchecked_exits cmd st :
  exits cmd st → ∃ r, (run_command exec cmd false st).1 = Ok r.
Proof.
  intros (rc & out & err & E). pose proof (run_command_unchecked cmd st) as Hrun.
  rewrite E in Hrun. eauto.
Qed.

Lemma run_command_unchecked_iff cmd st :
  exits cmd st ↔ ∃ r, (run_command exec cmd false st).1 = Ok r.
Proof.
  split; [apply run_command_unchecked_exits|].
  intros [r Hr]. pose proof (run_command_unchecked cmd st) as Hrun. unfold exits.
  destruct ((exec cmd (fs st) (host st)).1.1) as [rc out err| |msg];
    [eauto|congruence..].
Qed.

(** The recovery runs in one [try]: the commands that follow the failed
    block commit are the first [k] of the three, and [k] is set by the
    first of the abort and the forced stop that does not end with an exit
    status. *)
Lemma commit_snapshot_failed vm disk_id st e st1 :
  subprocess_run exec (blockcommit_cmd vm disk_id) true st = (Raise e, st1) →
  ∃ k st',
    (1 ≤ k ≤ 3)%nat
    ∧ commit_snapshot exec vm disk_id st = (Ok false, st')
    ∧ trace st' = trace st ++ blockcommit_cmd vm disk_id :: take k (recovery_cmds vm disk_id)
    ∧ (k = 1%nat ↔ ¬ exits (abort_cmd vm disk_id) st1)
    ∧ (k = 2%nat ↔
       exits (abort_cmd vm disk_id) st1
       ∧ ¬ exits (destroy_cmd vm) (run_command exec (abort_cmd vm disk_id) false st1).2)
    ∧ (k = 3%nat ↔
       exits (abort_cmd vm disk_id) st1
       ∧ exits (destroy_cmd vm) (run_command exec (abort_cmd vm disk_id) false st1).2).
Proof.
  intros Hbc. unfold commit_snapshot, try_except at 1.
  rewrite (bind_Raise _ _ _ _ _
             (eq_trans (run_command_subprocess _ _ _) Hbc)).
  assert (trace st1 = trace st ++ [blockcommit_cmd vm disk_id]) as Ht1.
  { pose proof (subprocess_run_trace (blockcommit_cmd vm disk_id) true st) as Ht.
    by rewrite Hbc in Ht. }
  unfold bind at 1, try_except, bind. unfold recovery_cmds.
  change ["virsh"; "blockjob"; vm; disk_id; "--abort"] with (abort_cmd vm disk_id).
  change ["virsh"; "destroy"; vm] with (destroy_cmd vm).
  change ["virsh"; "start"; vm] with (start_cmd vm).
  pose proof (run_command_trace (abort_cmd vm disk_id) false st1) as Ha.
  pose proof (run_command_unchecked_iff (abort_cmd vm disk_id) st1) as Hxa.
  destruct (run_command exec (abort_cmd vm disk_id) false st1) as [[ra|ea] st2];
    simpl in Ha, Hxa |- *.
  - assert (exits (abort_cmd vm disk_id) st1) as Ea by (apply Hxa; eauto).
    pose proof (run_command_trace (destroy_cmd vm) false st2) as Hd.
    pose proof (run_command_unchecked_iff (destroy_cmd vm) st2) as Hxd.
    destruct (run_command exec (destroy_cmd vm) false st2) as [[rd|ed] st3];
      simpl in Hd, Hxd |- *.
    + assert (exits (destroy_cmd vm) st2) as Ed by (apply Hxd; eauto).
      pose proof (run_command_trace (start_cmd vm) false st3) as Hs.
      destruct (run_command exec (start_cmd vm) false st3) as [[rs|es] st4];
        simpl in Hs; exists 3%nat, st4; (split; [lia|]); (split; [done|]);
        (split; [rewrite Hs, Hd, Ha, Ht1, <- !List.app_assoc; done|]);
        (split; [split; [lia|by intros Hn]|]);
        (split; [split; [lia|by intros [_ Hn]]|done]).
    + assert (¬ exits (destroy_cmd vm) st2) as Ed
        by (intros Hx; apply Hxd in Hx as [r Hr]; done).
      exists 2%nat, st3. split; [lia|]. split; [done|].
      split; [rewrite Hd, Ha, Ht1, <- !List.app_assoc; done|].
      split; [split; [lia|by intros Hn]|].
      split; [done|]. split; [lia|by intros [_ Hn]].
  - assert (¬ exits (abort_cmd vm disk_id) st1) as Ea
      by (intros Hx; apply Hxa in Hx as [r Hr]; done).
    exists 1%nat, st2. split; [lia|]. split; [done|].
    split; [rewrite Ha, Ht1, <- !List.app_assoc; done|].
    split; [done|]. split; (split; [lia|by intros [Hn _]]).
Qed.

(** Whatever the commands do, [commit_snapshot] returns. *)
Lemma commit_snapshot_returns vm disk_id st :
  ∃ b st', commit_snapshot exec vm disk_id st = (Ok b, st').
Proof.
  unfold commit_snapshot, try_except, bind.
  destruct (run_command exec _ true st) as [[r|e] st1]; [eauto|].
  destruct (run_command exec _ false st1) as [[ra|ea] st2]; [|eauto].
  destruct (run_command exec _ false st2) as [[rd|ed] st3]; [|eauto].
  destruct (run_command exec _ false st3) as [[rs|es] st4]; eauto.
Qed.

(** *** Steps that leave the exit status alone *)

Lemma status_ret {A} (a : A) : keeps_status (ret a).
Proof. by intros st. Qed.

Lemma status_raise {A} e : keeps_status (@raise H A e).
Proof. by intros st. Qed.

Lemma status_bind {A B} (m : @M H A) (k : A → @M H B) :
  keeps_status m → (∀ a, keeps_status (k a)) → keeps_status (bind m k).
Proof.
  intros Hm Hk st. unfold bind. specialize (Hm st).
  destruct (m st) as [[a|e] st1]; simpl in *; [|done].
  by rewrite Hk.
Qed.

Lemma status_try {A} (m : @M H A) (h : exn → @M H A) :
  keeps_status m → (∀ e, keeps_status (h e)) → keeps_status (try_except m h).
Proof.
  intros Hm Hh st. unfold try_except. specialize (Hm st).
  destruct (m st) as [[a|e] st1]; simpl in *; [done|].
  by rewrite Hh.
Qed.

Lemma status_run_command cmd check : keeps_status (run_command exec cmd check).
Proof. intros st. apply run_command_status. Qed.

Lemma status_item {A} (l : list A) i : keeps_status (@item H A l i).
Proof. intros st. unfold item. by destruct (l !! i). Qed.

Lemma status_int_of_str s : keeps_status (@int_of_str H s).
Proof. intros st. unfold int_of_str. by destruct (Py.int s). Qed.

Lemma status_exists p : keeps_status (@exists_ H p).
Proof. by intros st. Qed.

Lemma status_glob_star d : keeps_status (@glob_star H d).
Proof. by intros st. Qed.

Lemma status_open_w p : keeps_status (@open_w H p).
Proof. intros st. unfold open_w. by destruct (_ && _). Qed.

Lemma status_unlink p b : keeps_status (@unlink H p b).
Proof. intros st. unfold unlink. destruct (fs st !! p) as [[|]|]; [done..|]. by destruct b. Qed.

Lemma status_rmdir p : keeps_status (@rmdir H p).
Proof.
  intros st. unfold rmdir. destruct (fs st !! p) as [[|]|]; [done| |done].
  by destruct (occupied _ _).
Qed.

Lemma status_mkdir_each ps : keeps_status (@mkdir_each H ps).
Proof.
  induction ps as [|p ps IH]; intros st; simpl; [done|].
  destruct (fs st !! p) as [[|]|]; [done|apply IH|]. by rewrite IH.
Qed.

Lemma status_for_each {A} (l : list A) (body : A → @M H unit) :
  (∀ x, keeps_status (body x)) → keeps_status (for_each l body).
Proof.
  intros Hb. induction l as [|x l IH]; simpl; [apply status_ret|].
  apply status_bind; [apply Hb|]. intros _. apply IH.
Qed.

Lemma status_set_running_vms l : keeps_status (@set_running_vms H l).
Proof. by intros st. Qed.

Create HintDb status.
Hint Resolve status_ret status_raise status_item status_int_of_str status_exists
  status_glob_star status_open_w status_unlink status_rmdir status_mkdir_each
  status_run_command status_set_running_vms : status.

Ltac status :=
  repeat first
    [ progress intros
    | solve [auto with status]
    | match goal with
      | |- keeps_status (bind _ _) => apply status_bind
      | |- keeps_status (try_except _ _) => apply status_try
      | |- keeps_status (try_except_cpe _ _) => apply status_try
      | |- keeps_status (for_each _ _) => apply status_for_each
      | |- keeps_status (if ?b then _ else _) => destruct b
      | |- keeps_status (match ?o with Some _ => _ | None => _ end) => destruct o
      | |- keeps_status (let '(_, _) := ?x in _) => destruct x
      end ].

Lemma status_calculate_required_space_from total disks :
  keeps_status (calculate_required_space_from exec total disks).
Proof.
  revert total. induction disks as [|[disk_id d] rest IH]; intros total; simpl.
  - status.
  - destruct (negb (type d =? "file")%string || Py.is_empty (source d)); [apply IH|].
    status; apply IH.
Qed.

Lemma status_check_disk_space vm disks : keeps_status (check_disk_space exec vm disks).
Proof.
  unfold check_disk_space, calculate_required_space, read_available_space.
  apply status_bind; [apply status_calculate_required_space_from|]. intros required.
  destruct (required =? 0); [status|].
  apply status_bind; [status|]. intros available.
  apply status_bind.
  - unfold int_times_float. destruct (PyFloat.of_int required); [|status].
    destruct (PyFloat.to_int _); status.
  - status.
Qed.

Lemma status_prepare vm backup_dir temp_dir :
  keeps_status (prepare exec vm backup_dir temp_dir).
Proof.
  unfold prepare, get_vm_disks, create_directory, mkdir_parents.
  apply status_bind; [status|]. intros disks.
  destruct (bool_decide (disks = [])); [status|].
  apply status_bind; [apply status_check_disk_space|]. intros _.
  status. intros st. by rewrite run_command_with_stdout.
Qed.

Lemma status_emergency_cleanup backup_dir temp_dir :
  keeps_status (@emergency_cleanup H backup_dir temp_dir).
Proof. unfold emergency_cleanup. status. Qed.

Lemma status_backup_vm vm : keeps_status (backup_vm exec now vm).
Proof.
  intros st. destruct (backup_vm_cleanup vm st) as (e & st1 & Hp & ->).
  rewrite status_emergency_cleanup.
  pose proof (status_prepare vm (backup_dir_of vm (now (host st)))
                (temp_dir_of vm (now (host st))) st) as Hs.
  by rewrite Hp in Hs.
Qed.

Lemma status_check_vm_state vm : keeps_status (check_vm_state exec vm).
Proof. unfold check_vm_state. status. Qed.

Lemma status_check_qga vm : keeps_status (check_qga exec vm).
Proof. unfold check_qga. status. Qed.

Lemma status_validate_environment : keeps_status (validate_environment exec writable).
Proof.
  unfold validate_environment. status.
  intros st. by destruct (negb (writable _ _)).
Qed.

Lemma status_get_running_vms : keeps_status (get_running_vms exec).
Proof. unfold get_running_vms. status. Qed.

Lemma status_vms_to_backup selected :
  keeps_status (vms_to_backup exec writable selected).
Proof.
  unfold vms_to_backup. apply status_bind; [apply status_validate_environment|].
  intros _. destruct selected as [[|vm l]|]; status; apply status_get_running_vms.
Qed.

(** *** The batch *)

Lemma process_vm_with_spec backup vm st :
  keeps_status (backup vm) →
  ∃ st', process_vm_with exec backup vm st = (Ok tt, st')
         ∧ backup_status st'
           = if vm_succeeds backup vm st then backup_status st else 1.
Proof.
  intros Hk. unfold process_vm_with, vm_succeeds, try_except, bind.
  pose proof (status_check_vm_state vm st) as E1.
  destruct (check_vm_state exec vm st) as [[[]|e] st1]; simpl in E1; [|eauto].
  pose proof (status_check_qga vm st1) as E2.
  destruct (check_qga exec vm st1) as [[[]|e] st2]; simpl in E2; [|eauto].
  pose proof (Hk st2) as E3.
  destruct (backup vm st2) as [[[|]|e] st3]; simpl in E3; [| |]; eauto.
  exists st3. split; [done|]. congruence.
Qed.

(** The loop runs its body for every guest of the list, in order. *)
Lemma for_each_process_vm_with backup vms st :
  (∀ vm, keeps_status (backup vm)) →
  for_each vms (process_vm_with exec backup) st
  = (Ok tt, fold_left (λ s vm, (process_vm_with exec backup vm s).2) vms st)
  ∧ backup_status (fold_left (λ s vm, (process_vm_with exec backup vm s).2) vms st)
    = if forallb id (vm_outcomes backup vms st) then backup_status st else 1.
Proof.
  intros Hk. revert st. induction vms as [|vm rest IH]; intros st; simpl; [done|].
  destruct (process_vm_with_spec backup vm st (Hk vm)) as (st1 & Hrun & Hs1).
  rewrite (bind_Ok _ _ _ _ _ Hrun). rewrite Hrun. simpl.
  destruct (IH st1) as [-> Hs2]. split; [done|].
  rewrite Hs2, Hs1. destruct (vm_succeeds backup vm st); simpl; [done|].
  by destruct (forallb id _).
Qed.

Lemma main_with_spec backup selected st :
  (∀ vm, keeps_status (backup vm)) →
  backup_status st = 0 →
  ∃ code st',
    main_with exec writable backup selected st = (Ok code, st')
    ∧ match vms_to_backup exec writable selected st with
      | (Ok vms, st1) =>
          code = (if forallb id (vm_outcomes backup vms st1) then 0 else 1)
          ∧ st' = fold_left (λ s vm, (process_vm_with exec backup vm s).2) vms st1
      | (Raise _, _) => code = 1
      end.
Proof.
  intros Hk H0. unfold main_with, bind at 1, try_except, bind at 1.
  pose proof (status_vms_to_backup selected st) as Hs.
  destruct (vms_to_backup exec writable selected st) as [[vms|e] st1]; simpl in Hs.
  - destruct (for_each_process_vm_with backup vms st1 Hk) as [-> Hs2].
    eexists _, _. split; [reflexivity|]. split; [|done]. by rewrite Hs2, Hs, H0.
  - by eexists _, _.
Qed.

Lemma process_vm_spec vm st :
  ∃ st', process_vm exec now vm st = (Ok tt, st')
         ∧ backup_status st'
           = if vm_succeeds (backup_vm exec now) vm st then backup_status st else 1.
Proof. apply process_vm_with_spec, status_backup_vm. Qed.

Lemma for_each_process_vm vms st :
  ∃ st', for_each vms (process_vm exec now) st = (Ok tt, st')
         ∧ backup_status st'
           = if forallb id (vm_outcomes (backup_vm exec now) vms st)
             then backup_status st else 1.
Proof.
  destruct (for_each_process_vm_with (backup_vm exec now) vms st) as [Hrun Hs].
  { intros vm. apply status_backup_vm. }
  eauto.
Qed.

Lemma main_spec selected st :
  backup_status st = 0 →
  ∃ code st',
    main exec writable now selected st = (Ok code, st')
    ∧ match vms_to_backup exec writable selected st with
      | (Ok vms, st1) =>
          code = if forallb id (vm_outcomes (backup_vm exec now) vms st1) then 0 else 1
      | (Raise _, _) => code = 1
      end.
Proof.
  intros H0.
  destruct (main_with_spec (backup_vm exec now) selected st) as (code & st' & Hrun & Hc);
    [intros vm; apply status_backup_vm|done|].
  exists code, st'. split; [done|].
  destruct (vms_to_backup exec writable selected st) as [[vms|e] st1]; [|done].
  by destruct Hc.
Qed.

(** *** The capacity check *)

Lemma keeps_du_size src : keeps_fs (du_size src).
Proof. unfold du_size. keeps. Qed.

Lemma calculate_required_space_from_sum total disks st :
  calculate_required_space_from exec total disks st
  = du_sum total (List.filter (fun x => counted (fs st) x.2) disks) st.
Proof.
  revert total st. induction disks as [|[disk_id d] rest IH]; intros total st; simpl.
  - reflexivity.
  - unfold counted at 1. simpl.
    destruct (type d =? "file")%string; simpl; [|apply IH].
    destruct (Py.is_empty (source d)); simpl; [apply IH|].
    unfold bind at 1, exists_.
    destruct (bool_decide (is_Some (fs st !! source d))); simpl; [|apply IH].
    unfold du_size, bind, try_except.
    pose proof (run_command_fs_same ["du"; "-sm"; source d] true st eq_refl) as Hfs.
    destruct (run_command exec ["du"; "-sm"; source d] true st) as [[r|e] st1];
      simpl in Hfs; [|done].
    unfold item. destruct (Py.split (stdout r) !! 0%nat) as [w|]; [|done].
    unfold int_of_str, ret, raise. simpl. destruct (Py.int w) as [n|]; [|done].
    rewrite IH. by rewrite Hfs.
Qed.

Lemma check_disk_space_no_disks vm disks st st1 :
  calculate_required_space exec disks st = (Ok 0, st1) →
  check_disk_space exec vm disks st = (Raise no_valid_disks, st1).
Proof. intros Hc. unfold check_disk_space. by rewrite (bind_Ok _ _ _ _ _ Hc). Qed.

Lemma no_valid_disks_distinct vm required available :
  no_valid_disks ≠ insufficient_space vm required available.
Proof. unfold no_valid_disks, insufficient_space. rewrite !app_cons. discriminate. Qed.

(** *** What the capacity check looks at *)

Section Scratch.

(** Two host states that the capacity queries cannot tell apart;
    in everything else, as in the free space of the scratch storage,
    they may differ. *)
Variable same_capacity : H → H → Prop.
Hypothesis query_same : ∀ cmd t h1 h2,
  capacity_query cmd → same_capacity h1 h2 →
  (exec cmd t h1).1 = (exec cmd t h2).1
  ∧ same_capacity (exec cmd t h1).2 (exec cmd t h2).2.

Local Abbreviation alike := (alike same_capacity).
Local Abbreviation agrees m := (@agrees H same_capacity _ m).

Lemma agrees_ret {A} (a : A) : agrees (ret a).
Proof. by intros st1 st2 Ha. Qed.

Lemma agrees_raise {A} e : agrees (@raise H A e).
Proof. by intros st1 st2 Ha. Qed.

Lemma agrees_bind {A B} (m : @M H A) (k : A → @M H B) :
  agrees m → (∀ a, agrees (k a)) → agrees (bind m k).
Proof.
  intros Hm Hk st1 st2 Ha. unfold bind. destruct (Hm st1 st2 Ha) as [Hr Ha'].
  destruct (m st1) as [[a|e] st1'], (m st2) as [[a'|e'] st2'];
    simpl in *; simplify_eq; [by apply Hk|done].
Qed.

Lemma agrees_try {A} (m : @M H A) (h : exn → @M H A) :
  agrees m → (∀ e, agrees (h e)) → agrees (try_except m h).
Proof.
  intros Hm Hh st1 st2 Ha. unfold try_except. destruct (Hm st1 st2 Ha) as [Hr Ha'].
  destruct (m st1) as [[a|e] st1'], (m st2) as [[a'|e'] st2'];
    simpl in *; simplify_eq; [done|by apply Hh].
Qed.

Lemma agrees_run_command cmd check :
  capacity_query cmd → agrees (run_command exec cmd check).
Proof.
  intros Hq st1 st2 (Hfs & Hh & Ht). rewrite !run_command_subprocess.
  unfold subprocess_run. rewrite <- Hfs.
  destruct (query_same cmd (fs st1) _ _ Hq Hh) as [Hout Hh'].
  destruct (exec cmd (fs st1) (host st1)) as [[o w] h1'].
  destruct (exec cmd (fs st1) (host st2)) as [[o' w'] h2'].
  simpl in *. simplify_eq.
  destruct o' as [rc out err| |msg]; simpl;
    try destruct (check && negb (rc =? 0)); simpl;
    (split; [done|]); unfold alike; simpl; by rewrite Ht.
Qed.

Lemma agrees_item {A} (l : list A) i : agrees (@item H A l i).
Proof. intros st1 st2 Ha. unfold item. by destruct (l !! i). Qed.

Lemma agrees_int_of_str s : agrees (@int_of_str H s).
Proof. intros st1 st2 Ha. unfold int_of_str. by destruct (Py.int s). Qed.

Lemma agrees_exists p : agrees (@exists_ H p).
Proof.
  intros st1 st2 Ha. unfold exists_. split; [|done]. simpl.
  destruct Ha as [-> _]. done.
Qed.

Ltac agrees :=
  repeat first
    [ progress intros
    | match goal with
      | |- agrees (ret _) => apply agrees_ret
      | |- agrees (raise _) => apply agrees_raise
      | |- agrees (item _ _) => apply agrees_item
      | |- agrees (int_of_str _) => apply agrees_int_of_str
      | |- agrees (exists_ _) => apply agrees_exists
      | |- agrees (bind _ _) => apply agrees_bind
      | |- agrees (try_except _ _) => apply agrees_try
      | |- agrees (if ?b then _ else _) => destruct b
      | |- agrees (match ?o with Some _ => _ | None => _ end) => destruct o
      end ].

Lemma agrees_calculate_required_space_from total disks :
  agrees (calculate_required_space_from exec total disks).
Proof.
  revert total. induction disks as [|[disk_id d] rest IH]; intros total; simpl.
  - agrees.
  - destruct (negb (type d =? "file")%string || Py.is_empty (source d)); [apply IH|].
    agrees; try apply IH.
    apply agrees_run_command. left. eauto.
Qed.

Lemma agrees_check_disk_space vm disks : agrees (check_disk_space exec vm disks).
Proof.
  unfold check_disk_space, calculate_required_space, read_available_space.
  apply agrees_bind; [apply agrees_calculate_required_space_from|]. intros required.
  destruct (required =? 0); [agrees|].
  apply agrees_bind.
  { agrees. apply agrees_run_command. by right. }
  intros available. apply agrees_bind; [|agrees].
  unfold int_times_float. destruct (PyFloat.of_int required); [|agrees].
  destruct (PyFloat.to_int _); agrees.
Qed.

End Scratch.

(** The overlay of every disk lies below the scratch root. *)
Lemma snap_file_on_scratch vm ts disk_id :
  is_under TEMP_STORAGE (snap_file_of vm (temp_dir_of vm ts) disk_id) = true.
Proof.
  apply is_under_spec. unfold snap_file_of, temp_dir_of, joinpath.
  eexists. rewrite !str_app_assoc. reflexivity.
Qed.

(** No capacity query names the scratch root. *)
Lemma capacity_query_not_scratch cmd :
  capacity_query cmd → cmd ≠ ["df"; "-m"; TEMP_STORAGE].
Proof. intros [[src ->]| ->]; discriminate. Qed.

(** *** The threshold of the capacity check *)

Lemma int_times_float_2_5 (n : Z) st :
  0 < n < 2 ^ 50 →
  @int_times_float H n PyFloat.lit_2_5 st = (Ok (5 * n / 2), st).
Proof.
  intros Hn. destruct (int_times_2_5 n Hn) as (f & Hf & Hm).
  unfold int_times_float. by rewrite Hf, Hm.
Qed.

Lemma check_disk_space_spec vm disks st required st1 available st2 :
  calculate_required_space exec disks st = (Ok required, st1) →
  0 < required < 2 ^ 50 →
  read_available_space exec st1 = (Ok available, st2) →
  check_disk_space exec vm disks st
  = (if available <? 5 * required / 2
     then Raise (insufficient_space vm (5 * required / 2) available)
     else Ok tt, st2).
Proof.
  intros Hc Hr Ha. unfold check_disk_space.
  rewrite (bind_Ok _ _ _ _ _ Hc).
  rewrite (proj2 (Z.eqb_neq required 0)) by lia.
  rewrite (bind_Ok _ _ _ _ _ Ha).
  rewrite (bind_Ok _ _ _ _ _ (int_times_float_2_5 required st2 Hr)).
  by destruct (available <? 5 * required / 2).
Qed.

Lemma emergency_cleanup_not_True backup_dir temp_dir st :
  (@emergency_cleanup H backup_dir temp_dir st).1 ≠ Ok true.
Proof.
  rewrite emergency_cleanup_remove_dir. unfold bind.
  destruct (remove_dir temp_dir st) as [[[]|e] st1]; [|done].
  by destruct (remove_dir backup_dir st1) as [[[]|e] st2].
Qed.

Lemma backup_vm_not_True vm st : (backup_vm exec now vm st).1 ≠ Ok true.
Proof.
  destruct (backup_vm_cleanup vm st) as (e & st1 & _ & ->).
  apply emergency_cleanup_not_True.
Qed.

(** *** The commands of the capacity check *)

Lemma queries_pure {A} (Q : list string → Prop) (m : @M H A) :
  (∀ st, (m st).2 = st) → runs_only Q m.
Proof. intros Hm st. exists []. rewrite Hm, app_nil_r. done. Qed.

Lemma queries_bind {A B} (Q : list string → Prop) (m : @M H A) (k : A → @M H B) :
  runs_only Q m → (∀ a, runs_only Q (k a)) → runs_only Q (bind m k).
Proof.
  intros Hm Hk st. unfold bind. destruct (Hm st) as (l & Hl & Hq).
  destruct (m st) as [[a|e] st1]; simpl in *; [|eauto].
  destruct (Hk a st1) as (l' & Hl' & Hq'). exists (l ++ l').
  rewrite Hl', Hl, List.app_assoc. split; [done|]. by apply Forall_app.
Qed.

Lemma queries_try {A} (Q : list string → Prop) (m : @M H A) (h : exn → @M H A) :
  runs_only Q m → (∀ e, runs_only Q (h e)) → runs_only Q (try_except m h).
Proof.
  intros Hm Hh st. unfold try_except. destruct (Hm st) as (l & Hl & Hq).
  destruct (m st) as [[a|e] st1]; simpl in *; [eauto|].
  destruct (Hh e st1) as (l' & Hl' & Hq'). exists (l ++ l').
  rewrite Hl', Hl, List.app_assoc. split; [done|]. by apply Forall_app.
Qed.

Lemma queries_run_command (Q : list string → Prop) cmd check :
  Q cmd → runs_only Q (run_command exec cmd check).
Proof.
  intros Hq st. exists [cmd]. rewrite run_command_trace. split; [done|].
  by apply Forall_singleton.
Qed.

Ltac queries :=
  repeat first
    [ progress intros
    | match goal with
      | |- runs_only _ (bind _ _) => apply queries_bind
      | |- runs_only _ (try_except _ _) => apply queries_try
      | |- runs_only _ (if ?b then _ else _) => destruct b
      | |- runs_only _ (match ?o with Some _ => _ | None => _ end) => destruct o
      | |- runs_only _ (ret _) => apply queries_pure; reflexivity
      | |- runs_only _ (raise _) => apply queries_pure; reflexivity
      | |- runs_only _ (exists_ _) => apply queries_pure; reflexivity
      | |- runs_only _ (item ?l ?i) =>
          apply queries_pure; intros ?; unfold item; destruct (l !! i); reflexivity
      | |- runs_only _ (int_of_str ?s) =>
          apply queries_pure; intros ?; unfold int_of_str; destruct (Py.int s);
          reflexivity
      end ].

Lemma queries_calculate_required_space_from total disks :
  runs_only du_query (calculate_required_space_from exec total disks).
Proof.
  revert total. induction disks as [|[disk_id d] rest IH]; intros total; simpl.
  - queries.
  - destruct (negb (type d =? "file")%string || Py.is_empty (source d)); [apply IH|].
    queries; try apply IH.
    apply queries_run_command. unfold du_query. eauto.
Qed.

Lemma runs_only_weaken {A} (Q Q' : list string → Prop) (m : @M H A) :
  (∀ cmd, Q cmd → Q' cmd) → runs_only Q m → runs_only Q' m.
Proof.
  intros HQ Hm st. destruct (Hm st) as (l & Hl & Hq). exists l. split; [done|].
  eapply Forall_impl; eauto.
Qed.

Lemma queries_check_disk_space vm disks :
  runs_only capacity_query (check_disk_space exec vm disks).
Proof.
  unfold check_disk_space, calculate_required_space, read_available_space.
  apply queries_bind.
  { eapply runs_only_weaken; [|apply queries_calculate_required_space_from].
    intros cmd Hq. by left. }
  intros required.
  destruct (required =? 0); [queries|].
  apply queries_bind.
  { queries. apply queries_run_command. by right. }
  intros available. apply queries_bind; [|queries].
  unfold int_times_float. destruct (PyFloat.of_int required); [|queries].
  destruct (PyFloat.to_int _); queries.
Qed.

(** *** The claims of the specification *)

(** C1 (the code departs from the claim).  The export of the configuration
    never completes: the call of line 278 passes the keyword [stdout],
    which [run_command] does not take, so it raises [TypeError] before any
    command is run, in every state; hence [prepare] always raises and
    [backup_vm] never returns [True]. *)
Theorem config_export_raises vm st :
  run_command_with exec ["virsh"; "dumpxml"; vm] ["stdout"] st
  = (Raise unexpected_stdout, st)
  ∧ (∀ backup_dir temp_dir,
       ∃ e st', prepare exec vm backup_dir temp_dir st = (Raise e, st'))
  ∧ (backup_vm exec now vm st).1 ≠ Ok true.
Proof.
  split; [apply run_command_with_stdout|]. split.
  - intros backup_dir temp_dir. apply prepare_raises.
  - apply backup_vm_not_True.
Qed.

(** C3 (amended).  For a required space [required] between 1 and 2^50 MB
    and an available space [available], the capacity check raises the
    insufficient-space error exactly when [available] is below the floor
    of 2.5 * [required], and passes exactly when it is at least that
    floor. *)
Theorem check_disk_space_threshold vm disks st required st1 available st2 :
  calculate_required_space exec disks st = (Ok required, st1) →
  0 < required < 2 ^ 50 →
  read_available_space exec st1 = (Ok available, st2) →
  let required_with_buffer := Qfloor ((5 # 2) * inject_Z required) in
  check_disk_space exec vm disks st
  = (if available <? required_with_buffer
     then Raise (insufficient_space vm required_with_buffer available)
     else Ok tt, st2)
  ∧ ((check_disk_space exec vm disks st).1
     = Raise (insufficient_space vm required_with_buffer available)
     ↔ available < required_with_buffer)
  ∧ ((check_disk_space exec vm disks st).1 = Ok tt
     ↔ required_with_buffer ≤ available).
Proof.
  intros Hc Hr Ha.
  change (Qfloor ((5 # 2) * inject_Z required)) with (5 * required / 2). simpl.
  rewrite (check_disk_space_spec vm disks st required st1 available st2 Hc Hr Ha).
  destruct (Z.ltb_spec available (5 * required / 2)); simpl.
  - split; [done|]. split; split; try done; lia.
  - split; [done|]. split; split; try done; lia.
Qed.

(** C5.  When both run directories are tidy at the start (absent, as for a
    fresh timestamp, or flat), [backup_vm] returns [False] and afterwards
    neither directory nor anything below them exists; and from line 281 on,
    a run in which no disk succeeds returns [False] and leaves nothing of
    the two directories either. *)
Theorem failed_run_leaves_nothing vm st :
  tidy (fs st) (backup_dir_of vm (now (host st))) = true →
  tidy (fs st) (temp_dir_of vm (now (host st))) = true →
  (∃ st', backup_vm exec now vm st = (Ok false, st')
          ∧ gone (fs st') (backup_dir_of vm (now (host st))) = true
          ∧ gone (fs st') (temp_dir_of vm (now (host st))) = true)
  ∧ ∀ ts disks st0,
      ready vm ts st0 → succeeded_disks vm ts disks st0 = [] →
      ∃ st', backup_vm_disks exec vm (backup_dir_of vm ts) (temp_dir_of vm ts)
               disks st0 = (Ok false, st')
             ∧ gone (fs st') (backup_dir_of vm ts) = true
             ∧ gone (fs st') (temp_dir_of vm ts) = true.
Proof.
  intros Hb Ht. split; [by apply backup_vm_fails|].
  intros ts disks st0 Hr Hnone.
  apply (backup_vm_disks_none vm ts disks st0 Hr Hnone).
Qed.

(** C7 (amended).  When the block commit fails, [commit_snapshot] returns
    [False] and raises nothing, and the commands it runs after the block
    commit are the first one, two or three of: abort the block job, stop
    the guest by force, start the guest, in this order.  How many is set by
    the run itself: the abort alone when its process does not end with an
    exit status (it runs into the timeout, or cannot be started); the abort
    and the forced stop when the abort ends with an exit status and the
    forced stop does not; all three when both end with an exit status,
    whatever the status and whatever becomes of the start. *)
Theorem commit_snapshot_recovery vm disk_id st e st1 :
  subprocess_run exec (blockcommit_cmd vm disk_id) true st = (Raise e, st1) →
  ∃ k st',
    (1 ≤ k ≤ 3)%nat
    ∧ commit_snapshot exec vm disk_id st = (Ok false, st')
    ∧ trace st' = trace st ++ blockcommit_cmd vm disk_id :: take k (recovery_cmds vm disk_id)
    ∧ (k = 1%nat ↔ ¬ exits (abort_cmd vm disk_id) st1)
    ∧ (k = 2%nat ↔
       exits (abort_cmd vm disk_id) st1
       ∧ ¬ exits (destroy_cmd vm) (run_command exec (abort_cmd vm disk_id) false st1).2)
    ∧ (k = 3%nat ↔
       exits (abort_cmd vm disk_id) st1
       ∧ exits (destroy_cmd vm) (run_command exec (abort_cmd vm disk_id) false st1).2).
Proof. apply commit_snapshot_failed. Qed.

(** C9.  The required space is the sum of the sizes of the disks that are
    file-backed and whose source exists, added up in the order of the
    disks, in every run; a disk whose source is missing is left out and
    raises nothing.  When that sum is zero, the check raises the
    no-valid-disks error in the state in which the sizes were added up, so
    the free space of the destination is not read: only [du] was run.  When
    the sum is not zero, the next command is the [df] of the backup root.
    The no-valid-disks error differs from every insufficient-space
    error. *)
Theorem zero_space_is_fatal vm disks st :
  calculate_required_space exec disks st
  = du_sum 0 (List.filter (fun x => counted (fs st) x.2) disks) st
  ∧ (∀ st1,
       calculate_required_space exec disks st = (Ok 0, st1) →
       check_disk_space exec vm disks st = (Raise no_valid_disks, st1)
       ∧ ∃ l, trace st1 = trace st ++ l ∧ Forall du_query l)
  ∧ (∀ required st1,
       calculate_required_space exec disks st = (Ok required, st1) →
       required ≠ 0 →
       (check_disk_space exec vm disks st).1 ≠ Raise no_valid_disks
       ∧ trace (check_disk_space exec vm disks st).2
         = trace st1 ++ [["df"; "-m"; BACKUP_ROOT]])
  ∧ ∀ required available,
      no_valid_disks ≠ insufficient_space vm required available.
Proof.
  split; [apply calculate_required_space_from_sum|]. split; [|split].
  - intros st1 Hc. split; [by apply check_disk_space_no_disks|].
    destruct (queries_calculate_required_space_from 0 disks st) as (l & Hl & Hq).
    unfold calculate_required_space in Hc. rewrite Hc in Hl. eauto.
  - intros required st1 Hc Hne. unfold check_disk_space.
    rewrite (bind_Ok _ _ _ _ _ Hc), (proj2 (Z.eqb_neq _ _) Hne).
    unfold read_available_space. rewrite !bind_eq.
    pose proof (run_command_trace ["df"; "-m"; BACKUP_ROOT] true st1) as Ht.
    assert (∀ e m, (run_command exec ["df"; "-m"; BACKUP_ROOT] true st1).1 = Raise e →
                   e ≠ RuntimeError m) as Hnr.
    { intros e m. rewrite run_command_subprocess. unfold subprocess_run.
      destruct (exec _ (fs st1) (host st1)) as [[o w] h'].
      destruct o as [rc out err| |msg]; simpl; [|by intros [= <-]..].
      destruct (negb (rc =? 0)); [by intros [= <-]|done]. }
    destruct (run_command exec ["df"; "-m"; BACKUP_ROOT] true st1) as [[r|e] st2];
      simpl in Ht, Hnr.
    2: { split; [|done]. simpl. intros [= Hm]. by eapply (Hnr e), Hm. }
    unfold item, int_of_str, int_times_float, bind, ret, raise.
    destruct (Py.splitlines (stdout r) !! 1%nat) as [line|]; [|by split].
    destruct (Py.split line !! 3%nat) as [w|]; [|by split].
    destruct (Py.int w) as [available|]; [|by split].
    destruct (PyFloat.of_int required) as [f|]; [|by split].
    destruct (PyFloat.to_int _) as [r'|]; [|by split].
    destruct (available <? r'); [|by split].
    split; [|done]. simpl. intros [= Hm].
  - intros. apply no_valid_disks_distinct.
Qed.

(** C10.  The result of the capacity check is the same in two states with
    the same file tree whose hosts answer every capacity query (the size
    of an image, the free space of the backup root) alike, whatever else
    differs between them, the free space of the scratch storage included:
    the check runs capacity queries only, none of which names the scratch
    root, although the overlay of every disk is put below it. *)
Theorem capacity_check_ignores_scratch (same_capacity : H → H → Prop)
    vm disks st1 st2 :
  (∀ cmd t h1 h2,
     capacity_query cmd → same_capacity h1 h2 →
     (exec cmd t h1).1 = (exec cmd t h2).1
     ∧ same_capacity (exec cmd t h1).2 (exec cmd t h2).2) →
  alike same_capacity st1 st2 →
  (check_disk_space exec vm disks st1).1 = (check_disk_space exec vm disks st2).1
  ∧ alike same_capacity (check_disk_space exec vm disks st1).2
                        (check_disk_space exec vm disks st2).2
  ∧ (∃ l, trace (check_disk_space exec vm disks st1).2 = trace st1 ++ l
          ∧ Forall capacity_query l)
  ∧ (∀ cmd, capacity_query cmd → cmd ≠ ["df"; "-m"; TEMP_STORAGE])
  ∧ ∀ ts disk_id,
      is_under TEMP_STORAGE (snap_file_of vm (temp_dir_of vm ts) disk_id) = true.
Proof.
  intros Hsame Halike.
  destruct (agrees_check_disk_space same_capacity Hsame vm disks st1 st2 Halike)
    as [Hres Hafter].
  split; [done|]. split; [done|]. split; [apply queries_check_disk_space|].
  split; [apply capacity_query_not_scratch|]. intros. apply snap_file_on_scratch.
Qed.

(** *** How a command ends *)

Lemma run_command_Ok cmd check r st :
  (run_command exec cmd check st).1 = Ok r
  ↔ (exec cmd (fs st) (host st)).1.1 = Exited (returncode r) (stdout r) (stderr r)
    ∧ (check = true → returncode r = 0).
Proof.
  rewrite run_command_subprocess. unfold subprocess_run.
  destruct (exec cmd (fs st) (host st)) as [[o w] h']. simpl.
  destruct o as [rc out err| |msg]; simpl; [|by split; [|intros [? _]]..].
  destruct (check && negb (rc =? 0)) eqn:E; simpl.
  - split; [done|]. intros [[= -> _ _] Hc].
    apply andb_true_iff in E as [-> E]. rewrite Hc in E by done. done.
  - split.
    + intros [= <-]. simpl. split; [done|]. intros ->. simpl in E.
      apply negb_false_iff in E. lia.
    + intros [[= -> -> ->] _]. by destruct r.
Qed.

Lemma run_command_running cmd check st :
  running_vms (run_command exec cmd check st).2 = running_vms st.
Proof.
  rewrite run_command_subprocess. unfold subprocess_run.
  destruct (exec cmd (fs st) (host st)) as [[o w] h'].
  destruct o as [rc out err| |msg]; simpl; [|done..].
  by destruct (check && negb (rc =? 0)).
Qed.

(** A checked command returns exactly when its process exits with 0. *)
Lemma run_command_checked cmd st :
  (∃ r, (run_command exec cmd true st).1 = Ok r)
  ↔ ∃ out err, (exec cmd (fs st) (host st)).1.1 = Exited 0 out err.
Proof.
  split.
  - intros [r Hr]. apply run_command_Ok in Hr as [Hx H0].
    rewrite H0 in Hx by done. eauto.
  - intros (out & err & Hx).
    exists {| returncode := 0; stdout := out; stderr := err |}.
    apply run_command_Ok. done.
Qed.

(** *** Further properties of the script *)

(** X1.  [run_command] returns the completed process exactly when the process
    ends with an exit status and, with [check], that status is 0; without
    [check] it never raises [CalledProcessError]; and it runs the command
    once, whatever the outcome. *)
Theorem run_command_result cmd check r st :
  ((run_command exec cmd check st).1 = Ok r
   ↔ (exec cmd (fs st) (host st)).1.1 = Exited (returncode r) (stdout r) (stderr r)
     ∧ (check = true → returncode r = 0))
  ∧ (∀ rc c err,
       (run_command exec cmd false st).1 ≠ Raise (CalledProcessError rc c err))
  ∧ trace (run_command exec cmd check st).2 = trace st ++ [cmd].
Proof.
  split; [apply run_command_Ok|]. split; [|apply run_command_trace].
  intros rc c err. pose proof (run_command_unchecked cmd st) as Hrun.
  destruct ((exec cmd (fs st) (host st)).1.1); by rewrite Hrun.
Qed.

(** X2.  [check_vm_state] passes exactly when [virsh domstate] exits with
    status 0 and prints [running], white space around it aside; any other
    answer of a process that exits with 0 is the error "not running".  The
    check runs that one command and leaves the file tree alone. *)
Theorem check_vm_state_running vm st :
  ((check_vm_state exec vm st).1 = Ok tt
   ↔ ∃ out err,
       (exec ["virsh"; "domstate"; vm] (fs st) (host st)).1.1 = Exited 0 out err
       ∧ Py.strip out = "running"%string)
  ∧ (∀ out err,
       (exec ["virsh"; "domstate"; vm] (fs st) (host st)).1.1 = Exited 0 out err →
       Py.strip out ≠ "running"%string →
       (check_vm_state exec vm st).1
       = Raise (RuntimeError ("VM " ++ vm ++ " is not running")%string))
  ∧ trace (check_vm_state exec vm st).2 = trace st ++ [["virsh"; "domstate"; vm]]
  ∧ fs (check_vm_state exec vm st).2 = fs st.
Proof.
  unfold check_vm_state, bind.
  pose proof (run_command_trace ["virsh"; "domstate"; vm] true st) as Ht.
  pose proof (run_command_fs_same ["virsh"; "domstate"; vm] true st eq_refl) as Hf.
  pose proof (λ r, run_command_Ok ["virsh"; "domstate"; vm] true r st) as Hok.
  destruct (run_command exec ["virsh"; "domstate"; vm] true st) as [[r|e] st1];
    simpl in *.
  - destruct (Hok r) as [[Hx H0] _]; [done|]. rewrite H0 in Hx by done.
    destruct (String.eqb (Py.strip (stdout r)) "running") eqn:Es; simpl.
    + apply String.eqb_eq in Es. split; [|split; [|done]].
      * split; [eauto|done].
      * intros out err Hx'. rewrite Hx in Hx'. injection Hx' as <- <-. done.
    + apply String.eqb_neq in Es. split; [|split; [|done]].
      * split; [done|]. intros (out & err & Hx' & Hs).
        rewrite Hx in Hx'. injection Hx' as <- <-. done.
      * done.
  - split; [|split; [|done]].
    + split; [done|]. intros (out & err & Hx & _).
      by assert (Raise e = Ok {| returncode := 0; stdout := out; stderr := err |})
        by (by apply Hok).
    + intros out err Hx _.
      by assert (Raise e = Ok {| returncode := 0; stdout := out; stderr := err |})
        by (by apply Hok).
Qed.

(** X3.  Whatever goes wrong with the agent command (a non-zero exit status, the
    timeout, a process that cannot be started), [check_qga] raises the one
    error "QEMU Guest Agent not responding"; it passes exactly when the
    command exits with status 0, and it runs that one command. *)
Theorem check_qga_error vm st :
  ((check_qga exec vm st).1 = Ok tt
   ∨ (check_qga exec vm st).1 = Raise (RuntimeError "QEMU Guest Agent not responding"))
  ∧ ((check_qga exec vm st).1 = Ok tt
     ↔ ∃ out err,
         (exec ["virsh"; "qemu-agent-command"; vm; guest_ping] (fs st) (host st)).1.1
         = Exited 0 out err)
  ∧ trace (check_qga exec vm st).2
    = trace st ++ [["virsh"; "qemu-agent-command"; vm; guest_ping]]
  ∧ fs (check_qga exec vm st).2 = fs st.
Proof.
  unfold check_qga. simpl. unfold try_except, bind.
  set (cmd := ["virsh"; "qemu-agent-command"; vm; guest_ping]).
  pose proof (run_command_trace cmd true st) as Ht.
  pose proof (run_command_fs_same cmd true st eq_refl) as Hf.
  pose proof (run_command_checked cmd st) as Hok.
  destruct (run_command exec cmd true st) as [[r|e] st1]; simpl in *.
  - split; [by left|]. split; [|done]. split; [|done]. intros _. apply Hok. eauto.
  - split; [by right|]. split; [|done]. split; [done|].
    intros Hx. apply Hok in Hx as [r Hr]. done.
Qed.

Lemma create_snapshot_spec vm disk_id snap_path st :
  trace (create_snapshot exec vm disk_id snap_path st).2
  = trace st ++ [snapshot_cmd vm disk_id snap_path]
  ∧ "--quiesce"%string ∈ snapshot_cmd vm disk_id snap_path
  ∧ ((∃ r, (run_command exec (snapshot_cmd vm disk_id snap_path) true st).1 = Ok r
           ∧ (create_snapshot exec vm disk_id snap_path st).1 = Ok tt)
     ∨ ∃ e, (run_command exec (snapshot_cmd vm disk_id snap_path) true st).1 = Raise e
            ∧ (create_snapshot exec vm disk_id snap_path st).1
              = Raise (RuntimeError
                         ("Failed to create snapshot for disk " ++ disk_id ++ ": "
                          ++ str_exn e)%string)).
Proof.
  assert ("--quiesce"%string ∈ snapshot_cmd vm disk_id snap_path) as Hq.
  { unfold snapshot_cmd. simpl. rewrite !elem_of_cons. auto 20. }
  unfold create_snapshot, try_except, bind.
  pose proof (run_command_trace (snapshot_cmd vm disk_id snap_path) true st) as Ht.
  destruct (run_command exec (snapshot_cmd vm disk_id snap_path) true st)
    as [[r|e] st1]; simpl in *.
  - split; [done|]. split; [done|]. left. eauto.
  - split; [done|]. split; [done|]. right. eauto.
Qed.

(** X4.  [create_snapshot] runs one command, the snapshot command with the
    overlay of the disk, which asks for quiescing in every run; it returns
    when that command does, and what fails in it is raised as a
    [RuntimeError] that starts with "Failed to create snapshot for disk"
    and the name of the disk. *)
Theorem create_snapshot_command vm disk_id snap_path st :
  trace (create_snapshot exec vm disk_id snap_path st).2
  = trace st ++ [snapshot_cmd vm disk_id snap_path]
  ∧ "--quiesce"%string ∈ snapshot_cmd vm disk_id snap_path
  ∧ ((∃ r, (run_command exec (snapshot_cmd vm disk_id snap_path) true st).1 = Ok r
           ∧ (create_snapshot exec vm disk_id snap_path st).1 = Ok tt)
     ∨ ∃ e msg,
         (run_command exec (snapshot_cmd vm disk_id snap_path) true st).1 = Raise e
         ∧ (create_snapshot exec vm disk_id snap_path st).1
           = Raise (RuntimeError
                      ("Failed to create snapshot for disk " ++ disk_id ++ ": "
                       ++ msg)%string)).
Proof.
  destruct (create_snapshot_spec vm disk_id snap_path st) as (Ht & Hq & Hr).
  split; [done|]. split; [done|]. destruct Hr as [?|(e & He & Hc)]; [by left|].
  right. by exists e, (str_exn e).
Qed.

Lemma backup_disk_spec source dest st :
  ∃ b st',
    backup_disk exec source dest st = (Ok b, st')
    ∧ (b = true
       ↔ ∃ out err,
           (exec ["cp"; "--sparse=always"; source; dest] (fs st) (host st)).1.1
           = Exited 0 out err)
    ∧ trace st' = trace st ++ [["cp"; "--sparse=always"; source; dest]].
Proof.
  unfold backup_disk, try_except, bind.
  set (cmd := ["cp"; "--sparse=always"; source; dest]).
  pose proof (run_command_trace cmd true st) as Ht.
  pose proof (run_command_checked cmd st) as Hok.
  destruct (run_command exec cmd true st) as [[r|e] st1]; simpl in *.
  - exists true, st1. split; [done|]. split; [|done]. split; [|done].
    intros _. apply Hok. eauto.
  - exists false, st1. split; [done|]. split; [|done]. split; [done|].
    intros Hx. apply Hok in Hx as [r Hr]. done.
Qed.

(** X5.  [backup_disk] never raises: it returns [True] when the copy exits with
    status 0 and [False] in every other case, the timeout included, and it
    runs the one sparse copy from the source to the destination. *)
Theorem backup_disk_returns source dest st :
  ∃ b st',
    backup_disk exec source dest st = (Ok b, st')
    ∧ (b = true
       ↔ ∃ out err,
           (exec ["cp"; "--sparse=always"; source; dest] (fs st) (host st)).1.1
           = Exited 0 out err)
    ∧ trace st' = trace st ++ [["cp"; "--sparse=always"; source; dest]].
Proof. apply backup_disk_spec. Qed.

Lemma commit_snapshot_true vm disk_id st :
  ((commit_snapshot exec vm disk_id st).1 = Ok true
   ↔ ∃ out err,
       (exec (blockcommit_cmd vm disk_id) (fs st) (host st)).1.1 = Exited 0 out err)
  ∧ ((commit_snapshot exec vm disk_id st).1 = Ok true →
     trace (commit_snapshot exec vm disk_id st).2
     = trace st ++ [blockcommit_cmd vm disk_id]).
Proof.
  pose proof (run_command_checked (blockcommit_cmd vm disk_id) st) as Hok.
  destruct (run_command exec (blockcommit_cmd vm disk_id) true st)
    as [[r|e] st1] eqn:Erun.
  - assert (commit_snapshot exec vm disk_id st = (Ok true, st1)) as Hc.
    { unfold commit_snapshot, try_except. unfold blockcommit_cmd in Erun.
      by rewrite (bind_Ok _ _ _ _ _ Erun). }
    rewrite Hc. simpl.
    pose proof (run_command_trace (blockcommit_cmd vm disk_id) true st) as Ht.
    rewrite Erun in Ht. split; [|done]. split; [|done]. intros _.
    apply Hok. eauto.
  - rewrite run_command_subprocess in Erun.
    destruct (commit_snapshot_failed vm disk_id st e st1 Erun) as (k & st' & _ & Hc & _).
    rewrite Hc. simpl. split; [|done]. split; [done|].
    intros Hx. apply Hok in Hx as [r Hr]. done.
Qed.

(** X6.  [commit_snapshot] returns [True] exactly when the block commit exits
    with status 0, and then the block commit is the only command it has
    run: the guest is stopped and started only after a failed commit. *)
Theorem commit_snapshot_clean vm disk_id st :
  ((commit_snapshot exec vm disk_id st).1 = Ok true
   ↔ ∃ out err,
       (exec (blockcommit_cmd vm disk_id) (fs st) (host st)).1.1 = Exited 0 out err)
  ∧ ((commit_snapshot exec vm disk_id st).1 = Ok true →
     trace (commit_snapshot exec vm disk_id st).2
     = trace st ++ [blockcommit_cmd vm disk_id]).
Proof. apply commit_snapshot_true. Qed.

(** *** The environment *)

Lemma validate_environment_parts :
  validate_environment exec writable
  = (check_required_dirs writable ;;
     check_required_binaries exec ;;
     try_except_cpe (run_command exec ["which"; "qemu-ga"] true ;; ret tt) (ret tt)).
Proof. reflexivity. Qed.

Lemma check_dirs_loop (l : list (string * string)) st :
  let body := fun '(path, desc) =>
    e <- @exists_ H path ;;
    if negb e then raise (RuntimeError (desc ++ " not found: " ++ path)%string)
    else fun st =>
      if negb (writable path (host st))
      then (Raise (RuntimeError ("No write permissions for " ++ desc ++ ": " ++ path)%string), st)
      else (Ok tt, st) in
  (Forall (usable writable st) l.*1 ∧ for_each l body st = (Ok tt, st))
  ∨ (¬ Forall (usable writable st) l.*1
     ∧ ∃ msg, for_each l body st = (Raise (RuntimeError msg), st)).
Proof.
  intros body. induction l as [|[path desc] l IH]; simpl.
  - left. split; [constructor|done].
  - unfold bind at 1. unfold body at 1. unfold bind, exists_, usable.
    destruct (bool_decide (is_Some (fs st !! path))) eqn:E; simpl.
    + apply bool_decide_eq_true in E.
      destruct (writable path (host st)) eqn:W; simpl.
      * destruct IH as [[Hall Hrun]|[Hnot Hrun]].
        -- left. split; [|done]. constructor; [|done]. by split.
        -- right. split; [|done]. intros Hall. apply Hnot.
           by apply Forall_cons_1 in Hall as [_ ?].
      * right. split; [|eauto]. intros Hall.
        apply Forall_cons_1 in Hall as [[_ ?] _]. congruence.
    + apply bool_decide_eq_false in E.
      right. split; [|eauto]. intros Hall.
      by apply Forall_cons_1 in Hall as [[? _] _].
Qed.

Lemma check_required_dirs_spec st :
  (Forall (usable writable st) [IMAGE_DIR; BACKUP_ROOT; TEMP_STORAGE]
   ∧ check_required_dirs writable st = (Ok tt, st))
  ∨ (¬ Forall (usable writable st) [IMAGE_DIR; BACKUP_ROOT; TEMP_STORAGE]
     ∧ ∃ msg, check_required_dirs writable st = (Raise (RuntimeError msg), st)).
Proof.
  apply (check_dirs_loop
           [(IMAGE_DIR, "VM image directory"%string);
            (BACKUP_ROOT, "Backup destination"%string);
            (TEMP_STORAGE, "Temporary storage"%string)]).
Qed.

Lemma which_step (b : string) st :
  let m := try_except_cpe (run_command exec ["which"; b] true ;; ret tt)
             (raise (RuntimeError ("Required binary not found: " ++ b)%string)) in
  fs (m st).2 = fs st
  ∧ running_vms (m st).2 = running_vms st
  ∧ trace (m st).2 = trace st ++ [["which"; b]]
  ∧ ∀ rc c err, (m st).1 ≠ Raise (CalledProcessError rc c err).
Proof.
  simpl. unfold try_except_cpe, try_except, bind.
  pose proof (run_command_trace ["which"; b] true st) as Ht.
  pose proof (run_command_fs_same ["which"; b] true st eq_refl) as Hf.
  pose proof (run_command_running ["which"; b] true st) as Hv.
  destruct (run_command exec ["which"; b] true st) as [[r|e] st1]; simpl in *.
  - done.
  - destruct e; simpl; done.
Qed.

Lemma which_loop (bins : list string) st :
  let m := for_each bins (fun binary =>
             try_except_cpe (run_command exec ["which"; binary] true ;; ret tt)
               (raise (RuntimeError ("Required binary not found: " ++ binary)%string))) in
  fs (m st).2 = fs st
  ∧ running_vms (m st).2 = running_vms st
  ∧ ((m st).1 = Ok tt
     → trace (m st).2 = trace st ++ map (λ binary, ["which"; binary]) bins)
  ∧ ∀ rc c err, (m st).1 ≠ Raise (CalledProcessError rc c err).
Proof.
  revert st. induction bins as [|b bins IH]; intros st; simpl.
  - split; [done|]. split; [done|]. split; [by rewrite app_nil_r|done].
  - rewrite bind_eq. destruct (which_step b st) as (Hf & Hv & Ht & Hcpe). simpl in *.
    destruct (try_except_cpe _ _ st) as [[[]|e] st1]; simpl in *.
    + destruct (IH st1) as (Hfs & Hvs & Htr & Hcpe'). rewrite Hfs, Hf, Hvs, Hv.
      split; [done|]. split; [done|]. split; [|exact Hcpe']. intros Hok.
      rewrite (Htr Hok), Ht, <- List.app_assoc. done.
    + split; [done|]. split; [done|]. split; [done|exact Hcpe].
Qed.

Lemma check_required_binaries_spec st :
  fs (check_required_binaries exec st).2 = fs st
  ∧ running_vms (check_required_binaries exec st).2 = running_vms st
  ∧ ((check_required_binaries exec st).1 = Ok tt
     → trace (check_required_binaries exec st).2
       = trace st ++ map (λ binary, ["which"; binary]) ["virsh"; "qemu-img"; "du"; "df"; "cp"])
  ∧ ∀ rc c err, (check_required_binaries exec st).1 ≠ Raise (CalledProcessError rc c err).
Proof. apply (which_loop ["virsh"; "qemu-img"; "du"; "df"; "cp"]%string). Qed.

(** The last step of [validate_environment]: a [which qemu-ga] that exits,
    with whatever status, lets the validation pass. *)
Lemma which_qemu_ga st :
  let m := try_except_cpe (run_command exec ["which"; "qemu-ga"] true ;; ret tt) (ret tt) in
  fs (m st).2 = fs st
  ∧ running_vms (m st).2 = running_vms st
  ∧ trace (m st).2 = trace st ++ [["which"; "qemu-ga"]]
  ∧ (exits ["which"; "qemu-ga"] st → (m st).1 = Ok tt)
  ∧ ∀ rc c err, (m st).1 ≠ Raise (CalledProcessError rc c err).
Proof.
  simpl. unfold try_except_cpe, try_except, bind.
  pose proof (run_command_trace ["which"; "qemu-ga"] true st) as Ht.
  pose proof (run_command_fs_same ["which"; "qemu-ga"] true st eq_refl) as Hf.
  pose proof (run_command_running ["which"; "qemu-ga"] true st) as Hv.
  assert (exits ["which"; "qemu-ga"] st →
          ∀ e, (run_command exec ["which"; "qemu-ga"] true st).1 = Raise e →
               is_CalledProcessError e = true) as Hx.
  { intros (rc & out & err & Hx) e. rewrite run_command_subprocess.
    unfold subprocess_run.
    destruct (exec ["which"; "qemu-ga"] (fs st) (host st)) as [[o w] h'].
    simpl in Hx. subst o. simpl. destruct (rc =? 0); simpl; [done|].
    by intros [= <-]. }
  destruct (run_command exec ["which"; "qemu-ga"] true st) as [[r|e] st1]; simpl in *.
  - done.
  - destruct (is_CalledProcessError e) eqn:Ee; simpl.
    + done.
    + repeat split; try done.
      * intros Hex. specialize (Hx Hex e eq_refl). congruence.
      * intros rc c err [= ->]. done.
Qed.

Lemma validate_environment_spec st :
  (¬ Forall (usable writable st) [IMAGE_DIR; BACKUP_ROOT; TEMP_STORAGE] →
   ∃ msg, validate_environment exec writable st = (Raise (RuntimeError msg), st))
  ∧ ((validate_environment exec writable st).1 = Ok tt →
     Forall (usable writable st) [IMAGE_DIR; BACKUP_ROOT; TEMP_STORAGE]
     ∧ trace (validate_environment exec writable st).2 = trace st ++ which_cmds)
  ∧ fs (validate_environment exec writable st).2 = fs st
  ∧ running_vms (validate_environment exec writable st).2 = running_vms st
  ∧ ∀ rc c err,
      (validate_environment exec writable st).1 ≠ Raise (CalledProcessError rc c err).
Proof.
  destruct (check_required_dirs_spec st) as [[Hall Hd]|[Hnot [msg Hd]]].
  - split; [done|].
    destruct (check_required_binaries_spec st) as (Hfs & Hvs & Htr & Hcpe).
    destruct (check_required_binaries exec st) as [[[]|e] st1] eqn:Hb; simpl in *.
    + destruct (which_qemu_ga st1) as (Hfs' & Hvs' & Htr' & _ & Hcpe'). simpl in *.
      assert (validate_environment exec writable st
              = try_except_cpe (run_command exec ["which"; "qemu-ga"] true ;; ret tt)
                  (ret tt) st1) as ->
        by (by rewrite validate_environment_parts, bind_eq, Hd, bind_eq, Hb).
      split; [|split; [congruence|split; [congruence|exact Hcpe']]].
      intros _. split; [done|].
      rewrite Htr', Htr by done. by rewrite <- List.app_assoc.
    + assert (validate_environment exec writable st = (Raise e, st1)) as ->
        by (by rewrite validate_environment_parts, bind_eq, Hd, bind_eq, Hb).
      simpl. split; [done|]. split; [done|]. split; [done|exact Hcpe].
  - assert (validate_environment exec writable st = (Raise (RuntimeError msg), st)) as ->
      by (by rewrite validate_environment_parts, bind_eq, Hd).
    simpl. split; [eauto|]. split; [done|]. split; [done|]. split; [done|]. done.
Qed.

(** X7.  [validate_environment] stops at the first required directory that is
    missing or may not be written to, with a [RuntimeError] and before any
    command is run; a path that exists passes, a regular file included.
    When it passes, it has run [which] once for each of the six binaries,
    in the order of the source.  It never changes the file tree, and no
    [CalledProcessError] leaves it. *)
Theorem validate_environment_dirs st :
  (¬ Forall (usable writable st) [IMAGE_DIR; BACKUP_ROOT; TEMP_STORAGE] →
   ∃ msg, validate_environment exec writable st = (Raise (RuntimeError msg), st))
  ∧ ((validate_environment exec writable st).1 = Ok tt →
     Forall (usable writable st) [IMAGE_DIR; BACKUP_ROOT; TEMP_STORAGE]
     ∧ trace (validate_environment exec writable st).2 = trace st ++ which_cmds)
  ∧ fs (validate_environment exec writable st).2 = fs st
  ∧ ∀ rc c err,
      (validate_environment exec writable st).1 ≠ Raise (CalledProcessError rc c err).
Proof.
  destruct (validate_environment_spec st) as (Hd & Hok & Hfs & _ & Hcpe). done.
Qed.

(** X8.  A missing guest agent binary does not fail the validation: once the
    required directories and the five required binaries are found, it
    passes whenever [which qemu-ga] exits, whatever its status. *)
Theorem qemu_ga_is_optional st st1 :
  (check_required_dirs writable ;; check_required_binaries exec) st = (Ok tt, st1) →
  exits ["which"; "qemu-ga"] st1 →
  ∃ st2, validate_environment exec writable st = (Ok tt, st2)
         ∧ trace st2 = trace st1 ++ [["which"; "qemu-ga"]].
Proof.
  intros Hpre Hex. rewrite validate_environment_parts.
  unfold bind in *. destruct (check_required_dirs writable st) as [[[]|e] st0]; [|done].
  destruct (check_required_binaries exec st0) as [[[]|e] st0']; [|done].
  injection Hpre as ->.
  destruct (which_qemu_ga st1) as (_ & _ & Htr & Hok & _). simpl in *.
  specialize (Hok Hex).
  destruct (try_except_cpe _ _ st1) as [r st2]. simpl in *. subst r. eauto.
Qed.

(** *** The batch, guest by guest *)

Lemma check_vm_state_effect vm st :
  trace (check_vm_state exec vm st).2 = trace st ++ [domstate_cmd vm]
  ∧ fs (check_vm_state exec vm st).2 = fs st.
Proof.
  unfold check_vm_state, domstate_cmd. rewrite bind_eq.
  pose proof (run_command_trace ["virsh"; "domstate"; vm] true st) as Ht.
  pose proof (run_command_fs_same ["virsh"; "domstate"; vm] true st eq_refl) as Hf.
  destruct (run_command exec ["virsh"; "domstate"; vm] true st) as [[r|e] st1];
    simpl in *; [|done].
  by destruct (negb _).
Qed.

Lemma check_qga_effect vm st :
  trace (check_qga exec vm st).2 = trace st ++ [agent_cmd vm]
  ∧ fs (check_qga exec vm st).2 = fs st.
Proof.
  unfold check_qga, agent_cmd. simpl. unfold try_except. rewrite bind_eq.
  pose proof (run_command_trace ["virsh"; "qemu-agent-command"; vm; guest_ping] true st)
    as Ht.
  pose proof (run_command_fs_same ["virsh"; "qemu-agent-command"; vm; guest_ping] true st
                eq_refl) as Hf.
  by destruct (run_command exec _ true st) as [[r|e] st1].
Qed.

Lemma process_vm_raise {A} (m : @M H A) (k : A → @M H unit) st e st1 :
  m st = (Raise e, st1) →
  try_except (bind m k) (fun _ => set_backup_status 1) st
  = (Ok tt, mkState (fs st1) (host st1) (trace st1) 1 (running_vms st1) (mounts st1)).
Proof. intros Hm. unfold try_except. by rewrite bind_eq, Hm. Qed.

(** X9.  A guest that does not pass the two checks is left alone: [process_vm]
    records the failure in the exit status, and the only commands it has
    run are the query of the state and, when the state was [running], the
    ping of the agent; the file tree is as before. *)
Theorem failed_check_stops_vm vm st e st1 :
  (check_vm_state exec vm ;; check_qga exec vm) st = (Raise e, st1) →
  ∃ st', process_vm exec now vm st = (Ok tt, st')
         ∧ backup_status st' = 1
         ∧ fs st' = fs st
         ∧ (trace st' = trace st ++ [domstate_cmd vm]
            ∨ trace st' = trace st ++ [domstate_cmd vm; agent_cmd vm]).
Proof.
  intros Hpre. rewrite bind_eq in Hpre.
  destruct (check_vm_state_effect vm st) as [Ht Hf].
  destruct (check_vm_state exec vm st) as [[[]|e0] st0] eqn:Hs; simpl in *.
  - destruct (check_qga_effect vm st0) as [Ht' Hf']. rewrite Hpre in Ht', Hf'.
    simpl in *. eexists. split.
    + unfold process_vm, process_vm_with, try_except.
      rewrite bind_eq, Hs, bind_eq, Hpre. reflexivity.
    + simpl. split; [done|]. split; [congruence|]. right.
      rewrite Ht', Ht, <- List.app_assoc. done.
  - injection Hpre as -> ->. eexists. split.
    + unfold process_vm, process_vm_with. apply (process_vm_raise _ _ _ _ _ Hs).
    + simpl. split; [done|]. split; [done|]. by left.
Qed.

Lemma vm_never_succeeds vm st : vm_succeeds (backup_vm exec now) vm st = false.
Proof.
  unfold vm_succeeds. rewrite bind_eq.
  destruct (check_vm_state exec vm st) as [[[]|e] st1]; [|done].
  rewrite bind_eq. destruct (check_qga exec vm st1) as [[[]|e] st2]; [|done].
  pose proof (backup_vm_not_True vm st2) as Hb.
  destruct (backup_vm exec now vm st2) as [[[]|e] st3]; done.
Qed.

Lemma process_vm_fails vm st :
  ∃ st', process_vm exec now vm st = (Ok tt, st') ∧ backup_status st' = 1.
Proof.
  destruct (process_vm_spec vm st) as (st' & Hrun & Hs).
  rewrite vm_never_succeeds in Hs. eauto.
Qed.

Lemma for_each_process_vm_fails vm rest st :
  ∃ st', for_each (vm :: rest) (process_vm exec now) st = (Ok tt, st')
         ∧ backup_status st' = 1.
Proof.
  destruct (for_each_process_vm (vm :: rest) st) as (st' & Hrun & Hs).
  simpl in Hs. rewrite vm_never_succeeds in Hs. simpl in Hs. eauto.
Qed.

(** X10.  Every guest that [main] processes is recorded as failed, since
    [backup_vm] never returns [True]: once the list of guests is obtained
    and is not empty, the status given to [sys.exit] is 1. *)
Theorem processed_guest_exit_status selected vm rest st st1 :
  vms_to_backup exec writable selected st = (Ok (vm :: rest), st1) →
  (∀ vm0 st0, backup_status (process_vm exec now vm0 st0).2 = 1)
  ∧ ∃ st', main exec writable now selected st = (Ok 1, st').
Proof.
  intros Hvms. split.
  - intros vm0 st0. destruct (process_vm_fails vm0 st0) as (st' & -> & Hs). done.
  - destruct (for_each_process_vm_fails vm rest st1) as (st' & Hrun & Hs).
    exists st'. unfold main, main_with, try_except.
    change (process_vm_with exec (backup_vm exec now)) with (process_vm exec now).
    rewrite bind_eq, bind_eq, Hvms, Hrun.
    simpl. by rewrite Hs.
Qed.

(** *** The list of guests *)

Lemma get_running_vms_effect st :
  trace (get_running_vms exec st).2
  = trace st ++ [["virsh"; "list"; "--name"; "--state-running"]]
  ∧ running_vms (get_running_vms exec st).2 = running_vms st
  ∧ ∀ vms, (get_running_vms exec st).1 = Ok vms → Forall (λ vm, excluded vm = false) vms.
Proof.
  unfold get_running_vms. rewrite bind_eq.
  pose proof (run_command_trace ["virsh"; "list"; "--name"; "--state-running"] true st)
    as Ht.
  pose proof (run_command_running ["virsh"; "list"; "--name"; "--state-running"] true st)
    as Hv.
  destruct (run_command exec _ true st) as [[r|e] st1]; simpl in *; [|done].
  split; [done|]. split; [done|]. intros vms [= <-].
  apply Forall_forall. intros vm Hvm. apply list_elem_of_In in Hvm.
  apply filter_In in Hvm as [_ Hvm]. by apply negb_true_iff in Hvm.
Qed.

(** X11.  A list of guests given to [main] is taken as it is, once the
    environment is validated: the exclusion rules are not applied to it and
    the running guests are not listed.  Without a list, or with an empty
    one, the guests are the list [get_running_vms] returns in the state the
    validation left, that is the running ones that no exclusion rule names,
    and the field [running_vms] is set to that list. *)
Theorem vms_to_backup_selection selected st vms st' :
  vms_to_backup exec writable selected st = (Ok vms, st') →
  match selected with
  | Some (v :: l) =>
      vms = v :: l
      ∧ validate_environment exec writable st = (Ok tt, st')
      ∧ running_vms st' = running_vms st
      ∧ trace st' = trace st ++ which_cmds
  | _ =>
      (∃ st1 st2,
         validate_environment exec writable st = (Ok tt, st1)
         ∧ get_running_vms exec st1 = (Ok vms, st2)
         ∧ st' = mkState (fs st2) (host st2) (trace st2) (backup_status st2) vms
                         (mounts st2))
      ∧ running_vms st' = vms
      ∧ Forall (λ vm, excluded vm = false) vms
      ∧ trace st'
        = trace st ++ which_cmds ++ [["virsh"; "list"; "--name"; "--state-running"]]
  end.
Proof.
  intros Hrun. unfold vms_to_backup in Hrun. rewrite bind_eq in Hrun.
  destruct (validate_environment_spec st) as (_ & Hok & _ & Hv & _).
  destruct (validate_environment exec writable st) as [[[]|e] st1]; [|done].
  destruct (Hok eq_refl) as [_ Ht]. simpl in *.
  assert (∀ st2, (vms0 <- get_running_vms exec ;;
                  @set_running_vms H vms0 ;; ret vms0) st1 = (Ok vms, st2) →
          (∃ st1' st2',
             (Ok (), st1) = (Ok (), st1')
             ∧ get_running_vms exec st1' = (Ok vms, st2')
             ∧ st2 = mkState (fs st2') (host st2') (trace st2') (backup_status st2') vms
                             (mounts st2'))
          ∧ running_vms st2 = vms
          ∧ Forall (λ vm, excluded vm = false) vms
          ∧ trace st2
            = trace st ++ which_cmds ++ [["virsh"; "list"; "--name"; "--state-running"]])
    as Hdisc.
  { intros st2 Hd. rewrite bind_eq in Hd.
    destruct (get_running_vms_effect st1) as (Ht' & _ & Hex).
    destruct (get_running_vms exec st1) as [[vms0|e] st3] eqn:Hg; [|done].
    injection Hd as <- <-. simpl in *. split; [by exists st1, st3|].
    split; [done|]. split; [by apply Hex|].
    by rewrite Ht', Ht, <- List.app_assoc. }
  destruct selected as [[|v l]|]; [by apply Hdisc| |by apply Hdisc].
  injection Hrun as <- <-. done.
Qed.

(** *** What the script reads from its commands *)

Lemma running_bind {A B} (m : @M H A) (k : A → @M H B) :
  keeps_running m → (∀ a, keeps_running (k a)) → keeps_running (bind m k).
Proof.
  intros Hm Hk st. rewrite bind_eq. specialize (Hm st).
  destruct (m st) as [[a|e] st1]; simpl in *; [|done].
  by rewrite Hk.
Qed.

Lemma running_try {A} (m : @M H A) (h : exn → @M H A) :
  keeps_running m → (∀ e, keeps_running (h e)) → keeps_running (try_except m h).
Proof.
  intros Hm Hh st. unfold try_except. specialize (Hm st).
  destruct (m st) as [[a|e] st1]; simpl in *; [done|].
  by rewrite Hh.
Qed.

Lemma running_run_command cmd check : keeps_running (run_command exec cmd check).
Proof. intros st. apply run_command_running. Qed.

Lemma running_pure {A} (m : @M H A) : (∀ st, (m st).2 = st) → keeps_running m.
Proof. intros Hm st. by rewrite Hm. Qed.

Ltac running :=
  repeat first
    [ progress intros
    | match goal with
      | |- keeps_running (run_command _ _ _) => apply running_run_command
      | |- keeps_running (bind _ _) => apply running_bind
      | |- keeps_running (try_except _ _) => apply running_try
      | |- keeps_running (if ?b then _ else _) => destruct b
      | |- keeps_running (ret _) => apply running_pure; reflexivity
      | |- keeps_running (raise _) => apply running_pure; reflexivity
      | |- keeps_running (exists_ _) => apply running_pure; reflexivity
      | |- keeps_running (item ?l ?i) =>
          apply running_pure; intros ?; unfold item; destruct (l !! i); reflexivity
      | |- keeps_running (int_of_str ?s) =>
          apply running_pure; intros ?; unfold int_of_str; destruct (Py.int s);
          reflexivity
      | |- keeps_running (int_times_float ?n ?x) =>
          apply running_pure; intros ?; unfold int_times_float;
          destruct (PyFloat.of_int n) as [f|]; [|reflexivity];
          destruct (PyFloat.to_int (PyFloat.mul f x)); reflexivity
      end ].

Lemma running_get_vm_disks vm : keeps_running (get_vm_disks exec vm).
Proof. unfold get_vm_disks. running. Qed.

Lemma running_calculate_required_space_from total disks :
  keeps_running (calculate_required_space_from exec total disks).
Proof.
  revert total. induction disks as [|[disk_id d] rest IH]; intros total; simpl.
  - running.
  - destruct (negb (String.eqb (type d) "file") || Py.is_empty (source d)); [apply IH|].
    running; apply IH.
Qed.

Lemma running_check_disk_space vm disks : keeps_running (check_disk_space exec vm disks).
Proof.
  unfold check_disk_space, calculate_required_space, read_available_space.
  running. apply running_calculate_required_space_from.
Qed.

Lemma status_get_vm_disks vm : keeps_status (get_vm_disks exec vm).
Proof. unfold get_vm_disks. status. Qed.

(** X12.  The names [get_running_vms] returns are the lines [virsh list] printed,
    stripped of the white space around them, without the empty ones and
    without those that contain an entry of [EXCLUDE_VMS]; a name is
    returned in its stripped form. *)
Theorem get_running_vms_names st vms st' :
  get_running_vms exec st = (Ok vms, st') →
  ∃ r, run_command exec ["virsh"; "list"; "--name"; "--state-running"] true st
       = (Ok r, st')
    ∧ (∀ vm, vm ∈ vms
             ↔ (∃ line, line ∈ Py.splitlines (stdout r) ∧ Py.strip line = vm)
               ∧ vm ≠ ""%string ∧ excluded vm = false)
    ∧ Forall (λ vm, Py.strip vm = vm) vms.
Proof.
  unfold get_running_vms. rewrite bind_eq.
  destruct (run_command exec _ true st) as [[r|e] st1]; [|done].
  intros [= <- <-]. exists r. split; [done|]. split.
  - intros vm. apply (filtered_names (stdout r) vm).
  - apply Forall_forall. intros vm. apply (filtered_names (stdout r) vm).
Qed.

(** X13.  The dictionary [get_vm_disks] returns has one entry for a target, its
    [target] field is its key, and its four fields are words, so a source
    path is cut at its first white space; it has at most as many entries
    as [virsh domblklist] printed lines after the two of the header. *)
Theorem get_vm_disks_entries vm st disks st' :
  get_vm_disks exec vm st = (Ok disks, st') →
  NoDup disks.*1
  ∧ Forall (λ x, parsed_entry x.1 x.2) disks
  ∧ ∃ r, run_command exec ["virsh"; "domblklist"; vm; "--details"] true st = (Ok r, st')
         ∧ (length disks ≤ length (Py.splitlines (stdout r)) - 2)%nat.
Proof.
  unfold get_vm_disks. rewrite bind_eq.
  destruct (run_command exec _ true st) as [[r|e] st1]; [|done].
  intros [= <- <-]. destruct (parse_disks_spec (stdout r)) as (Hn & Hf & Hl & _).
  split; [done|]. split; [done|]. eauto.
Qed.

(** X14.  When no line after the header of [virsh domblklist] has four fields,
    there is no disk, and [backup_vm] gives up before the capacity check:
    the preparation raises "No disks found for VM", having run that one
    command and made no directory. *)
Theorem no_disk_lines vm backup_dir temp_dir st r st1 :
  run_command exec ["virsh"; "domblklist"; vm; "--details"] true st = (Ok r, st1) →
  Forall (λ line, (length (Py.split line) ≤ 3)%nat) (drop 2 (Py.splitlines (stdout r))) →
  get_vm_disks exec vm st = (Ok [], st1)
  ∧ prepare exec vm backup_dir temp_dir st
    = (Raise (RuntimeError "No disks found for VM"), st1)
  ∧ fs st1 = fs st
  ∧ trace st1 = trace st ++ [["virsh"; "domblklist"; vm; "--details"]].
Proof.
  intros Hrun Hlines.
  assert (get_vm_disks exec vm st = (Ok [], st1)) as Hd.
  { unfold get_vm_disks. rewrite bind_eq, Hrun.
    destruct (parse_disks_spec (stdout r)) as (_ & _ & _ & He). by rewrite He. }
  split; [done|]. split; [unfold prepare; by rewrite bind_eq, Hd|].
  pose proof (run_command_trace ["virsh"; "domblklist"; vm; "--details"] true st) as Ht.
  pose proof (run_command_fs_same ["virsh"; "domblklist"; vm; "--details"] true st eq_refl)
    as Hf.
  rewrite Hrun in Ht, Hf. done.
Qed.

(** X15.  When [df] exits with 0 but its second line has no fourth word (there
    is no second line, or a long device name has pushed the numbers to a
    third one), the capacity check raises [IndexError]; when that word is
    no number, it raises [ValueError]: neither is the error of
    insufficient space. *)
Theorem df_output_read vm disks st required st1 r st2 :
  calculate_required_space exec disks st = (Ok required, st1) →
  required ≠ 0 →
  run_command exec ["df"; "-m"; BACKUP_ROOT] true st1 = (Ok r, st2) →
  match available_field (stdout r) with
  | None =>
      check_disk_space exec vm disks st
      = (Raise (IndexError "list index out of range"), st2)
  | Some w =>
      Py.int w = None →
      ∃ msg, check_disk_space exec vm disks st = (Raise (ValueError msg), st2)
  end.
Proof.
  intros Hc Hr Hdf. apply Z.eqb_neq in Hr.
  unfold check_disk_space. rewrite bind_eq, Hc, Hr, bind_eq.
  unfold read_available_space. rewrite bind_eq, Hdf, bind_eq.
  unfold available_field, item.
  destruct (Py.splitlines (stdout r) !! 1%nat) as [line|]; simpl; [|done].
  rewrite bind_eq. destruct (Py.split line !! 3%nat) as [w|]; simpl; [|done].
  intros Hw. unfold int_of_str. rewrite Hw. simpl. eauto.
Qed.

(** X16.  Listing the disks and checking the capacity only look: whatever they
    return or raise, the file tree, the exit status and the list of
    running guests are as before. *)
Theorem queries_change_nothing vm disks st :
  (fs (get_vm_disks exec vm st).2 = fs st
   ∧ backup_status (get_vm_disks exec vm st).2 = backup_status st
   ∧ running_vms (get_vm_disks exec vm st).2 = running_vms st)
  ∧ (fs (check_disk_space exec vm disks st).2 = fs st
     ∧ backup_status (check_disk_space exec vm disks st).2 = backup_status st
     ∧ running_vms (check_disk_space exec vm disks st).2 = running_vms st).
Proof.
  split; (split; [|split]).
  - apply keeps_get_vm_disks.
  - apply status_get_vm_disks.
  - apply running_get_vm_disks.
  - apply keeps_check_disk_space.
  - apply status_check_disk_space.
  - apply running_check_disk_space.
Qed.

(** *** The run directories *)

Lemma mkdir_each_keeps (ps : list string) st q n :
  fs st !! q = Some n → fs (mkdir_each ps st).2 !! q = Some n.
Proof.
  intros Hq. destruct (mkdir_each_spec ps st) as (r & t' & -> & Ht'). simpl.
  destruct (Ht' q) as [->|(_ & Hn & _)]; [done|congruence].
Qed.

Lemma mkdir_each_ok (ps : list string) st :
  (mkdir_each ps st).1 = Ok tt → ∀ q, q ∈ ps → fs (mkdir_each ps st).2 !! q = Some Dir.
Proof.
  revert st. induction ps as [|p ps IH]; intros st Hrun q Hq.
  - by apply elem_of_nil in Hq.
  - simpl in *. destruct (fs st !! p) as [[|]|] eqn:Ep; [done| |].
    + apply elem_of_cons in Hq as [->|Hq]; [by apply mkdir_each_keeps|by apply IH].
    + apply elem_of_cons in Hq as [->|Hq]; [|by apply IH].
      apply mkdir_each_keeps. simpl. by rewrite lookup_insert_eq.
Qed.

Lemma create_directory_fs path st :
  fs (create_directory exec path st).2 = fs (mkdir_parents path st).2.
Proof.
  unfold create_directory, try_except. rewrite bind_eq.
  destruct (mkdir_parents path st) as [[[]|e] st1]; [|done].
  rewrite bind_eq.
  pose proof (run_command_fs_same ["chown"; "super:super"; path] true st1 eq_refl) as Hf.
  by destruct (run_command exec _ true st1) as [[r|e] st2].
Qed.

Lemma create_directory_result path st :
  ((create_directory exec path st).1 = Ok tt
   ∧ (mkdir_parents path st).1 = Ok tt
   ∧ trace (create_directory exec path st).2
     = trace st ++ [["chown"; "super:super"; path]])
  ∨ ∃ msg, (create_directory exec path st).1
           = Raise (RuntimeError ("Failed to create directory " ++ path ++ ": " ++ msg)%string).
Proof.
  unfold create_directory, try_except. rewrite bind_eq.
  destruct (mkdir_each_spec (ancestors path ++ [path]) st) as (r & t' & Hrun & _).
  unfold mkdir_parents. rewrite Hrun. destruct r as [[]|e]; [|right; eauto].
  rewrite bind_eq.
  pose proof (run_command_trace ["chown"; "super:super"; path] true (with_fs t' st)) as Ht.
  destruct (run_command exec _ true (with_fs t' st)) as [[r|e] st2]; [|right; eauto].
  left. done.
Qed.

(** X17.  [create_directory] only adds: what was in the file tree stays as it
    was, and what is new is the directory or one of the directories above
    it.  When it returns, they are all directories and [chown] was run
    once; when it fails, the error is a [RuntimeError] that starts with
    "Failed to create directory", and a directory made before a failing
    [chown] is left where it is. *)
Theorem create_directory_adds path st :
  (∀ q, fs (create_directory exec path st).2 !! q = fs st !! q
        ∨ (q ∈ ancestors path ++ [path] ∧ fs st !! q = None
           ∧ fs (create_directory exec path st).2 !! q = Some Dir))
  ∧ ((mkdir_parents path st).1 = Ok tt →
     ∀ q, q ∈ ancestors path ++ [path] →
          fs (create_directory exec path st).2 !! q = Some Dir)
  ∧ (((create_directory exec path st).1 = Ok tt
      ∧ (mkdir_parents path st).1 = Ok tt
      ∧ trace (create_directory exec path st).2
        = trace st ++ [["chown"; "super:super"; path]])
     ∨ ∃ msg, (create_directory exec path st).1
              = Raise (RuntimeError
                         ("Failed to create directory " ++ path ++ ": " ++ msg)%string)).
Proof.
  rewrite create_directory_fs. split; [|split; [|apply create_directory_result]].
  - unfold mkdir_parents.
    destruct (mkdir_each_spec (ancestors path ++ [path]) st) as (r & t' & -> & Ht').
    exact Ht'.
  - apply mkdir_each_ok.
Qed.

(** *** The loop over the disks *)

Lemma skipped_disk vm backup_dir temp_dir n disk_id (d : disk) st :
  type d ≠ "file"%string ∨ (source d ≠ ""%string ∧ fs st !! source d = None) →
  backup_one_disk exec vm backup_dir temp_dir n disk_id d st = (Ok n, st).
Proof.
  intros Hskip. unfold backup_one_disk.
  destruct (String.eqb (type d) "file") eqn:Et; simpl; [|done].
  apply String.eqb_eq in Et. destruct Hskip as [?|[Hs Hn]]; [done|].
  rewrite bind_eq. unfold Path_exists.
  destruct (source d) as [|c s] eqn:Es; [done|]. simpl.
  unfold exists_. rewrite Hn.
  rewrite bool_decide_eq_false_2 by (by intros [? ?]). done.
Qed.

(** X18.  A disk that is not file-backed, or whose source is not there, is passed
    over without a command being run; a guest of which every disk is
    passed over is a failed one, "No disks were successfully backed up"
    being raised in the state the loop started in. *)
Theorem skipped_disks vm backup_dir temp_dir n disks st :
  Forall (λ x, type x.2 ≠ "file"%string
               ∨ (source x.2 ≠ ""%string ∧ fs st !! source x.2 = None)) disks →
  backup_disks_from exec vm backup_dir temp_dir n disks st = (Ok n, st)
  ∧ process_disks exec vm backup_dir temp_dir disks st
    = (Raise (RuntimeError "No disks were successfully backed up"), st).
Proof.
  intros Hall.
  assert (∀ n, backup_disks_from exec vm backup_dir temp_dir n disks st = (Ok n, st))
    as Hloop.
  { induction disks as [|[disk_id d] rest IH]; intros n0; simpl; [done|].
    apply Forall_cons_1 in Hall as [Hd Hall].
    rewrite bind_eq, (skipped_disk _ _ _ _ _ _ _ Hd). by apply IH. }
  split; [apply Hloop|]. unfold process_disks. by rewrite bind_eq, Hloop.
Qed.

(** X19.  When one of the three steps of a disk fails, the disk does not count,
    and neither its overlay nor its copy is left: both files are deleted,
    the overlay also after a commit that failed. *)
Theorem failed_disk_is_cleaned vm ts n disk_id (d : disk) st e st1 :
  ready vm ts st →
  type d = "file"%string →
  is_Some (fs st !! source d) →
  disk_steps exec vm disk_id d (snap_file_of vm (temp_dir_of vm ts) disk_id)
    (backup_file_of vm (backup_dir_of vm ts) disk_id) st = (Raise e, st1) →
  ∃ st', backup_one_disk exec vm (backup_dir_of vm ts) (temp_dir_of vm ts) n disk_id d st
         = (Ok n, st')
         ∧ fs st' !! snap_file_of vm (temp_dir_of vm ts) disk_id = None
         ∧ fs st' !! backup_file_of vm (backup_dir_of vm ts) disk_id = None
         ∧ ready vm ts st'.
Proof.
  intros Hr Ht Hs Hsteps.
  destruct (adds_disk_steps vm ts disk_id d st Hr) as [Hr1 _].
  rewrite Hsteps in Hr1. simpl in Hr1.
  destruct (cleanup_failed vm ts disk_id st1 Hr1) as (t' & Hclean & Hr' & Hsnap & Hbak & _).
  exists (with_fs t' st1). split; [|done].
  unfold backup_one_disk. rewrite Ht. simpl. rewrite bind_eq.
  assert (Path_exists (source d) st = (Ok true, st)) as ->.
  { unfold Path_exists. destruct (Py.is_empty (source d)); [done|].
    unfold exists_. by rewrite bool_decide_eq_true_2. }
  simpl. unfold try_except. rewrite bind_eq, Hsteps. simpl in *.
  rewrite bind_eq, Hclean. done.
Qed.

(** *** What a run changes outside its directories *)

Lemma grows_keeps {A} D (inside : string → Prop) (m : @M H A) :
  keeps_fs m → grows D inside m.
Proof. intros Hm st q _. left. by rewrite Hm. Qed.

Lemma grows_bind {A B} D (inside : string → Prop) (m : @M H A) (k : A → @M H B) :
  grows D inside m → (∀ a, grows D inside (k a)) → grows D inside (bind m k).
Proof.
  intros Hm Hk st q Hq. rewrite bind_eq. specialize (Hm st q Hq).
  destruct (m st) as [[a|e] st1]; simpl in *; [|done].
  destruct (Hk a st1 q Hq) as [E|(Hn & Hd & Hin)].
  - rewrite E. done.
  - destruct Hm as [E|(Hn' & Hd' & _)]; [|congruence].
    right. rewrite <- E. done.
Qed.

Lemma grows_try {A} D (inside : string → Prop) (m : @M H A) (h : exn → @M H A) :
  grows D inside m → (∀ e, grows D inside (h e)) → grows D inside (try_except m h).
Proof.
  intros Hm Hh st q Hq. unfold try_except. specialize (Hm st q Hq).
  destruct (m st) as [[a|e] st1]; simpl in *; [done|].
  destruct (Hh e st1 q Hq) as [E|(Hn & Hd & Hin)].
  - rewrite E. done.
  - destruct Hm as [E|(Hn' & Hd' & _)]; [|congruence].
    right. rewrite <- E. done.
Qed.

Lemma grows_create_directory D (inside : string → Prop) path :
  (∀ q, q ∈ ancestors path ++ [path] → inside q ∨ q ∈ D) →
  grows D inside (create_directory exec path).
Proof.
  intros Hpath st q Hq. rewrite create_directory_fs. unfold mkdir_parents.
  destruct (mkdir_each_spec (ancestors path ++ [path]) st) as (r & t' & -> & Ht').
  simpl. destruct (Ht' q) as [?|(Hin & Hn & Hd)]; [by left|].
  right. destruct (Hpath q Hin); done.
Qed.

Lemma grows_open_w D (inside : string → Prop) p :
  inside p → grows D inside (@open_w H p).
Proof.
  intros Hp st q Hq. left. unfold open_w.
  destruct (parent_is_dir (fs st) p && negb (bool_decide (fs st !! p = Some Dir)));
    [|done].
  simpl. apply lookup_insert_ne. by intros <-.
Qed.

Lemma prepare_grows vm backup_dir temp_dir :
  grows (ancestors backup_dir ++ ancestors temp_dir)
    (λ q, (q = backup_dir ∨ is_under backup_dir q = true)
          ∨ (q = temp_dir ∨ is_under temp_dir q = true))
    (prepare exec vm backup_dir temp_dir).
Proof.
  unfold prepare. apply grows_bind; [apply grows_keeps, keeps_get_vm_disks|].
  intros disks. destruct (bool_decide (disks = [])); [by apply grows_keeps|].
  apply grows_bind; [apply grows_keeps, keeps_check_disk_space|]. intros _.
  apply grows_bind.
  { apply grows_create_directory. intros q Hq.
    apply elem_of_app in Hq as [Hq|Hq].
    - right. apply elem_of_app. by left.
    - apply list_elem_of_singleton in Hq. left. left. by left. }
  intros _. apply grows_bind.
  { apply grows_create_directory. intros q Hq.
    apply elem_of_app in Hq as [Hq|Hq].
    - right. apply elem_of_app. by right.
    - apply list_elem_of_singleton in Hq. left. right. by left. }
  intros _. apply grows_bind.
  { apply grows_open_w. left. right. apply join_is_under. }
  intros _. apply grows_bind; [|by intros; apply grows_keeps].
  apply grows_keeps. intros st. by rewrite run_command_with_stdout.
Qed.

Lemma emergency_cleanup_frame backup_dir temp_dir st :
  apart backup_dir temp_dir →
  tidy (fs st) backup_dir = true → tidy (fs st) temp_dir = true →
  ∃ t', emergency_cleanup backup_dir temp_dir st = (Ok false, with_fs t' st)
        ∧ ∀ q, ¬ (q = backup_dir ∨ is_under backup_dir q = true) →
               ¬ (q = temp_dir ∨ is_under temp_dir q = true) →
               t' !! q = fs st !! q.
Proof.
  intros Hapart Hb Ht. rewrite emergency_cleanup_remove_dir.
  destruct (remove_dir_tidy temp_dir st Ht) as (t1 & Hrun1 & Hgone1 & Hframe1).
  rewrite bind_eq, Hrun1.
  destruct (remove_dir_tidy backup_dir (with_fs t1 st)) as (t2 & Hrun2 & Hgone2 & Hframe2).
  { simpl. eapply tidy_ext; [|exact Hb]. intros q Hq. apply Hframe1.
    - intros ->. eapply Hapart; eauto.
    - destruct (is_under temp_dir q) eqn:E; [|done]. exfalso. eapply Hapart; eauto. }
  rewrite bind_eq, Hrun2. exists t2. split; [done|]. intros q Hqb Hqt.
  simpl in Hframe2. rewrite Hframe2, Hframe1.
  - done.
  - intros ->. apply Hqt. by left.
  - destruct (is_under temp_dir q) eqn:E; [|done]. exfalso. apply Hqt. by right.
  - intros ->. apply Hqb. by left.
  - destruct (is_under backup_dir q) eqn:E; [|done]. exfalso. apply Hqb. by right.
Qed.

(** X20.  For a guest whose name is a plain name, and a timestamp that is
    one, the two run directories are the paths pathlib makes of them, and a
    run of [backup_vm] that starts with them tidy deletes and replaces
    nothing outside them: a path that is neither of the two directories nor
    below one is as it was, unless it is a directory above one of them that
    was missing and has been made, which the cleanup leaves behind. *)
Theorem backup_vm_frame vm st q :
  plain_name vm = true →
  plain_name (now (host st)) = true →
  tidy (fs st) (backup_dir_of vm (now (host st))) = true →
  tidy (fs st) (temp_dir_of vm (now (host st))) = true →
  ¬ (q = backup_dir_of vm (now (host st))
     ∨ is_under (backup_dir_of vm (now (host st))) q = true) →
  ¬ (q = temp_dir_of vm (now (host st))
     ∨ is_under (temp_dir_of vm (now (host st))) q = true) →
  fs (backup_vm exec now vm st).2 !! q = fs st !! q
  ∨ (fs st !! q = None
     ∧ fs (backup_vm exec now vm st).2 !! q = Some Dir
     ∧ q ∈ ancestors (backup_dir_of vm (now (host st)))
           ++ ancestors (temp_dir_of vm (now (host st)))).
Proof.
  intros _ _ Hb Ht Hqb Hqt.
  destruct (backup_vm_cleanup vm st) as (e & st1 & Hp & ->).
  destruct (prepare_tidy vm (now (host st)) st Hb Ht) as [Hb1 Ht1].
  pose proof (prepare_grows vm (backup_dir_of vm (now (host st)))
                (temp_dir_of vm (now (host st))) st q) as Hg.
  rewrite Hp in Hb1, Ht1, Hg. simpl in *.
  destruct (emergency_cleanup_frame _ _ st1 (run_dirs_apart vm _) Hb1 Ht1)
    as (t' & -> & Hframe).
  simpl. rewrite Hframe by done. apply Hg. by intros [?|?].
Qed.

(** *** The three steps of a disk, in order *)

Lemma disk_steps_trace vm disk_id (d : disk) snap_file backup_file st :
  let snap := snapshot_cmd vm disk_id snap_file in
  let copy := ["cp"; "--sparse=always"; source d; backup_file] in
  match disk_steps exec vm disk_id d snap_file backup_file st with
  | (Ok _, st') => trace st' = trace st ++ [snap; copy; blockcommit_cmd vm disk_id]
  | (Raise _, st') =>
      trace st' = trace st ++ [snap]
      ∨ (trace st' = trace st ++ [snap; copy]
         ∧ ¬ ∃ out err,
               (exec copy (fs (create_snapshot exec vm disk_id snap_file st).2)
                  (host (create_snapshot exec vm disk_id snap_file st).2)).1.1
               = Exited 0 out err)
      ∨ ∃ k, (1 ≤ k ≤ 3)%nat
             ∧ trace st'
               = trace st ++ snap :: copy :: blockcommit_cmd vm disk_id
                             :: take k (recovery_cmds vm disk_id)
  end.
Proof.
  simpl. unfold disk_steps. rewrite bind_eq.
  destruct (create_snapshot_spec vm disk_id snap_file st) as (Ht1 & _ & _).
  destruct (create_snapshot exec vm disk_id snap_file st) as [[[]|e] st1];
    simpl in *; [|by left].
  rewrite bind_eq.
  destruct (backup_disk_spec (source d) backup_file st1) as (b & st2 & -> & Hb & Ht2).
  destruct b; simpl.
  - rewrite bind_eq.
    destruct (commit_snapshot_true vm disk_id st2) as [_ Htrue].
    destruct (commit_snapshot exec vm disk_id st2) as [[[]|e] st3] eqn:Hc; simpl in *.
    + rewrite Htrue, Ht2, Ht1, <- !List.app_assoc by done. done.
    + pose proof (run_command_trace (blockcommit_cmd vm disk_id) true st2) as Hbc.
      rewrite run_command_subprocess in Hbc.
      destruct (subprocess_run exec (blockcommit_cmd vm disk_id) true st2)
        as [[r|e] st4] eqn:Hsub.
      * unfold commit_snapshot, try_except in Hc. unfold blockcommit_cmd in Hsub.
        rewrite bind_eq, run_command_subprocess, Hsub in Hc. done.
      * destruct (commit_snapshot_failed vm disk_id st2 e st4 Hsub)
          as (k & st' & Hk & Hc' & Htr & _).
        rewrite Hc in Hc'. injection Hc' as <-. right. right.
        exists k. split; [done|].
        rewrite Htr, Ht2, Ht1, <- !List.app_assoc. done.
    + destruct (commit_snapshot_returns vm disk_id st2) as (b & st' & Hc').
      rewrite Hc in Hc'. done.
  - right. left. split; [by rewrite Ht2, Ht1, <- List.app_assoc|].
    intros Hx. apply Hb in Hx. done.
Qed.

(** X21.  A disk is done when, in this order and nothing else, the snapshot, the
    copy and the block commit have been run; the copy is not started after
    a failed snapshot, and the block commit is not started after a failed
    copy; a block commit that fails is followed by the first one, two or
    three of the recovery commands and by nothing else. *)
Theorem disk_steps_order vm disk_id (d : disk) snap_file backup_file st :
  let snap := snapshot_cmd vm disk_id snap_file in
  let copy := ["cp"; "--sparse=always"; source d; backup_file] in
  match disk_steps exec vm disk_id d snap_file backup_file st with
  | (Ok _, st') => trace st' = trace st ++ [snap; copy; blockcommit_cmd vm disk_id]
  | (Raise _, st') =>
      trace st' = trace st ++ [snap]
      ∨ (trace st' = trace st ++ [snap; copy]
         ∧ ¬ ∃ out err,
               (exec copy (fs (create_snapshot exec vm disk_id snap_file st).2)
                  (host (create_snapshot exec vm disk_id snap_file st).2)).1.1
               = Exited 0 out err)
      ∨ ∃ k, (1 ≤ k ≤ 3)%nat
             ∧ trace st'
               = trace st ++ snap :: copy :: blockcommit_cmd vm disk_id
                             :: take k (recovery_cmds vm disk_id)
  end.
Proof. apply disk_steps_trace. Qed.

(** X22.  When the copy of a disk fails after its snapshot was made, the block
    commit is not run: the guest is left writing to the overlay, and the
    cleanup of the failed disk deletes the overlay file all the same. *)
Theorem copy_failure_skips_commit vm ts n disk_id (d : disk) st st1 :
  ready vm ts st →
  type d = "file"%string →
  is_Some (fs st !! source d) →
  create_snapshot exec vm disk_id (snap_file_of vm (temp_dir_of vm ts) disk_id) st
  = (Ok tt, st1) →
  (backup_disk exec (source d) (backup_file_of vm (backup_dir_of vm ts) disk_id) st1).1
  = Ok false →
  ∃ st', backup_one_disk exec vm (backup_dir_of vm ts) (temp_dir_of vm ts) n disk_id d st
         = (Ok n, st')
         ∧ trace st'
           = trace st ++ [snapshot_cmd vm disk_id (snap_file_of vm (temp_dir_of vm ts) disk_id);
                          ["cp"; "--sparse=always"; source d;
                           backup_file_of vm (backup_dir_of vm ts) disk_id]]
         ∧ fs st' !! snap_file_of vm (temp_dir_of vm ts) disk_id = None.
Proof.
  intros Hr Ht Hs Hsnap Hcopy.
  set (snap_file := snap_file_of vm (temp_dir_of vm ts) disk_id) in *.
  set (backup_file := backup_file_of vm (backup_dir_of vm ts) disk_id) in *.
  destruct (create_snapshot_spec vm disk_id snap_file st) as (Ht1 & _ & _).
  rewrite Hsnap in Ht1. simpl in Ht1.
  destruct (backup_disk_spec (source d) backup_file st1) as (b & st2 & Hb & _ & Ht2).
  rewrite Hb in Hcopy. injection Hcopy as ->.
  assert (disk_steps exec vm disk_id d snap_file backup_file st
          = (Raise (RuntimeError ("Backup failed for disk " ++ disk_id)%string), st2))
    as Hsteps.
  { unfold disk_steps. by rewrite bind_eq, Hsnap, bind_eq, Hb. }
  destruct (adds_disk_steps vm ts disk_id d st Hr) as [Hr2 _].
  fold snap_file backup_file in Hr2. rewrite Hsteps in Hr2. simpl in Hr2.
  destruct (cleanup_failed vm ts disk_id st2 Hr2) as (t' & Hclean & _ & Hsn & _).
  exists (with_fs t' st2). split; [|split; [|done]].
  - unfold backup_one_disk. rewrite Ht. simpl. rewrite bind_eq.
    assert (Path_exists (source d) st = (Ok true, st)) as ->.
    { unfold Path_exists. destruct (Py.is_empty (source d)); [done|].
      unfold exists_. by rewrite bool_decide_eq_true_2. }
    simpl. unfold try_except. fold snap_file backup_file.
    rewrite bind_eq, Hsteps. simpl in *. fold snap_file backup_file in Hclean.
    rewrite bind_eq, Hclean. done.
  - simpl. by rewrite Ht2, Ht1, <- List.app_assoc.
Qed.

(** *** A guest that fails before its directories are made *)

(** X23.  When the capacity check raises (the space is short, there is no valid
    disk, or a query fails) in a run whose directories are not there yet,
    [backup_vm] returns [False] with the file tree as it was: no directory
    has been made, and only the listing of the disks and the queries of
    the capacity check have been run, so no snapshot was taken. *)
Theorem failed_capacity_check_changes_nothing vm st disks st1 e st2 :
  fs st !! backup_dir_of vm (now (host st)) = None →
  fs st !! temp_dir_of vm (now (host st)) = None →
  get_vm_disks exec vm st = (Ok disks, st1) →
  disks ≠ [] →
  check_disk_space exec vm disks st1 = (Raise e, st2) →
  backup_vm exec now vm st = (Ok false, st2)
  ∧ fs st2 = fs st
  ∧ ∃ l, trace st2 = trace st ++ ["virsh"; "domblklist"; vm; "--details"] :: l
         ∧ Forall capacity_query l.
Proof.
  intros Hb Ht Hd Hne Hc.
  pose proof (keeps_get_vm_disks vm st) as Hf1. rewrite Hd in Hf1. simpl in Hf1.
  pose proof (keeps_check_disk_space vm disks st1) as Hf2. rewrite Hc in Hf2.
  simpl in Hf2.
  assert (fs st2 = fs st) as Hf by congruence.
  split; [|split; [done|]].
  - unfold backup_vm, try_except. unfold prepare.
    rewrite bind_eq, bind_eq, Hd, bool_decide_eq_false_2 by done.
    rewrite bind_eq, Hc. unfold emergency_cleanup, exists_.
    rewrite !bind_eq. simpl. rewrite Hf, Ht.
    rewrite bool_decide_eq_false_2 by (by intros [? ?]). simpl.
    rewrite !bind_eq. simpl. rewrite Hf, Hb.
    rewrite bool_decide_eq_false_2 by (by intros [? ?]). done.
  - destruct (queries_check_disk_space vm disks st1) as (l & Hl & Hq).
    rewrite Hc in Hl. simpl in Hl. exists l. split; [|done].
    unfold get_vm_disks in Hd. rewrite bind_eq in Hd.
    pose proof (run_command_trace ["virsh"; "domblklist"; vm; "--details"] true st) as Htr.
    destruct (run_command exec _ true st) as [[r|e0] st0]; [|done].
    injection Hd as _ <-. simpl in Htr. rewrite Hl, Htr, <- List.app_assoc. done.
Qed.

(** *** A failed validation *)

Lemma queries_for_each {A} (Q : list string → Prop) (l : list A) (body : A → @M H unit) :
  (∀ x, runs_only Q (body x)) → runs_only Q (for_each l body).
Proof.
  intros Hb. induction l as [|x l IH]; simpl.
  - apply queries_pure. reflexivity.
  - apply queries_bind; [apply Hb|]. intros _. apply IH.
Qed.

Lemma queries_validate_environment :
  runs_only which_query (validate_environment exec writable).
Proof.
  unfold validate_environment, try_except_cpe.
  apply queries_bind.
  { apply queries_for_each. intros [path desc]. apply queries_bind.
    - apply queries_pure. reflexivity.
    - intros e. destruct (negb e); [apply queries_pure; reflexivity|].
      apply queries_pure. intros st. by destruct (negb (writable path (host st))). }
  intros _. apply queries_bind.
  { apply queries_for_each. intros binary. apply queries_try.
    - apply queries_bind; [apply queries_run_command; by exists binary|].
      intros _. apply queries_pure. reflexivity.
    - intros e. destruct (is_CalledProcessError e); apply queries_pure; reflexivity. }
  intros _. simpl. apply queries_try.
  - apply queries_bind; [apply queries_run_command; by exists "qemu-ga"%string|].
    intros _. apply queries_pure. reflexivity.
  - intros e. destruct (is_CalledProcessError e); apply queries_pure; reflexivity.
Qed.

(** X24.  When the validation of the environment raises, [main] touches no
    guest: the status given to [sys.exit] is 1, the only commands run are
    [which] commands, and the file tree and the list of running guests are
    as before. *)
Theorem failed_validation_stops_batch selected st e st1 :
  validate_environment exec writable st = (Raise e, st1) →
  ∃ st', main exec writable now selected st = (Ok 1, st')
         ∧ fs st' = fs st
         ∧ running_vms st' = running_vms st
         ∧ ∃ l, trace st' = trace st ++ l ∧ Forall which_query l.
Proof.
  intros Hv.
  destruct (validate_environment_spec st) as (_ & _ & Hfs & Hvs & _).
  destruct (queries_validate_environment st) as (l & Hl & Hq).
  rewrite Hv in Hfs, Hvs, Hl. simpl in *.
  exists (mkState (fs st1) (host st1) (trace st1) 1 (running_vms st1) (mounts st1)).
  split; [|split; [done|split; [done|eauto]]].
  unfold main, main_with, try_except. rewrite bind_eq, bind_eq.
  unfold vms_to_backup. rewrite bind_eq, Hv. done.
Qed.

(** *** The outcome of a run *)











(** C8.  [main] calls the method [self.backup_vm] for each guest, and
    [main_with backup] is [main] with [backup] for that method; the script's
    [main] is [main_with backup_vm], and [backup_vm] leaves the field
    [backup_status] alone.  For every [backup] that does so, and a start
    with status 0: the body of the loop never raises; it leaves the status
    as it is when the guest passes the two checks and [backup] returns
    [True], and sets it to 1 in every other case, an exception in one of
    the checks or in [backup] included; the loop runs its body for every
    guest of the list, in order, each from the state the guest before it
    left, whatever became of that guest; and the status given to [sys.exit]
    is 0 if and only if the list of guests was obtained and every guest of
    it succeeded, and 1 otherwise. *)
Theorem main_exit_status (backup : string → @M H bool) selected st :
  (∀ vm, keeps_status (backup vm)) →
  backup_status st = 0 →
  (main exec writable now selected st
   = main_with exec writable (backup_vm exec now) selected st
   ∧ ∀ vm, keeps_status (backup_vm exec now vm))
  ∧ (∀ vm st0,
       ∃ st', process_vm_with exec backup vm st0 = (Ok tt, st')
              ∧ backup_status st'
                = if vm_succeeds backup vm st0 then backup_status st0 else 1)
  ∧ (∀ vms st1,
       vms_to_backup exec writable selected st = (Ok vms, st1) →
       (main_with exec writable backup selected st).2
       = fold_left (λ s vm, (process_vm_with exec backup vm s).2) vms st1)
  ∧ ∃ code st',
      main_with exec writable backup selected st = (Ok code, st')
      ∧ (code = 0 ∨ code = 1)
      ∧ (code = 0 ↔
         ∃ vms st1, vms_to_backup exec writable selected st = (Ok vms, st1)
                    ∧ forallb id (vm_outcomes backup vms st1) = true).
Proof.
  intros Hk H0. split; [split; [done|intros vm; apply status_backup_vm]|].
  split; [intros vm st0; by apply process_vm_with_spec|].
  destruct (main_with_spec backup selected st Hk H0) as (code & st' & Hrun & Hcode).
  split.
  - intros vms st1 Hv. rewrite Hv in Hcode. rewrite Hrun. by destruct Hcode.
  - exists code, st'. split; [done|].
    destruct (vms_to_backup exec writable selected st) as [[vms|e] st1].
    + destruct Hcode as [Hcode _].
      destruct (forallb id (vm_outcomes backup vms st1)) eqn:Hall; subst code.
      * split; [by left|]. split; [|done]. intros _. exists vms, st1. done.
      * split; [by right|]. split; [done|]. intros (vms' & st1' & [= <- <-] & Ht).
        congruence.
    + subst code. split; [by right|]. split; [done|]. intros (? & ? & [=] & _).
Qed.

End Properties.

(** ** The claims on the scripted host *)

(** C2 (the code departs from the claim).  [get_running_vms] tests every
    exclusion rule with [in], as a substring, the rule ["TEMPLATE-*"] with
    its star included: of the running guests A, B and TEMPLATE-X none is
    removed. *)
Theorem template_guest_is_kept :
  (get_running_vms Sim.exec (Sim.init Sim.disk_tree Sim.template_host)).1
  = Ok ["A"; "B"; "TEMPLATE-X"]
  ∧ excluded "TEMPLATE-X" = false
  ∧ ∀ vm, excluded vm
          = Py.contains "SPBAPP-EPT-CLONE" vm || Py.contains "TEMPLATE-*" vm.
Proof.
  split; [vm_compute; reflexivity|]. split; [vm_compute; reflexivity|].
  intros vm. unfold excluded, EXCLUDE_VMS, Py.any. simpl. by rewrite orb_false_r.
Qed.

(** The run of [backup_vm] that C1 fails on: every command succeeds, and the
    run ends after the second [chown], without the dump of the configuration
    and with nothing left of the backup directory. *)
Example backup_vm_on_web :
  let r := backup_vm Sim.exec Sim.now "web" (Sim.init Sim.disk_tree Sim.web_host) in
  r.1 = Ok false
  ∧ trace r.2
    = [ ["virsh"; "domblklist"; "web"; "--details"];
        ["du"; "-sm"; "/var/lib/libvirt/images/a.qcow2"];
        ["du"; "-sm"; "/var/lib/libvirt/images/b.qcow2"];
        ["df"; "-m"; "/mnt/Backup"];
        ["chown"; "super:super"; "/mnt/Backup/web/20240101-000000"];
        ["chown"; "super:super"; "/storage/web-20240101-000000"] ]
  ∧ fs r.2 !! Sim.bd = None
  ∧ fs r.2 !! (Sim.bd </> "web.xml") = None.
Proof. vm_compute. repeat split; reflexivity. Qed.

(** From the same state the disks would all succeed, were line 281 reached;
    on one file system the run would return [True], with the overlays moved
    into the backup directory by the final cleanup, and with the backup
    root and the scratch storage on file systems of their own the final
    cleanup would fail at the first overlay, and the run with it. *)
Example disks_on_web :
  let st := Sim.prepared Sim.web_host in
  succeeded_disks Sim.exec "web" Sim.ts Sim.disks st = ["vda"; "vdb"]
  ∧ (let r := backup_vm_disks Sim.exec "web" Sim.bd Sim.td Sim.disks st in
     r.1 = Ok true
     ∧ fs r.2 !! (Sim.bd </> "web-vda.snapshot") = Some File)
  ∧ (let r := backup_vm_disks Sim.exec "web" Sim.bd Sim.td Sim.disks
                (Sim.mounted Sim.two_disks st) in
     r.1 = Ok false
     ∧ fs r.2 !! Sim.bd = None
     ∧ fs r.2 !! Sim.td = None).
Proof. vm_compute. repeat split; reflexivity. Qed.

(** C3, counterexample.  With 1 MB required and 2 MB available the check
    passes, although 2 < 1 * 2.5. *)
Lemma capacity_check_passes_short_of_2_5 :
  let st := Sim.init Sim.disk_tree Sim.small_host in
  (calculate_required_space Sim.exec [("vda", Sim.vda)] st).1 = Ok 1
  ∧ (read_available_space Sim.exec st).1 = Ok 2
  ∧ (check_disk_space Sim.exec "web" [("vda", Sim.vda)] st).1 = Ok tt
  ∧ ¬ fails_below_2_5 1 2 (check_disk_space Sim.exec "web" [("vda", Sim.vda)] st).1.
Proof.
  split; [vm_compute; reflexivity|]. split; [vm_compute; reflexivity|].
  split; [vm_compute; reflexivity|].
  intros [_ Hclaim]. destruct Hclaim as [e He]; [reflexivity|].
  vm_compute in He. discriminate.
Qed.

(** C3, witness: 1000 MB required and 2500 MB available. *)
Lemma check_disk_space_threshold_witness :
  let st := Sim.init Sim.disk_tree Sim.web_host in
  (calculate_required_space Sim.exec Sim.disks st).1 = Ok 1000
  ∧ ((check_disk_space Sim.exec "web" Sim.disks st).1 = Ok tt
     ↔ Qfloor ((5 # 2) * inject_Z 1000) ≤ 2500).
Proof.
  intros st. split; [vm_compute; reflexivity|].
  refine (proj2 (proj2 (check_disk_space_threshold Sim.exec "web" Sim.disks st 1000
            (calculate_required_space Sim.exec Sim.disks st).2 2500
            (read_available_space Sim.exec
               (calculate_required_space Sim.exec Sim.disks st).2).2 _ _ _))).
  - vm_compute. reflexivity.
  - split; reflexivity.
  - vm_compute. reflexivity.
Defined.


(** C5, witness: a run from a fresh timestamp. *)
Lemma failed_run_leaves_nothing_witness :
  let st := Sim.init Sim.disk_tree Sim.web_host in
  ∃ st', backup_vm Sim.exec Sim.now "web" st = (Ok false, st')
         ∧ gone (fs st') (backup_dir_of "web" (Sim.now (host st))) = true
         ∧ gone (fs st') (temp_dir_of "web" (Sim.now (host st))) = true.
Proof.
  intros st.
  refine (proj1 (failed_run_leaves_nothing Sim.exec Sim.now "web" st _ _)).
  - vm_compute. reflexivity.
  - vm_compute. reflexivity.
Defined.


(** C7, counterexample.  The block commit fails and the abort of the block
    job runs into the timeout: the guest is neither stopped nor started. *)
Lemma recovery_cut_short :
  let st := Sim.init Sim.disk_tree Sim.stuck_host in
  (subprocess_run Sim.exec (blockcommit_cmd "web" "vda") true st).1
  = Raise (CalledProcessError 1 (blockcommit_cmd "web" "vda") "error")
  ∧ (commit_snapshot Sim.exec "web" "vda" st).1 = Ok false
  ∧ trace (commit_snapshot Sim.exec "web" "vda" st).2
    = [ blockcommit_cmd "web" "vda"; ["virsh"; "blockjob"; "web"; "vda"; "--abort"] ]
  ∧ ¬ full_recovery Sim.exec "web" "vda" st.
Proof.
  intros st. split; [vm_compute; reflexivity|]. split; [vm_compute; reflexivity|].
  split; [vm_compute; reflexivity|].
  unfold full_recovery. vm_compute. discriminate.
Qed.

(** C7, witness: the block commit fails, the abort and the forced stop end
    with an exit status, and all three recovery commands are run. *)
Lemma commit_snapshot_recovery_witness :
  let st := Sim.init Sim.disk_tree Sim.failing_commit_host in
  ∃ st', commit_snapshot Sim.exec "web" "vda" st = (Ok false, st')
         ∧ trace st' = blockcommit_cmd "web" "vda" :: recovery_cmds "web" "vda".
Proof.
  intros st.
  destruct (commit_snapshot_recovery Sim.exec "web" "vda" st
              (CalledProcessError 1 (blockcommit_cmd "web" "vda") "error")
              (subprocess_run Sim.exec (blockcommit_cmd "web" "vda") true st).2)
    as (k & st' & _ & Hrun & Htr & _ & _ & H3).
  - vm_compute. reflexivity.
  - assert (k = 3%nat) as ->.
    { apply H3. split; exists 0, "", ""; vm_compute; reflexivity. }
    exists st'. split; [exact Hrun|exact Htr].
Defined.

(** C8, witness: there is no guest [ghost], and the batch goes on with
    [web]; the status is 1.  With a method in the place of [backup_vm] that
    returns [True], the batch of [web] ends with status 0. *)
Lemma main_exit_status_witness :
  let st := Sim.init Sim.disk_tree Hosts.ghost_host in
  (∃ st', main Sim.exec Sim.writable Sim.now (Some ["ghost"; "web"]) st = (Ok 1, st')
          ∧ st' = fold_left (λ s vm, (process_vm Sim.exec Sim.now vm s).2)
                    ["ghost"; "web"]
                    (vms_to_backup Sim.exec Sim.writable (Some ["ghost"; "web"]) st).2
          ∧ trace st'
            = (which_cmds
               ++ [domstate_cmd "ghost"; domstate_cmd "web"; agent_cmd "web";
                   ["virsh"; "domblklist"; "web"; "--details"];
                   ["du"; "-sm"; "/var/lib/libvirt/images/a.qcow2"];
                   ["du"; "-sm"; "/var/lib/libvirt/images/b.qcow2"];
                   ["df"; "-m"; "/mnt/Backup"];
                   chown_cmd "/mnt/Backup/web/20240101-000000";
                   chown_cmd "/storage/web-20240101-000000"])%list)
  ∧ ∃ st', main_with Sim.exec Sim.writable (λ _, ret true) (Some ["web"])
             (Sim.init Sim.disk_tree Sim.web_host) = (Ok 0, st').
Proof.
  intros st. split.
  - destruct (main_exit_status Sim.exec Sim.writable Sim.now
                (backup_vm Sim.exec Sim.now) (Some ["ghost"; "web"]) st)
      as (_ & _ & Hfold & _).
    + intros vm. apply status_backup_vm.
    + reflexivity.
    + exists (main Sim.exec Sim.writable Sim.now (Some ["ghost"; "web"]) st).2.
      split; [vm_compute; reflexivity|]. split; [|vm_compute; reflexivity].
      apply (Hfold ["ghost"; "web"]). vm_compute. reflexivity.
  - destruct (main_exit_status Sim.exec Sim.writable Sim.now
                (λ _, ret true) (Some ["web"]) (Sim.init Sim.disk_tree Sim.web_host))
      as (_ & _ & _ & code & st' & Hrun & _ & Hcode).
    + intros vm st0. reflexivity.
    + reflexivity.
    + assert (code = 0) as ->.
      { apply Hcode. eexists _, _. split; [reflexivity|]. vm_compute. reflexivity. }
      by exists st'.
Defined.

(** C9, witness: [du] gives 0 MB for the image of [vda], and [vdc] has no
    image; the sum is zero, and the check fails after the one [du] without a
    [df].  With the images of [web], 400 and 600 MB, and [vdc] between
    them, the sum is 1000 and [df] is the next command. *)
Lemma zero_space_is_fatal_witness :
  let st := Sim.init Sim.disk_tree Hosts.empty_image in
  let disks := [("vda", Sim.vda); ("vdc", Sim.vdc)] in
  let st' := Sim.init Sim.disk_tree Sim.web_host in
  let disks' := [("vda", Sim.vda); ("vdc", Sim.vdc); ("vdb", Sim.vdb)] in
  (∃ st1, check_disk_space Sim.exec "web" disks st = (Raise no_valid_disks, st1)
          ∧ trace st1 = [["du"; "-sm"; "/var/lib/libvirt/images/a.qcow2"]])
  ∧ (du_sum Sim.exec 0 [("vda", Sim.vda); ("vdb", Sim.vdb)] st').1 = Ok 1000
  ∧ trace (check_disk_space Sim.exec "web" disks' st').2
    = [ ["du"; "-sm"; "/var/lib/libvirt/images/a.qcow2"];
        ["du"; "-sm"; "/var/lib/libvirt/images/b.qcow2"];
        ["df"; "-m"; "/mnt/Backup"] ].
Proof.
  intros st disks st' disks'. split; [|split].
  - destruct (zero_space_is_fatal Sim.exec "web" disks st) as (_ & Hzero & _).
    exists (calculate_required_space Sim.exec disks st).2.
    destruct (Hzero (calculate_required_space Sim.exec disks st).2) as [Hrun _];
      [vm_compute; reflexivity|].
    split; [exact Hrun|vm_compute; reflexivity].
  - destruct (zero_space_is_fatal Sim.exec "web" disks' st') as (Hsum & _).
    change (du_sum Sim.exec 0 [("vda", Sim.vda); ("vdb", Sim.vdb)] st')
      with (du_sum Sim.exec 0 (List.filter (λ x, counted (fs st') x.2) disks') st').
    rewrite <- Hsum. vm_compute. reflexivity.
  - destruct (zero_space_is_fatal Sim.exec "web" disks' st') as (_ & _ & Hnz & _).
    destruct (Hnz 1000 (calculate_required_space Sim.exec disks' st').2) as [_ Htr];
      [vm_compute; reflexivity|discriminate|].
    rewrite Htr. vm_compute. reflexivity.
Defined.

(** C10, witness: a host with room on the scratch storage and one without. *)
Lemma capacity_check_ignores_scratch_witness :
  let st1 := Sim.init Sim.disk_tree Sim.roomy_scratch in
  let st2 := Sim.init Sim.disk_tree Sim.full_scratch in
  Sim.answer Sim.roomy_scratch ["df"; "-m"; "/storage"]
  ≠ Sim.answer Sim.full_scratch ["df"; "-m"; "/storage"]
  ∧ (check_disk_space Sim.exec "web" Sim.disks st1).1
    = (check_disk_space Sim.exec "web" Sim.disks st2).1.
Proof.
  intros st1 st2. split; [vm_compute; discriminate|].
  apply (capacity_check_ignores_scratch Sim.exec Sim.same_answers "web" Sim.disks st1 st2).
  - intros cmd t h1 h2 Hq Hsame. split; [|exact Hsame].
    unfold Sim.exec. simpl. by apply Hsame.
  - split; [reflexivity|]. split; [|reflexivity].
    intros cmd Hq.
    assert (["df"; "-m"; "/storage"] ≠ cmd) as Hne
      by (intros <-; by destruct Hq as [[src Hsrc]|Hdf]).
    simpl. by rewrite !(bool_decide_eq_false_2 _ Hne).
Defined.

(** ** The further properties on the scripted host *)

(** X8, witness.  The binary of the guest agent is missing, and the validation passes. *)
Lemma qemu_ga_is_optional_witness :
  let st := Sim.init Sim.disk_tree Hosts.no_agent_binary in
  let st1 := (bind (check_required_dirs Sim.writable)
                (fun _ => check_required_binaries Sim.exec) st).2 in
  (run_command Sim.exec ["which"; "qemu-ga"] true st1).1
  = Raise (CalledProcessError 1 ["which"; "qemu-ga"] "error")
  ∧ ∃ st2, validate_environment Sim.exec Sim.writable st = (Ok tt, st2)
           ∧ trace st2 = (trace st1 ++ [["which"; "qemu-ga"]])%list.
Proof.
  intros st st1. split; [vm_compute; reflexivity|].
  apply (qemu_ga_is_optional Sim.exec Sim.writable st st1).
  - vm_compute. reflexivity.
  - exists 1, "", "error". vm_compute. reflexivity.
Defined.

(** X9, witness.  The guest is shut off: one command, and the status is 1. *)
Lemma failed_check_stops_vm_witness :
  let st := Sim.init Sim.disk_tree Hosts.shut_off in
  ∃ st', process_vm Sim.exec Sim.now "web" st = (Ok tt, st')
         ∧ backup_status st' = 1
         ∧ fs st' = fs st
         ∧ (trace st' = (trace st ++ [domstate_cmd "web"])%list
            ∨ trace st' = (trace st ++ [domstate_cmd "web"; agent_cmd "web"])%list).
Proof.
  intros st.
  apply (failed_check_stops_vm Sim.exec Sim.now "web" st
           (RuntimeError "VM web is not running")
           (bind (check_vm_state Sim.exec "web") (fun _ => check_qga Sim.exec "web") st).2).
  vm_compute. reflexivity.
Defined.

(** X10, witness.  The batch of the one guest [web] ends with status 1. *)
Lemma processed_guest_exit_status_witness :
  let st := Sim.init Sim.disk_tree Sim.web_host in
  ∃ st', main Sim.exec Sim.writable Sim.now (Some ["web"]) st = (Ok 1, st').
Proof.
  intros st.
  apply (processed_guest_exit_status Sim.exec Sim.writable Sim.now (Some ["web"]) "web" []
           st (vms_to_backup Sim.exec Sim.writable (Some ["web"]) st).2).
  vm_compute. reflexivity.
Defined.

(** X11, witness.  A template given by name is taken, although [TEMPLATE-*] is
    excluded; without a list the guests are the ones [get_running_vms]
    returns. *)
Lemma vms_to_backup_selection_witness :
  let st := Sim.init Sim.disk_tree Sim.web_host in
  let r := vms_to_backup Sim.exec Sim.writable (Some ["TEMPLATE-*"; "web"]) st in
  let st0 := Sim.init Sim.disk_tree Sim.template_host in
  let r0 := vms_to_backup Sim.exec Sim.writable None st0 in
  (excluded "TEMPLATE-*" = true
   ∧ r.1 = Ok ["TEMPLATE-*"; "web"]
   ∧ running_vms r.2 = running_vms st
   ∧ trace r.2 = (trace st ++ which_cmds)%list)
  ∧ (r0.1 = Ok ["A"; "B"; "TEMPLATE-X"]
     ∧ running_vms r0.2 = ["A"; "B"; "TEMPLATE-X"]
     ∧ ∃ st1 st2, get_running_vms Sim.exec st1 = (Ok ["A"; "B"; "TEMPLATE-X"], st2)).
Proof.
  intros st r st0 r0. split.
  - split; [vm_compute; reflexivity|]. split; [vm_compute; reflexivity|].
    destruct (vms_to_backup_selection Sim.exec Sim.writable (Some ["TEMPLATE-*"; "web"]) st
                ["TEMPLATE-*"; "web"] r.2) as (_ & _ & Hr & Ht).
    + vm_compute. reflexivity.
    + split; [exact Hr|exact Ht].
  - split; [vm_compute; reflexivity|].
    destruct (vms_to_backup_selection Sim.exec Sim.writable None st0
                ["A"; "B"; "TEMPLATE-X"] r0.2) as ((st1 & st2 & _ & Hg & _) & Hr & _).
    + vm_compute. reflexivity.
    + split; [exact Hr|]. exists st1, st2. exact Hg.
Defined.

(** X12, witness.  The three running guests of [template_host]. *)
Lemma get_running_vms_names_witness :
  let st := Sim.init Sim.disk_tree Sim.template_host in
  let r := get_running_vms Sim.exec st in
  r.1 = Ok ["A"; "B"; "TEMPLATE-X"]
  ∧ Forall (λ vm, Py.strip vm = vm) ["A"; "B"; "TEMPLATE-X"].
Proof.
  intros st r. split; [vm_compute; reflexivity|].
  destruct (get_running_vms_names Sim.exec st ["A"; "B"; "TEMPLATE-X"] r.2)
    as (c & _ & _ & Hs).
  - vm_compute. reflexivity.
  - exact Hs.
Defined.

(** X13, witness.  The two disks of [web]. *)
Lemma get_vm_disks_entries_witness :
  let st := Sim.init Sim.disk_tree Sim.web_host in
  (get_vm_disks Sim.exec "web" st).1 = Ok Sim.disks
  ∧ NoDup Sim.disks.*1
  ∧ Forall (λ x, parsed_entry x.1 x.2) Sim.disks.
Proof.
  intros st. split; [vm_compute; reflexivity|].
  destruct (get_vm_disks_entries Sim.exec "web" st Sim.disks
              (get_vm_disks Sim.exec "web" st).2) as (Hn & Hf & _).
  - vm_compute. reflexivity.
  - split; [exact Hn|exact Hf].
Defined.

(** X14, witness.  A listing without a disk. *)
Lemma no_disk_lines_witness :
  let st := Sim.init Sim.disk_tree Hosts.no_disks in
  ∃ st1,
    get_vm_disks Sim.exec "web" st = (Ok [], st1)
    ∧ prepare Sim.exec "web" Sim.bd Sim.td st
      = (Raise (RuntimeError "No disks found for VM"), st1)
    ∧ fs st1 = fs st
    ∧ trace st1 = (trace st ++ [["virsh"; "domblklist"; "web"; "--details"]])%list.
Proof.
  intros st.
  exists (run_command Sim.exec ["virsh"; "domblklist"; "web"; "--details"] true st).2.
  apply (no_disk_lines Sim.exec "web" Sim.bd Sim.td st
           {| returncode := 0; stdout := Hosts.no_disks_output; stderr := "" |}).
  - vm_compute. reflexivity.
  - vm_compute. repeat constructor.
Defined.

(** X15, witness.  The numbers of [df] are on the third line: [IndexError]. *)
Lemma df_output_read_witness :
  let st := Sim.init Sim.disk_tree Hosts.wrapped_df in
  available_field Hosts.wrapped_df_output = None
  ∧ (check_disk_space Sim.exec "web" Sim.disks st).1
    = Raise (IndexError "list index out of range").
Proof.
  intros st.
  assert (available_field Hosts.wrapped_df_output = None) as E
    by (vm_compute; reflexivity).
  split; [exact E|].
  pose proof (df_output_read Sim.exec "web" Sim.disks st 1000
                (calculate_required_space Sim.exec Sim.disks st).2
                {| returncode := 0; stdout := Hosts.wrapped_df_output; stderr := "" |}
                (check_disk_space Sim.exec "web" Sim.disks st).2) as Hw.
  simpl stdout in Hw. rewrite E in Hw.
  rewrite Hw; [reflexivity|vm_compute; reflexivity|discriminate|vm_compute; reflexivity].
Defined.

(** X18, witness.  The image of [vdc] is not there: nothing is run, and the run fails. *)
Lemma skipped_disks_witness :
  let st := Sim.prepared Sim.web_host in
  backup_disks_from Sim.exec "web" Sim.bd Sim.td 0 [("vdc", Sim.vdc)] st = (Ok 0, st)
  ∧ process_disks Sim.exec "web" Sim.bd Sim.td [("vdc", Sim.vdc)] st
    = (Raise (RuntimeError "No disks were successfully backed up"), st).
Proof.
  intros st. apply (skipped_disks Sim.exec "web" Sim.bd Sim.td 0 [("vdc", Sim.vdc)] st).
  constructor; [|constructor]. right. split; [discriminate|vm_compute; reflexivity].
Defined.

(** X19, witness.  The snapshot of [vdb] fails: nothing of [vdb] is left. *)
Lemma failed_disk_is_cleaned_witness :
  let st := Sim.prepared Sim.partial_host in
  ∃ st', backup_one_disk Sim.exec "web" (backup_dir_of "web" Sim.ts)
           (temp_dir_of "web" Sim.ts) 0 "vdb" Sim.vdb st = (Ok 0, st')
         ∧ fs st' !! snap_file_of "web" (temp_dir_of "web" Sim.ts) "vdb" = None
         ∧ fs st' !! backup_file_of "web" (backup_dir_of "web" Sim.ts) "vdb" = None
         ∧ ready "web" Sim.ts st'.
Proof.
  intros st.
  apply (failed_disk_is_cleaned Sim.exec "web" Sim.ts 0 "vdb" Sim.vdb st
           (RuntimeError
              ("Failed to create snapshot for disk vdb: "
               ++ str_exn (CalledProcessError 1
                             (snapshot_cmd "web" "vdb" (snap_file_of "web" Sim.td "vdb"))
                             "error")))
           (disk_steps Sim.exec "web" "vdb" Sim.vdb
              (snap_file_of "web" (temp_dir_of "web" Sim.ts) "vdb")
              (backup_file_of "web" (backup_dir_of "web" Sim.ts) "vdb") st).2).
  - split; vm_compute; reflexivity.
  - reflexivity.
  - vm_compute. eauto.
  - vm_compute. reflexivity.
Defined.

(** X20, witness.  The image of [vda] is as it was after the failed run of [web]. *)
Lemma backup_vm_frame_witness :
  let st := Sim.init Sim.disk_tree Sim.web_host in
  let q := "/var/lib/libvirt/images/a.qcow2" in
  fs (backup_vm Sim.exec Sim.now "web" st).2 !! q = fs st !! q
  ∨ (fs st !! q = None
     ∧ fs (backup_vm Sim.exec Sim.now "web" st).2 !! q = Some Dir
     ∧ q ∈ (ancestors (backup_dir_of "web" (Sim.now (host st)))
            ++ ancestors (temp_dir_of "web" (Sim.now (host st))))%list).
Proof.
  intros st q. apply (backup_vm_frame Sim.exec Sim.now "web" st q).
  - reflexivity.
  - reflexivity.
  - vm_compute. reflexivity.
  - vm_compute. reflexivity.
  - intros [Hq|Hq]; vm_compute in Hq; discriminate.
  - intros [Hq|Hq]; vm_compute in Hq; discriminate.
Defined.

(** X22, witness.  The copy of [vda] fails: no block commit, and the overlay is deleted. *)
Lemma copy_failure_skips_commit_witness :
  let st := Sim.prepared Hosts.failing_copy in
  ∃ st', backup_one_disk Sim.exec "web" (backup_dir_of "web" Sim.ts)
           (temp_dir_of "web" Sim.ts) 0 "vda" Sim.vda st = (Ok 0, st')
         ∧ trace st'
           = (trace st
              ++ [snapshot_cmd "web" "vda" (snap_file_of "web" (temp_dir_of "web" Sim.ts) "vda");
                  ["cp"; "--sparse=always"; source Sim.vda;
                   backup_file_of "web" (backup_dir_of "web" Sim.ts) "vda"]])%list
         ∧ fs st' !! snap_file_of "web" (temp_dir_of "web" Sim.ts) "vda" = None.
Proof.
  intros st.
  apply (copy_failure_skips_commit Sim.exec "web" Sim.ts 0 "vda" Sim.vda st
           (create_snapshot Sim.exec "web" "vda"
              (snap_file_of "web" (temp_dir_of "web" Sim.ts) "vda") st).2).
  - split; vm_compute; reflexivity.
  - reflexivity.
  - vm_compute. eauto.
  - vm_compute. reflexivity.
  - vm_compute. reflexivity.
Defined.

(** X23, witness.  100 MB free where 2500 are needed: the run fails and nothing is made. *)
Lemma failed_capacity_check_changes_nothing_witness :
  let st := Sim.init Sim.disk_tree Hosts.little_space in
  let st2 := (backup_vm Sim.exec Sim.now "web" st).2 in
  backup_vm Sim.exec Sim.now "web" st = (Ok false, st2)
  ∧ fs st2 = fs st
  ∧ ∃ l, trace st2 = (trace st ++ ["virsh"; "domblklist"; "web"; "--details"] :: l)%list
         ∧ Forall capacity_query l.
Proof.
  intros st st2.
  apply (failed_capacity_check_changes_nothing Sim.exec Sim.now "web" st Sim.disks
           (get_vm_disks Sim.exec "web" st).2
           (insufficient_space "web" 2500 100) st2).
  - vm_compute. reflexivity.
  - vm_compute. reflexivity.
  - vm_compute. reflexivity.
  - discriminate.
  - vm_compute. reflexivity.
Defined.

(** X24, witness.  [virsh] is missing: the batch ends with status 1 after one command. *)
Lemma failed_validation_stops_batch_witness :
  let st := Sim.init Sim.disk_tree Hosts.no_virsh in
  ∃ st', main Sim.exec Sim.writable Sim.now None st = (Ok 1, st')
         ∧ fs st' = fs st
         ∧ running_vms st' = running_vms st
         ∧ ∃ l, trace st' = (trace st ++ l)%list ∧ Forall which_query l.
Proof.
  intros st.
  apply (failed_validation_stops_batch Sim.exec Sim.writable Sim.now None st
           (RuntimeError "Required binary not found: virsh")
           (validate_environment Sim.exec Sim.writable st).2).
  vm_compute. reflexivity.
Defined.
